(** * pymrio.tools.ioparser: a shallow embedding and its verified properties

    The parsers of [pymrio/tools/ioparser.py] are embedded as pure functions
    over explicit inputs (the listing of a directory, the cells of a workbook,
    the rows of a csv file), with Python exceptions as a result type and the
    metadata record as threaded state.  Numbers are exact rationals, extended
    by the three non-finite IEEE values where the code can produce them;
    rounding and overflow are outside the model. *)

From Stdlib Require Import QArith Qcanon Qcabs String Ascii Bool Arith Lia List.
From Stdlib Require DecimalString.
Import ListNotations.

Set Implicit Arguments.
Open Scope nat_scope.

(** ** Python results *)

Inductive exn : Type :=
| ParserError (msg : string)
| ValueError
| TypeError
| AttributeError
| KeyError
| IndexError
| NameError
| LinAlgError
| FileNotFoundError.

Inductive res (A : Type) : Type :=
| Ok (a : A)
| Raise (e : exn).

Arguments Ok {A} a.
Arguments Raise {A} e.

Definition bind {A B : Type} (c : res A) (k : A -> res B) : res B :=
  match c with
  | Ok a => k a
  | Raise e => Raise e
  end.

Notation "x <- c ;; k" := (bind c (fun x => k))
  (at level 61, c at next level, right associativity).

Definition raises {A : Type} (c : res A) : bool :=
  match c with Ok _ => false | Raise _ => true end.

(** ** Numbers *)

Module Num.

Local Open Scope Qc_scope.

(** A float: a finite value (kept exact) or one of the non-finite values. *)
Inductive fl : Type :=
| Fin (q : Qc)
| PInf
| NInf
| NaN.

Definition fzero : fl := Fin 0.
Definition fone : fl := Fin 1.

Definition isfinite (x : fl) : bool :=
  match x with Fin _ => true | _ => false end.

Definition fneg (x : fl) : fl :=
  match x with
  | Fin q => Fin (- q)
  | PInf => NInf
  | NInf => PInf
  | NaN => NaN
  end.

Definition fadd (x y : fl) : fl :=
  match x, y with
  | NaN, _ | _, NaN => NaN
  | Fin a, Fin b => Fin (a + b)
  | PInf, NInf | NInf, PInf => NaN
  | PInf, _ | _, PInf => PInf
  | NInf, _ | _, NInf => NInf
  end.

Definition fsub (x y : fl) : fl := fadd x (fneg y).

(** The infinity of sign [c], where [Eq] is the sign of zero. *)
Definition signed_inf (pos : bool) (c : comparison) : fl :=
  match c with
  | Eq => NaN
  | Gt => if pos then PInf else NInf
  | Lt => if pos then NInf else PInf
  end.

Definition fmul (x y : fl) : fl :=
  match x, y with
  | NaN, _ | _, NaN => NaN
  | Fin a, Fin b => Fin (a * b)
  | PInf, Fin b | Fin b, PInf => signed_inf true (b ?= 0)
  | NInf, Fin b | Fin b, NInf => signed_inf false (b ?= 0)
  | PInf, PInf | NInf, NInf => PInf
  | PInf, NInf | NInf, PInf => NInf
  end.

(** [numpy.true_divide] with the warnings silenced: a zero denominator gives
    an infinity, or NaN for 0/0. *)
Definition true_divide (x y : fl) : fl :=
  match x, y with
  | NaN, _ | _, NaN => NaN
  | Fin a, Fin b =>
      if Qc_eq_bool b 0 then signed_inf true (a ?= 0) else Fin (a / b)
  | Fin _, (PInf | NInf) => Fin 0
  | PInf, Fin b => match b ?= 0 with Lt => NInf | _ => PInf end
  | NInf, Fin b => match b ?= 0 with Lt => PInf | _ => NInf end
  | (PInf | NInf), (PInf | NInf) => NaN
  end.

(** Modelled from the spec: [pymrio.tools.iomath.div0] is imported by
    ioparser.py but its module is not among the sources.  The spec's
    division-by-zero policy: any ratio with a zero denominator evaluates to 0
    rather than raising, and NaN/Inf never propagate.  So: the true quotient,
    with every non-finite outcome replaced by 0. *)
Definition div0 (a b : fl) : fl :=
  let c := true_divide a b in
  if isfinite c then c else fzero.

Definition fsum (l : list fl) : fl := fold_left fadd l fzero.

(** [x] when [b] holds, nothing otherwise. *)
Definition ind (b : bool) (x : fl) : fl := if b then x else fzero.

End Num.

Export Num.

(** ** numpy arrays

    A 2-D array is the list of its rows; a 1-D array is a list.  The
    operations are those ioparser.py calls; the ones that numpy refuses on
    mismatching shapes return [Raise ValueError]. *)

Module Np.

Definition vector := list fl.
Definition matrix := list (list fl).

Definition nrows (M : matrix) : nat := length M.
Definition ncols (M : matrix) : nat := length (hd [] M).
Definition shape (M : matrix) : nat * nat := (nrows M, ncols M).

Definition get (M : matrix) (i j : nat) : fl := nth j (nth i M []) fzero.

(** The array of shape [(n, m)] whose cell [(i, j)] is [f i j]. *)
Definition mk (n m : nat) (f : nat -> nat -> fl) : matrix :=
  map (fun i => map (fun j => f i j) (seq 0 m)) (seq 0 n).

(** [np.ones(shape)] *)
Definition ones (sh : nat * nat) : matrix := mk (fst sh) (snd sh) (fun _ _ => fone).

(** [np.eye(n)] *)
Definition eye (n : nat) : matrix :=
  mk n n (fun i j => if Nat.eqb i j then fone else fzero).

(** [np.diag(v)] for a 1-D [v] *)
Definition diag (v : vector) : matrix :=
  mk (length v) (length v) (fun i j => if Nat.eqb i j then nth i v fzero else fzero).

(** [np.sum(M, axis=1)]: the sum of each row *)
Definition sum_axis1 (M : matrix) : vector := map fsum M.

(** [np.sum(M, axis=0)]: the sum of each column *)
Definition sum_axis0 (M : matrix) : vector :=
  map (fun j => fsum (map (fun r => nth j r fzero) M)) (seq 0 (ncols M)).

(** [np.transpose(M)] *)
Definition transpose (M : matrix) : matrix :=
  mk (ncols M) (nrows M) (fun i j => get M j i).

(** [A.dot(B)] *)
Definition dot (A B : matrix) : res matrix :=
  if Nat.eqb (ncols A) (nrows B)
  then Ok (mk (nrows A) (ncols B)
             (fun i j => fsum (map (fun k => fmul (get A i k) (get B k j))
                                   (seq 0 (ncols A)))))
  else Raise ValueError.

(** [div0(A, B)] on two arrays of one shape, cell by cell *)
Definition div0_mat (A B : matrix) : res matrix :=
  if (Nat.eqb (nrows A) (nrows B) && Nat.eqb (ncols A) (ncols B))%bool
  then Ok (mk (nrows A) (ncols A) (fun i j => div0 (get A i j) (get B i j)))
  else Raise ValueError.

(** [div0(a, v)] for a scalar [a] and a 1-D [v] *)
Definition div0_vec (a : fl) (v : vector) : vector := map (div0 a) v.

(** [u + v] on 1-D arrays, with numpy's broadcasting of a length-1 operand *)
Definition vadd (u v : vector) : res vector :=
  if Nat.eqb (length u) (length v) then Ok (map (fun p => fadd (fst p) (snd p)) (combine u v))
  else match u, v with
       | [a], _ => Ok (map (fadd a) v)
       | _, [b] => Ok (map (fun x => fadd x b) u)
       | _, _ => Raise ValueError
       end.

(** [A - B] on two arrays of one shape *)
Definition msub (A B : matrix) : res matrix :=
  if (Nat.eqb (nrows A) (nrows B) && Nat.eqb (ncols A) (ncols B))%bool
  then Ok (mk (nrows A) (ncols A) (fun i j => fsub (get A i j) (get B i j)))
  else Raise ValueError.

(** An array of [n] rows of [m] cells each. *)
Definition has_shape (n m : nat) (M : matrix) : Prop :=
  length M = n /\ Forall (fun r => length r = m) M.

Definition finite_vec (v : vector) : Prop :=
  Forall (fun x => isfinite x = true) v.

Definition all_finite (M : matrix) : Prop := Forall finite_vec M.

End Np.

(** ** numpy.linalg.inv, in exact arithmetic

    Gauss-Jordan elimination on the rows of [M | I].  LAPACK raises
    [LinAlgError] when the factorisation meets a pivot that is exactly zero;
    in exact arithmetic that is the case where no row offers a non-zero
    pivot. *)

Module Linalg.

Import Np.
Local Open Scope Qc_scope.

(** The first row with a non-zero cell in column [c], and the other rows. *)
Fixpoint find_pivot (c : nat) (rows : list (list Qc))
  : option (list Qc * list (list Qc)) :=
  match rows with
  | [] => None
  | r :: rs =>
      if Qc_eq_bool (nth c r 0) 0
      then match find_pivot c rs with
           | Some (p, rest) => Some (p, r :: rest)
           | None => None
           end
      else Some (r, rs)
  end.

Definition scale (k : Qc) (r : list Qc) : list Qc := map (Qcmult k) r.

(** [r - k * p] *)
Definition axpy (k : Qc) (p r : list Qc) : list Qc :=
  map (fun xy => snd xy - k * fst xy) (combine p r).

Fixpoint gauss_jordan (cs : list nat) (done todo : list (list Qc))
  : option (list (list Qc)) :=
  match cs with
  | [] => Some done
  | c :: cs' =>
      match find_pivot c todo with
      | None => None
      | Some (p, rest) =>
          let p' := scale (/ nth c p 0) p in
          let elim r := axpy (nth c r 0) p' r in
          gauss_jordan cs' (map elim done ++ [p']) (map elim rest)
      end
  end.

Definition inverse (M : list (list Qc)) : option (list (list Qc)) :=
  let n := length M in
  let unit i := map (fun j => if Nat.eqb i j then 1 else 0) (seq 0 n) in
  let aug := map (fun i => nth i M [] ++ unit i) (seq 0 n) in
  option_map (map (skipn n)) (gauss_jordan (seq 0 n) [] aug).

(** The finite cells of an array, or [None] when a cell is not finite. *)
Fixpoint finite_row (r : list fl) : option (list Qc) :=
  match r with
  | [] => Some []
  | Fin q :: r' => option_map (cons q) (finite_row r')
  | _ :: _ => None
  end.

Fixpoint finite_cells (M : matrix) : option (list (list Qc)) :=
  match M with
  | [] => Some []
  | r :: M' =>
      match finite_row r, finite_cells M' with
      | Some r', Some M'' => Some (r' :: M'')
      | _, _ => None
      end
  end.

Definition is_square (M : matrix) : bool :=
  forallb (fun r => Nat.eqb (length r) (length M)) M.

(** [np.linalg.inv]: a non-square array and a singular one raise
    [LinAlgError]; LAPACK reports nothing on non-finite cells, and the result
    then has no meaning (all NaN here). *)
Definition inv (M : matrix) : res matrix :=
  if is_square M then
    match finite_cells M with
    | Some Q =>
        match inverse Q with
        | Some L => Ok (map (map Fin) L)
        | None => Raise LinAlgError
        end
    | None => Ok (mk (nrows M) (nrows M) (fun _ _ => NaN))
    end
  else Raise LinAlgError.

(** The infinity norm and the condition number it induces. *)
Definition Qcmax (a b : Qc) : Qc :=
  match a ?= b with Lt => b | _ => a end.

Definition norm_inf (M : list (list Qc)) : Qc :=
  fold_right Qcmax 0 (map (fun r => fold_right Qcplus 0 (map Qcabs r)) M).

Definition cond_inf (M : list (list Qc)) : option Qc :=
  option_map (fun L => norm_inf M * norm_inf L) (inverse M).

End Linalg.

(** ** cecilia_parser *)

Module Cecilia.

Import Np.
Local Open Scope string_scope.

(** [IOT_from_SUT(S, U, kind)], nested in [cecilia_parser].  A [kind] other
    than 'pxp' and 'ixi' falls off the end of the function: Python's None. *)
Definition IOT_from_SUT (S U : matrix) (kind : string) : res (option matrix) :=
  if String.eqb kind "pxp" then
    D <- dot (diag (sum_axis1 S)) (ones (shape S)) ;;
    Q <- div0_mat S D ;;
    P <- dot U Q ;;
    Ok (Some (transpose P))
  else if String.eqb kind "ixi" then
    D <- dot (ones (shape S)) (diag (sum_axis0 S)) ;;
    Q <- div0_mat S D ;;
    P <- dot Q U ;;
    Ok (Some P)
  else Ok None.

(** The numerical part of the system [load_system] returns. *)
Record iosystem : Type := {
  sys_Z : matrix;
  sys_Y : matrix;
  sys_x : vector;
  sys_A : matrix;
  sys_L : matrix;
}.

(** [load_system], from the three arrays [load_matrix] has read ('V', 'U' and
    'Y') up to the technical coefficients:
      Z = IOT_from_SUT(S, U, system)
      x = y.sum(axis=1) + Z.sum(axis=1)
      A = Z.dot(np.diag(div0(1,x)))
    [Z.sum] on None is an AttributeError. *)
Definition coefficients (S U y : matrix) (system : string)
  : res (matrix * vector * matrix) :=
  oZ <- IOT_from_SUT S U system ;;
  Z <- match oZ with Some Z => Ok Z | None => Raise AttributeError end ;;
  x <- vadd (sum_axis1 y) (sum_axis1 Z) ;;
  A <- dot Z (diag (div0_vec fone x)) ;;
  Ok (Z, x, A).

Section LoadSystem.

(** numpy's dense inversion, whatever it does on a given array. *)
Variable linalg_inv : matrix -> res matrix.

(** [load_system] up to the Leontief inverse
      L = np.linalg.inv(np.eye(A.shape[0])-A)
    The labelling of Z, Y and x and the materials extension follow it in the
    source and change none of Z, x, A and L. *)
Definition load_system (S U y : matrix) (system : string) : res iosystem :=
  zxa <- coefficients S U y system ;;
  let '(Z, x, A) := zxa in
  IA <- msub (eye (nrows A)) A ;;
  L <- linalg_inv IA ;;
  Ok {| sys_Z := Z; sys_Y := y; sys_x := x; sys_A := A; sys_L := L |}.

End LoadSystem.

(** *** The transform as the specification writes it

    S has [n] rows (industries) and [m] columns (products); U is [m] by [n].
    The operators are the mathematical ones, on arrays of known size. *)

Definition rowsum (S : matrix) (i : nat) : fl := fsum (nth i S []).

Definition colsum (S : matrix) (j : nat) : fl :=
  fsum (map (fun r => nth j r fzero) S).

Definition matmul (n k m : nat) (A B : matrix) : matrix :=
  mk n m (fun i j =>
    fsum (map (fun l => fmul (get A i l) (get B l j)) (seq 0 k))).

Definition diagonal (n : nat) (d : nat -> fl) : matrix :=
  mk n n (fun i j => if Nat.eqb i j then d i else fzero).

Definition all_ones (n m : nat) : matrix := mk n m (fun _ _ => fone).

(** The element-wise zero-safe division. *)
Definition zero_safe_div (n m : nat) (A B : matrix) : matrix :=
  mk n m (fun i j => div0 (get A i j) (get B i j)).

Definition transposed (n m : nat) (A : matrix) : matrix :=
  mk m n (fun i j => get A j i).

(** Z = transpose(U . (S / diag(rowsum(S)) . ones)) *)
Definition Z_industry_technology (n m : nat) (S U : matrix) : matrix :=
  transposed m m
    (matmul m n m U
       (zero_safe_div n m S (matmul n n m (diagonal n (rowsum S)) (all_ones n m)))).

(** Z = (S / (ones . diag(colsum(S)))) . U *)
Definition Z_product_technology (n m : nat) (S U : matrix) : matrix :=
  matmul n m n
    (zero_safe_div n m S (matmul n m m (all_ones n m) (diagonal m (colsum S))))
    U.

End Cecilia.

(** ** themis_parser *)

Module Themis.

Local Open Scope string_scope.

(** What a call gives back and what it writes on standard output. *)
Record outcome (V : Type) : Type := {
  returned : res V;
  printed : list string;
}.

Section Parser.

(** The contents of a .mat file, the label tables and the IOSystem class are
    not part of ioparser.py. *)
Variables (matfile labels_t iosystem : Type).

(** [scipy.io.loadmat] *)
Variable loadmat : string -> res matfile.

(** The three [pd.read_excel] calls on THEMIS2_labels.xls and the renaming of
    the region codes, which build [labels]. *)
Variable read_labels : string -> res labels_t.

(** The branch taken when neither year nor scenario is given: every
    scenario and year, in a dict of dicts. *)
Variable all_scenarios :
  string -> matfile -> matfile -> labels_t -> option string -> bool -> bool ->
  res (list (string * list (Z * iosystem))).

(** The branch taken when both are given: one IOSystem. *)
Variable single_system :
  string -> Z -> string -> matfile -> matfile -> labels_t -> res iosystem.

Inductive value : Type :=
| PyNone
| System (s : iosystem)
| Scenarios (d : list (string * list (Z * iosystem))).

(** if themis is None or themis_caracs is None or labels is None: all three
    are read again from the folder. *)
Definition preload (exio_files : string)
    (themis themis_caracs : option matfile) (labels : option labels_t)
  : res (matfile * matfile * labels_t) :=
  match themis, themis_caracs, labels with
  | Some t, Some c, Some l => Ok (t, c, l)
  | _, _, _ =>
      t <- loadmat (exio_files ++ "Data/THEMIS2.mat") ;;
      c <- loadmat (exio_files ++ "Data/Characterization_endpoint2.mat") ;;
      l <- read_labels (exio_files ++ "Data/THEMIS2_labels.xls") ;;
      Ok (t, c, l)
  end.

Definition themis_parser (exio_files : string)
    (year : option Z) (scenario : option string)
    (themis themis_caracs : option matfile) (labels : option labels_t)
    (dlr_files : option string) (combo compute_all : bool)
  : outcome value :=
  match preload exio_files themis themis_caracs labels with
  | Raise e => {| returned := Raise e; printed := [] |}
  | Ok (t, c, l) =>
      match year, scenario with
      | None, None =>
          {| returned :=
               d <- all_scenarios exio_files t c l dlr_files combo compute_all ;;
               Ok (Scenarios d);
             printed := [] |}
      | None, Some _ | Some _, None =>
          {| returned := Ok PyNone;
             printed := ["scenario and year must be both given or None"] |}
      | Some y, Some s =>
          {| returned :=
               io <- single_system exio_files y s t c l ;; Ok (System io);
             printed := [] |}
      end
  end.

End Parser.

End Themis.

(** ** Python strings and the regular expressions the parsers use *)

Module PyStr.

Local Open Scope string_scope.

(** [s[n:]] *)
Fixpoint drop (n : nat) (s : string) : string :=
  match n, s with
  | O, _ => s
  | S n', String _ s' => drop n' s'
  | S _, EmptyString => EmptyString
  end.

Definition startswith (p s : string) : bool := String.prefix p s.

(** [p in s] *)
Fixpoint contains (p s : string) : bool :=
  startswith p s ||
  match s with
  | EmptyString => false
  | String _ s' => contains p s'
  end.

Definition endswith (p s : string) : bool :=
  (String.length p <=? String.length s)%nat &&
  String.eqb (drop (String.length s - String.length p) s) p.

Definition newline : ascii := ascii_of_nat 10.

(** [.*p] from the start of [s]: [p] occurs later on the same line. *)
Fixpoint dot_star_then (p s : string) : bool :=
  startswith p s ||
  match s with
  | EmptyString => false
  | String c s' => if Ascii.eqb c newline then false else dot_star_then p s'
  end.

(** [re.search('(?<!\_)' + stem + '.*txt', s)], as a truth value; [prev] is
    the character before [s], if any. *)
Fixpoint search_from (stem : string) (prev : option ascii) (s : string) : bool :=
  (match prev with Some c => negb (Ascii.eqb c "_") | None => true end
   && startswith stem s
   && dot_star_then "txt" (drop (String.length stem) s))
  ||
  match s with
  | EmptyString => false
  | String c s' => search_from stem (Some c) s'
  end.

Definition search_not_after_underscore (stem s : string) : bool :=
  search_from stem None s.

Definition lower_ascii (c : ascii) : ascii :=
  let n := nat_of_ascii c in
  if ((65 <=? n) && (n <=? 90))%nat then ascii_of_nat (n + 32) else c.

Fixpoint lower (s : string) : string :=
  match s with
  | EmptyString => EmptyString
  | String c s' => String (lower_ascii c) (lower s')
  end.

(** [re.search(p, s, flags=re.IGNORECASE)] for a pattern of plain lower-case
    ASCII letters, as a truth value. *)
Definition search_ignorecase (p s : string) : bool := contains p (lower s).

(** A string of ASCII characters only.  On such a string Python's classes of
    characters are the ASCII ones: [\d] is one of 0 to 9 (in a str pattern
    it also matches the decimal digits of the other scripts). *)
Fixpoint is_ascii (s : string) : bool :=
  match s with
  | EmptyString => true
  | String c s' => (nat_of_ascii c <? 128)%nat && is_ascii s'
  end.

(** [os.path.join(a, b)] on POSIX paths. *)
Definition path_join (a b : string) : string :=
  if startswith "/" b then b
  else if String.eqb a "" || endswith "/" a then a ++ b
  else a ++ "/" ++ b.

End PyStr.

(** ** EXIOBASE 1 and 2: locating the files *)

Module Exio.

Import PyStr.
Local Open Scope string_scope.

(** [get_repo_content(path)], of pymrio.tools.ioutil: the files below a
    folder or inside a zip archive. *)
Record repo_content : Type := {
  filelist : list string;
  iszip : bool;
}.

(** What [sniff_csv_format], of pymrio.tools.ioutil, returns. *)
Record format_para : Type := {
  fp_sep : string;
  nr_header_row : nat;
  nr_index_col : nat;
}.

(** One value of the dict [get_exiobase_files] returns. *)
Record file_para : Type := {
  root_repo : string;
  file_path : string;
  version : option string;
  index_rows : nat;
  index_col : nat;
  unit_col : Z;
  sep : string;
}.

(** Records passed to the [logging] module. *)
Inductive log_record : Type :=
| Warning_multiple_files (key : string) (found : list string)
| Debug_process_file (file : string)
| Warning_no_system.

(** The tables and the stems of their patterns
    [re.compile(r'(?<!\_)' stem '.*txt')], in the order of the dict. *)
Definition exio_core_regex (coefficients : bool) : list (string * string) :=
  if coefficients then
    [("A", "mrIot"); ("Y", "mrFinalDemand");
     ("S_factor_inputs", "mrFactorInputs"); ("S_emissions", "mrEmissions");
     ("S_materials", "mrMaterials"); ("S_resources", "mrResources");
     ("F_Y_resources", "mrFDResources"); ("F_Y_emissions", "mrFDEmissions");
     ("F_Y_materials", "mrFDMaterials")]
  else
    [("Z", "mrIot"); ("Y", "mrFinalDemand");
     ("F_factor_inputs", "mrFactorInputs"); ("F_emissions", "mrEmissions");
     ("F_materials", "mrMaterials"); ("F_resources", "mrResources");
     ("F_Y_emissions", "mrFDEmissions"); ("F_Y_materials", "mrFDMaterials")].

(** A dict with string keys, in insertion order. *)
Definition dict (V : Type) : Type := list (string * V).

Fixpoint dict_get {V : Type} (d : dict V) (k : string) : option V :=
  match d with
  | [] => None
  | (k', v) :: d' => if String.eqb k' k then Some v else dict_get d' k
  end.

Fixpoint dict_set {V : Type} (d : dict V) (k : string) (v : V) : dict V :=
  match d with
  | [] => [(k, v)]
  | (k', v') :: d' =>
      if String.eqb k' k then (k', v) :: d' else (k', v') :: dict_set d' k v
  end.

Section Files.

(** The collaborators of pymrio.tools.ioutil. *)
Variable get_repo_content : string -> repo_content.
Variable sniff_csv_format : string -> option string -> res format_para.

(** [get_exiobase12_version(os.path.basename(file))]: two regular-expression
    searches on the base name, kept abstract. *)
Variable version_of : string -> option string.

(** The parser proper, which reads the located files. *)
Variable iosystem : Type.
Variable generic_exiobase12_parser :
  dict file_para -> option string -> res iosystem.

(** The body of the loop of [get_exiobase_files] over the patterns, with the
    dict built so far and the records logged so far. *)
Fixpoint locate (path : string) (repo : repo_content)
    (table : list (string * string))
    (exio_files : dict file_para) (log : list log_record)
  : list log_record * res (dict file_para) :=
  match table with
  | [] => (log, Ok exio_files)
  | (kk, vv) :: rest =>
      let found_file :=
        filter (search_not_after_underscore vv) (filelist repo) in
      if (1 <? length found_file)%nat then
        (* warning, then found_file = found_file[0:1]: the loop goes on *)
        locate path repo rest exio_files
          (log ++ [Warning_multiple_files kk found_file])%list
      else if (length found_file =? 0)%nat then
        locate path repo rest exio_files log
      else
        let file := hd "" found_file in
        let log' := (log ++ [Debug_process_file file])%list in
        match (if iszip repo
               then sniff_csv_format file (Some path)
               else sniff_csv_format (path_join path file) None) with
        | Raise e => (log', Raise e)
        | Ok format_para =>
            locate path repo rest
              (dict_set exio_files kk
                 {| root_repo := path;
                    file_path := file;
                    version := version_of file;
                    index_rows := nr_header_row format_para;
                    index_col := nr_index_col format_para;
                    unit_col := Z.of_nat (nr_index_col format_para) - 1;
                    sep := fp_sep format_para |})
              log'
        end
  end.

Definition get_exiobase_files (path : string) (coefficients : bool)
  : list log_record * res (dict file_para) :=
  locate path (get_repo_content path) (exio_core_regex coefficients) [] [].

(** [_get_MRIO_system(path)] *)
Definition _get_MRIO_system (path : string) : option string :=
  let ispxp := search_ignorecase "pxp" path in
  let isixi := search_ignorecase "ixi" path in
  if Bool.eqb ispxp isixi then None
  else Some (if ispxp then "pxp" else "ixi").

(** [parse_exiobase1(path)], for a normalised absolute [path]. *)
Definition parse_exiobase1 (path : string) : list log_record * res iosystem :=
  let (log, located) := get_exiobase_files path true in
  match located with
  | Raise e => (log, Raise e)
  | Ok exio_files =>
      if (length exio_files =? 0)%nat then
        (log, Raise (ParserError ("No EXIOBASE files found at " ++ path)))
      else
        let system := _get_MRIO_system path in
        let log' := match system with
                    | None => (log ++ [Warning_no_system])%list
                    | Some _ => log
                    end in
        (log', generic_exiobase12_parser exio_files system)
  end.

End Files.

End Exio.

(** ** The metadata record *)

Module Meta.

(** Modelled from the spec: [MRIOMetaData] belongs to pymrio.tools.iometadata,
    which is not among the sources.  The spec's provenance log: an ordered
    sequence of entries of kind fileio, modify or note, created empty at
    parse start and appended to, plus scalar fields.  The timestamp of an
    entry is left out; the number a message formats is kept beside its
    text. *)
Inductive kind : Type := fileio | modify | note.

Record entry : Type := {
  entry_kind : kind;
  entry_text : string;
  entry_amount : option fl;
}.

Record MRIOMetaData : Type := {
  location : option string;
  name : option string;
  description : option string;
  system : option string;
  version : option string;
  history : list entry;
}.

Definition new (location name description system version : option string)
  : MRIOMetaData :=
  {| location := location; name := name; description := description;
     system := system; version := version; history := [] |}.

Definition add_history (m : MRIOMetaData) (e : entry) : MRIOMetaData :=
  {| location := location m; name := name m; description := description m;
     system := system m; version := version m;
     history := history m ++ [e] |}.

Definition _add_fileio (m : MRIOMetaData) (text : string) : MRIOMetaData :=
  add_history m
    {| entry_kind := fileio; entry_text := text; entry_amount := None |}.

Definition _add_modify (m : MRIOMetaData) (text : string) (amount : fl)
  : MRIOMetaData :=
  add_history m
    {| entry_kind := modify; entry_text := text; entry_amount := Some amount |}.

Definition add_note (m : MRIOMetaData) (text : string) : MRIOMetaData :=
  add_history m
    {| entry_kind := note; entry_text := text; entry_amount := None |}.

Definition change_system (m : MRIOMetaData) (v : string) : MRIOMetaData :=
  {| location := location m; name := name m; description := description m;
     system := Some v; version := version m; history := history m |}.

Definition kind_eqb (a b : kind) : bool :=
  match a, b with
  | fileio, fileio | modify, modify | note, note => true
  | _, _ => false
  end.

(** The number of entries of kind [k]. *)
Definition count (k : kind) (m : MRIOMetaData) : nat :=
  length (filter (fun e => kind_eqb (entry_kind e) k) (history m)).

End Meta.

(** ** pandas frames *)

Module Frame.

(** A DataFrame: the labels of its rows, the labels of its columns and its
    cells, row by row. *)
Record frame (R C : Type) : Type := {
  index : list R;
  columns : list C;
  values : list (list fl);
}.

Arguments index {R C} f.
Arguments columns {R C} f.
Arguments values {R C} f.

(** The cells of a row kept by a mask over the columns. *)
Fixpoint mask_cells (mask : list bool) (row : list fl) : list fl :=
  match mask, row with
  | true :: mask', x :: row' => x :: mask_cells mask' row'
  | false :: mask', _ :: row' => mask_cells mask' row'
  | _, _ => []
  end.

(** The rows whose label satisfies [keep]. *)
Definition filter_rows {R C : Type} (keep : R -> bool) (f : frame R C)
  : frame R C :=
  {| index := filter keep (index f);
     columns := columns f;
     values := map snd (filter (fun rv => keep (fst rv))
                              (combine (index f) (values f))) |}.

(** The columns whose label satisfies [keep]. *)
Definition filter_cols {R C : Type} (keep : C -> bool) (f : frame R C)
  : frame R C :=
  {| index := index f;
     columns := filter keep (columns f);
     values := map (mask_cells (map keep (columns f))) (values f) |}.

(** [f.loc[rows, :]] for a list of labels: for each label in turn, the rows
    that carry it. *)
Definition loc_rows {R C : Type} (eqb : R -> R -> bool) (rows : list R)
    (f : frame R C) : frame R C :=
  let pick r := filter (fun rv => eqb (fst rv) r)
                       (combine (index f) (values f)) in
  let picked := flat_map pick rows in
  {| index := map fst picked; columns := columns f; values := map snd picked |}.

(** [f.loc[:, cols]] *)
Definition loc_cols {R C : Type} (eqb : C -> C -> bool) (cols : list C)
    (f : frame R C) : frame R C :=
  let pick (row : list fl) c :=
    map snd (filter (fun cv => eqb (fst cv) c) (combine (columns f) row)) in
  {| index := index f;
     columns := flat_map (fun c => filter (fun c' => eqb c' c) (columns f)) cols;
     values := map (fun row => flat_map (pick row) cols) (values f) |}.

Definition set_index {R R' C : Type} (idx : list R') (f : frame R C)
  : res (frame R' C) :=
  if Nat.eqb (length idx) (length (index f))
  then Ok {| index := idx; columns := columns f; values := values f |}
  else Raise ValueError.

Definition set_columns {R C C' : Type} (cols : list C') (f : frame R C)
  : res (frame R C') :=
  if Nat.eqb (length cols) (length (columns f))
  then Ok {| index := index f; columns := cols; values := values f |}
  else Raise ValueError.

(** Every row has one cell per column, and every label its row. *)
Definition well_formed {R C : Type} (f : frame R C) : Prop :=
  length (values f) = length (index f) /\
  Forall (fun row => length row = length (columns f)) (values f).

Definition finite {R C : Type} (f : frame R C) : Prop :=
  Np.all_finite (values f).

(** The sum of all cells. *)
Definition total {R C : Type} (f : frame R C) : fl :=
  fsum (map fsum (values f)).

(** [Index.difference]: the labels of [a] that are not in [b], sorted, each
    once. *)
Fixpoint insert_sorted (s : string) (l : list string) : list string :=
  match l with
  | [] => [s]
  | x :: l' =>
      match String.compare s x with
      | Lt => s :: l
      | Eq => l
      | Gt => x :: insert_sorted s l'
      end
  end.

Definition sort_unique (l : list string) : list string :=
  fold_right insert_sorted [] l.

Definition mem (s : string) (l : list string) : bool :=
  existsb (String.eqb s) l.

Definition difference (a b : list string) : list string :=
  sort_unique (filter (fun s => negb (mem s b)) a).

(** [Series.unique()]: first occurrences, in order. *)
Fixpoint unique (l : list string) : list string :=
  match l with
  | [] => []
  | x :: l' => x :: filter (fun y => negb (String.eqb y x)) (unique l')
  end.

End Frame.

(** ** parse_oecd *)

Module Oecd.

Import PyStr Frame Meta.
Local Open Scope string_scope.

(** A (region, sector) or (region, category) pair of a two-level index. *)
Definition key : Type := (string * string)%type.
Definition region (k : key) : string := fst k.
Definition sector (k : key) : string := snd k.

(** One of the digits 0 to 9: what [\d] matches in a string of ASCII
    characters. *)
Definition is_digit (c : ascii) : bool :=
  let n := nat_of_ascii c in ((48 <=? n) && (n <=? 57))%nat.

(** [s.split(c)] *)
Fixpoint split_on (c : ascii) (s : string) : list string :=
  match s with
  | EmptyString => [EmptyString]
  | String x s' =>
      if Ascii.eqb x c then EmptyString :: split_on c s'
      else match split_on c s' with
           | [] => [String x EmptyString]
           | w :: ws => String x w :: ws
           end
  end.

(** [re.findall(r'\d\d\d\d', s)], for [s] of ASCII characters *)
Fixpoint findall_4_digits (s : string) : list string :=
  match s with
  | String a (String b (String c (String d rest)) as tail) =>
      if is_digit a && is_digit b && is_digit c && is_digit d
      then String a (String b (String c (String d EmptyString)))
             :: findall_4_digits rest
      else findall_4_digits tail
  | _ => []
  end.

(** [re.match(prefix + r'\d', a)] as a truth value, for [a] of ASCII
    characters *)
Definition match_prefix_digit (prefix a : string) : bool :=
  startswith prefix a &&
  match String.get (String.length prefix) a with
  | Some c => is_digit c
  | None => false
  end.

(** [fillna(0)] *)
Definition fillna0 (x : fl) : fl :=
  match x with NaN => fzero | _ => x end.

(** pandas' sum, which skips NaN *)
Definition nansum (l : list fl) : fl :=
  fsum (filter (fun x => match x with NaN => false | _ => true end) l).

(** The tuple of a 'REGION_SECTOR' label.  pandas pads a label without '_'
    with a NaN sector and refuses, by the two index names, one with more than
    two parts; here both are refused. *)
Definition split_key (label : string) : res key :=
  match split_on "_" label with
  | [r; s] => Ok (r, s)
  | _ => Raise ValueError
  end.

Fixpoint split_keys (labels : list string) : res (list key) :=
  match labels with
  | [] => Ok []
  | l :: ls => k <- split_key l ;; ks <- split_keys ls ;; Ok (k :: ks)
  end.

(** The tuple of one final-demand column (the loop over [Y.columns]). *)
Definition y_column_key (regions : list string) (orig_idx : string) : res key :=
  let entries := split_on "_" orig_idx in
  let entries := match entries with [e] => ["ALL"; e] | _ => entries end in
  match entries with
  | e0 :: e1 :: rest =>
      if mem e1 regions then Ok (e1, e0)
      else match rest with [] => Ok (e0, e1) | _ => Raise ValueError end
  | _ => Raise ValueError
  end.

Fixpoint y_column_keys (regions labels : list string) : res (list key) :=
  match labels with
  | [] => Ok []
  | l :: ls =>
      k <- y_column_key regions l ;; ks <- y_column_keys regions ls ;;
      Ok (k :: ks)
  end.

(** *** Aggregation of the sub-regions *)

Definition add_cells (a b : list fl) : list fl :=
  map (fun p => fadd (fst p) (snd p)) (combine a b).

(** The sum of some rows, column by column. *)
Definition colwise_nansum (m : nat) (rows : list (list fl)) : list fl :=
  map (fun j => nansum (map (fun r => nth j r fzero) rows)) (seq 0 m).

(** f.loc[co_name, :] = f.loc[[co_name], :]
                        + f.loc[agg_list, :].sum(level='sector', axis=0)
    f = f.drop(agg_list, axis=0)
    The sum is aligned with the rows of [co_name] on the sector; a sector of
    [co_name] that no sub-region has gets NaN. *)
Definition aggregate_rows {C : Type} (co_name : string) (agg_list : list string)
    (f : frame key C) : frame key C :=
  let rows := combine (index f) (values f) in
  let members s :=
    filter (fun kv => mem (region (fst kv)) agg_list
                      && String.eqb (sector (fst kv)) s) rows in
  let summed :=
    map (fun kv =>
           if String.eqb (region (fst kv)) co_name then
             (fst kv,
              match members (sector (fst kv)) with
              | [] => map (fun _ => NaN) (snd kv)
              | ms => add_cells (snd kv)
                        (colwise_nansum (length (columns f)) (map snd ms))
              end)
           else kv) rows in
  let kept := filter (fun kv => negb (mem (region (fst kv)) agg_list)) summed in
  {| index := filter (fun k => negb (mem (region k) agg_list)) (index f);
     columns := columns f;
     values := map snd kept |}.

(** The labels of a table fit the aggregation of [agg_list] into [co_name]:
    every sector of a sub-region is a sector of [co_name], and every sector
    of [co_name] is met in some sub-region. *)
Definition fits (co_name : string) (agg_list : list string) (keys : list key)
  : Prop :=
  (forall k, In k keys -> mem (region k) agg_list = true ->
             In (co_name, sector k) keys) /\
  (forall k, In k keys -> region k = co_name ->
             exists k', In k' keys /\ mem (region k') agg_list = true /\
                        sector k' = sector k).

(** The sub-regions [parse_oecd] finds for a prefix ('CN' or 'MX'). *)
Definition sub_regions (prefix : string) (keys : list key) : list string :=
  filter (match_prefix_digit prefix) (unique (map region keys)).

(** The labels fit the aggregation into [co_name], when there is one. *)
Definition aligned (co_name prefix : string) (keys : list key) : Prop :=
  mem co_name (unique (map region keys)) = true ->
  sub_regions prefix keys <> [] ->
  fits co_name (sub_regions prefix keys) keys.

(** An interindustry table: one row of finite cells per label, labels met
    once, and the same labels on rows and columns. *)
Definition interindustry (Z : frame key key) : Prop :=
  well_formed Z /\ finite Z /\ NoDup (index Z) /\ columns Z = index Z.

(** The same on the labelled cells of one row. *)
Definition aggregate_cells (co_name : string) (agg_list : list string)
    (cells : list (key * fl)) : list (key * fl) :=
  let members s :=
    filter (fun kv => mem (region (fst kv)) agg_list
                      && String.eqb (sector (fst kv)) s) cells in
  let summed :=
    map (fun kv =>
           if String.eqb (region (fst kv)) co_name then
             (fst kv,
              match members (sector (fst kv)) with
              | [] => NaN
              | ms => fadd (snd kv) (nansum (map snd ms))
              end)
           else kv) cells in
  filter (fun kv => negb (mem (region (fst kv)) agg_list)) summed.

(** f.loc[:, co_name] = f.loc[:, [co_name]]
                        + f.loc[:, agg_list].sum(level='sector', axis=1)
    f = f.drop(agg_list, axis=1) *)
Definition aggregate_cols {R : Type} (co_name : string) (agg_list : list string)
    (f : frame R key) : frame R key :=
  {| index := index f;
     columns := filter (fun k => negb (mem (region k) agg_list)) (columns f);
     values :=
       map (fun row =>
              map snd (aggregate_cells co_name agg_list
                         (combine (columns f) row)))
           (values f) |}.

Record tables : Type := {
  tab_Z : frame key key;
  tab_Y : frame key key;
  tab_F : frame string key;
}.

(** One turn of the loop over [agg_corr]. *)
Definition aggregate_region (core_co_names : list string)
    (t : tables) (co : string * list string) : tables :=
  let (co_name, agg_list) := co in
  if negb (mem co_name core_co_names) || (length agg_list =? 0)%nat then t
  else
    let Z1 := aggregate_rows co_name agg_list (tab_Z t) in
    let Y1 := aggregate_rows co_name agg_list (tab_Y t) in
    let Z2 := aggregate_cols co_name agg_list Z1 in
    let F1 := aggregate_cols co_name agg_list (tab_F t) in
    {| tab_Z := Z2; tab_Y := Y1; tab_F := F1 |}.

(** The aggregation of the CN and MX sub-regions: rows before columns, one
    target region at a time. *)
Definition aggregate_subregions (t : tables) : tables :=
  let core_co_names := unique (map region (columns (tab_Z t))) in
  let agg_corr :=
    [("CHN", filter (match_prefix_digit "CN") core_co_names);
     ("MEX", filter (match_prefix_digit "MX") core_co_names)] in
  fold_left (aggregate_region core_co_names) agg_corr t.

(** The three tables carry the same labels: Z on its rows and columns, Y on
    its rows, F on its columns. *)
Definition consistent (t : tables) : Prop :=
  columns (tab_Z t) = index (tab_Z t) /\
  index (tab_Y t) = index (tab_Z t) /\
  columns (tab_F t) = columns (tab_Z t).

(** *** The parser *)

Record extension : Type := {
  ext_name : string;
  ext_F : frame string key;
  ext_F_Y : frame string key;
  ext_unit : list (string * string);
}.

Record iosystem : Type := {
  io_Z : frame key key;
  io_Y : frame key key;
  io_unit : list (key * string);
  io_meta : MRIOMetaData;
  io_factor_inputs : extension;
}.

Definition oecd_totals_col : list string := ["TOTAL"].
Definition oecd_totals_row : list string := ["OUT"; "OUTPUT"].

Definition is_factor_input (label : string) : bool :=
  existsb (fun p => contains p label) ["VALU"; "TAX"].

Definition is_final_demand (label : string) : bool :=
  existsb (fun p => contains p label)
    ["HFCE"; "NPISH"; "NPS"; "GGFC"; "GFCF"; "INVNT"; "INV"; "DIRP"; "FD";
     "P33"; "DISC"].

(** [parse_oecd] from the point where the file to read is known: [path] is
    its folder, [oecd_file] its full name, [oecd_file_name] its base name
    and [csv] the table [pd.read_csv(oecd_file, sep=',', index_col=0)]
    gives. *)
Definition parse_oecd (path oecd_file oecd_file_name : string)
    (csv : frame string string) : res iosystem :=
  let years := findall_4_digits oecd_file_name in
  let '(oecd_version, oecd_year, meta_desc) :=
    match years with
    | y0 :: y1 :: _ => ("v" ++ y0, y1, "OECD ICIO for " ++ y1)
    | _ => ("n/a", "n/a", "OECD ICIO - year undefined")
    end in
  let meta_rec :=
    Meta.new (Some path) (Some "OECD-ICIO") (Some meta_desc) (Some "IxI")
             (Some oecd_version) in
  let oecd_raw :=
    {| index := index csv; columns := columns csv;
       values := map (map fillna0) (values csv) |} in
  let meta_rec := _add_fileio meta_rec ("OECD data parsed from " ++ oecd_file) in
  let mon_unit := "Million USD" in
  let oecd_raw := filter_cols (fun c => negb (mem c oecd_totals_col)) oecd_raw in
  let oecd_raw := filter_rows (fun r => negb (mem r oecd_totals_row)) oecd_raw in
  let factor_input := filter_rows is_factor_input oecd_raw in
  let final_demand := filter_cols is_final_demand oecd_raw in
  let Z_rows := difference (index oecd_raw) (index factor_input) in
  let Z_cols := difference (columns oecd_raw) (columns final_demand) in
  let Z := loc_cols String.eqb Z_cols (loc_rows String.eqb Z_rows oecd_raw) in
  let F_factor_input :=
    loc_cols String.eqb
      (difference (columns factor_input) (columns final_demand)) factor_input in
  let F_Y_factor_input :=
    loc_cols String.eqb (columns final_demand) factor_input in
  let Y :=
    loc_rows String.eqb
      (difference (index final_demand) (index F_factor_input)) final_demand in
  Z_index <- match index Z with
             | [] => Raise TypeError
             | labels => split_keys labels
             end ;;
  Z <- set_index Z_index Z ;;
  Z <- set_columns Z_index Z ;;
  let regions := unique (map region (index Z)) in
  _midx <- match columns Y with
           | [] => Raise TypeError
           | labels => y_column_keys regions labels
           end ;;
  Y <- set_columns _midx Y ;;
  Y <- set_index (index Z) Y ;;
  F_factor_input <- set_columns (columns Z) F_factor_input ;;
  F_Y_factor_input <- set_columns (columns Y) F_Y_factor_input ;;
  F_Y_factor_input <- set_index (index F_factor_input) F_Y_factor_input ;;
  let t := aggregate_subregions
             {| tab_Z := Z; tab_Y := Y; tab_F := F_factor_input |} in
  Ok {| io_Z := tab_Z t;
        io_Y := tab_Y t;
        io_unit := map (fun k => (k, mon_unit)) (index (tab_Z t));
        io_meta := meta_rec;
        io_factor_inputs :=
          {| ext_name := "factor_inputs";
             ext_F := tab_F t;
             ext_F_Y := F_Y_factor_input;
             ext_unit := map (fun k => (k, mon_unit)) (index (tab_F t)) |} |}.

(** *** A small table

    China with one sub-region and Australia, one sector each, with a row of
    value added, the row of totals OUTPUT, one column of final demand and
    the column TOTAL. *)
Definition small_csv : frame string string :=
  let n (k : nat) := Fin (Q2Qc (inject_Z (Z.of_nat k))) in
  {| index := ["CHN_A"; "CN1_A"; "AUS_A"; "VALU"; "OUTPUT"];
     columns := ["CHN_A"; "CN1_A"; "AUS_A"; "HFCE_AUS"; "TOTAL"];
     values := [[n 1; n 2; n 3; n 4; n 10];
                [n 5; n 6; n 7; n 8; n 26];
                [n 9; n 10; n 11; NaN; n 30];
                [n 1; n 1; n 1; n 0; n 3];
                [n 16; n 19; n 22; n 12; n 69]] |}.

End Oecd.

(** ** Archive handles

    A computation that may raise, over the list of the zip archives held open
    (the most recent first).  An exception leaves the list as it was when
    raised: nothing closes a handle but an explicit [close] or the end of a
    [with] block. *)

Module Io.

Definition handles : Type := list string.

Definition io (A : Type) : Type := handles -> res A * handles.

Definition ret {A : Type} (a : A) : io A := fun h => (Ok a, h).

Definition lift {A : Type} (r : res A) : io A := fun h => (r, h).

Definition seq {A B : Type} (c : io A) (k : A -> io B) : io B :=
  fun h =>
    match c h with
    | (Ok a, h') => k a h'
    | (Raise e, h') => (Raise e, h')
    end.

Fixpoint remove_first (name : string) (h : handles) : handles :=
  match h with
  | [] => []
  | x :: h' => if String.eqb x name then h' else x :: remove_first name h'
  end.

(** [zipfile.ZipFile(name)]; [can_open] tells whether [name] is an archive
    that can be read. *)
Definition zip_open (can_open : string -> bool) (name : string) : io unit :=
  fun h => if can_open name then (Ok tt, name :: h)
           else (Raise FileNotFoundError, h).

(** [zf.close()] *)
Definition zip_close (name : string) : io unit :=
  fun h => (Ok tt, remove_first name h).

(** [with zipfile.ZipFile(name) as zz: body]: the archive is closed however
    the body ends. *)
Definition with_zip {A : Type} (can_open : string -> bool) (name : string)
    (body : io A) : io A :=
  fun h =>
    match zip_open can_open name h with
    | (Raise e, h') => (Raise e, h')
    | (Ok _, h') =>
        let (r, h'') := body h' in (r, remove_first name h'')
    end.

(** The result and the archives left open by a computation started with
    none open. *)
Definition run {A : Type} (c : io A) : res A * handles := c [].

End Io.

Notation "x <~ c ;; k" := (Io.seq c (fun x => k))
  (at level 61, c at next level, right associativity).

(** ** parse_eora26 *)

Module Eora.

Import PyStr Frame Meta Io.
Local Open Scope string_scope.

Definition label : Type := (string * string)%type.

(** [os.path.basename] and the head of [os.path.split], on POSIX paths
    without a trailing slash. *)
Fixpoint basename (p : string) : string :=
  match p with
  | EmptyString => EmptyString
  | String c p' =>
      if contains "/" p' || Ascii.eqb c "/" then
        (if contains "/" p' then basename p' else p')
      else p
  end.

Definition dirname (p : string) : string :=
  let n := (String.length p - String.length (basename p))%nat in
  match n with
  | 0 => EmptyString
  | 1 => "/"
  | S n' => String.substring 0 n' p
  end.

(** [os.path.splitext(p)[1] == ext] for an [ext] that starts with a dot *)
Fixpoint all_dots (s : string) : bool :=
  match s with
  | EmptyString => true
  | String c s' => Ascii.eqb c "." && all_dots s'
  end.

Definition has_ext (ext p : string) : bool :=
  let b := basename p in
  endswith ext b &&
  negb (all_dots (String.substring 0 (String.length b - String.length ext) b)).

(** [re.search(r'bp|pp', s).group(0)] *)
Fixpoint search_bp_pp (s : string) : option string :=
  if startswith "bp" s then Some "bp"
  else if startswith "pp" s then Some "pp"
  else match s with
       | EmptyString => None
       | String _ s' => search_bp_pp s'
       end.

(** pandas' sum, which skips NaN *)
Definition nansum (l : list fl) : fl :=
  fsum (filter (fun x => match x with NaN => false | _ => true end) l).

(** The nine files, as [pd.read_csv(..., sep='\t', header=None)] gives
    them. *)
Record eora_tables : Type := {
  raw_Z : list (list fl);
  raw_Q : list (list fl);
  raw_QY : list (list fl);
  raw_VA : list (list fl);
  raw_Y : list (list fl);
  labels_Z : list (list string);
  labels_Y : list (list string);
  labels_Q : list (list string);
  labels_VA : list (list string);
}.

Record extension : Type := {
  ext_name : string;
  ext_F : frame label label;
  ext_F_Y : option (frame label label);
  ext_unit : list string;
}.

Record iosystem : Type := {
  io_Z : frame label label;
  io_Y : frame label label;
  io_unit : list (label * string);
  io_Q : extension;
  io_VA : extension;
  io_meta : MRIOMetaData;
}.

Section Parser.

(** The file system. *)
Variable listdir : string -> list string.
Variable is_zip_archive : string -> bool.

(** [pd.read_csv] on a member of an opened archive, and on a file of a
    folder; a missing member is a KeyError, a missing file a
    FileNotFoundError. *)
Variable read_member_numbers : string -> string -> res (list (list fl)).
Variable read_member_labels : string -> string -> res (list (list string)).
Variable read_file_numbers : string -> res (list (list fl)).
Variable read_file_labels : string -> res (list (list string)).

(** The two regular expressions applied to the stressor labels: the text
    between brackets, which [str.extract] takes as the unit, and the label
    with the bracketed part cut out by [str.replace]. *)
Variable extract_unit : string -> string.
Variable strip_unit : string -> string.

Definition eora_file (year price tail : string) : string :=
  "Eora26_" ++ year ++ "_" ++ price ++ "_" ++ tail.

(** The dict comprehension over [eora_files], in the order of the dict. *)
Definition read_tables (numbers : string -> res (list (list fl)))
    (labels : string -> res (list (list string))) (year price : string)
  : res eora_tables :=
  Z <- numbers (eora_file year price "T.txt") ;;
  Q <- numbers (eora_file year price "Q.txt") ;;
  QY <- numbers (eora_file year price "QY.txt") ;;
  VA <- numbers (eora_file year price "VA.txt") ;;
  Y <- numbers (eora_file year price "FD.txt") ;;
  lZ <- labels "labels_T.txt" ;;
  lY <- labels "labels_FD.txt" ;;
  lQ <- labels "labels_Q.txt" ;;
  lVA <- labels "labels_VA.txt" ;;
  Ok {| raw_Z := Z; raw_Q := Q; raw_QY := QY; raw_VA := VA; raw_Y := Y;
        labels_Z := lZ; labels_Y := lY; labels_Q := lQ; labels_VA := lVA |}.

(** if is_zip: zip_file = zipfile.ZipFile(eora_loc); eora_data = {...};
    zip_file.close()   else: eora_data = {...} *)
Definition load (is_zip : bool) (eora_loc year price : string)
  : io eora_tables :=
  if is_zip then
    _ <~ zip_open is_zip_archive eora_loc ;;
    eora_data <~ lift (read_tables (read_member_numbers eora_loc)
                                   (read_member_labels eora_loc) year price) ;;
    _ <~ zip_close eora_loc ;;
    ret eora_data
  else
    lift (read_tables (fun f => read_file_numbers (path_join eora_loc f))
                      (fun f => read_file_labels (path_join eora_loc f))
                      year price).

(** Two columns of a table of labels, as the tuples of a MultiIndex. *)
Definition two_columns (a b : nat) (t : list (list string)) : res (list label) :=
  if forallb (fun row => (Nat.max a b <? length row)%nat) t
  then Ok (map (fun row => (nth a row "", nth b row "")) t)
  else Raise KeyError.

Definition labelled (idx cols : list label) (cells : list (list fl))
  : res (frame label label) :=
  f <- set_columns cols
         {| index := map (fun _ => tt) cells;
            columns := map (fun _ => tt) (hd [] cells);
            values := cells |} ;;
  set_index idx f.

Definition is_row (row_name : string) (l : label) : bool :=
  String.eqb (fst l) row_name.

(** [f.sum()]: the sums of the columns. *)
Definition column_sums {R C : Type} (f : frame R C) : list fl :=
  map (fun j => nansum (map (fun r => nth j r fzero) (values f)))
      (List.seq 0 (length (columns f))).

(** [f.sum().values[0]] *)
Definition first_sum {R C : Type} (f : frame R C) : res fl :=
  match column_sums f with
  | [] => Raise IndexError
  | a :: _ => Ok a
  end.

Definition columns_message (row_name table : string) : string :=
  "Remove Rest of the World (" ++ row_name ++ ") row from " ++ table
    ++ " - loosing ".

Definition rows_message (row_name table : string) : string :=
  "Remove Rest of the World (" ++ row_name ++ ") column from " ++ table
    ++ " - loosing ".

(** The two try blocks on one table.  A KeyError, which [.loc] raises when no
    label of the first level is [row_name], is caught before anything is
    logged or dropped. *)
Definition remove_columns (row_name table : string)
    (st : MRIOMetaData * frame label label)
  : res (MRIOMetaData * frame label label) :=
  let (meta_rec, f) := st in
  if existsb (is_row row_name) (columns f) then
    amount <- first_sum (filter_cols (is_row row_name) f) ;;
    Ok (_add_modify meta_rec (columns_message row_name table) amount,
        filter_cols (fun l => negb (is_row row_name l)) f)
  else Ok (meta_rec, f).

Definition remove_rows (row_name table : string)
    (st : MRIOMetaData * frame label label)
  : res (MRIOMetaData * frame label label) :=
  let (meta_rec, f) := st in
  if existsb (is_row row_name) (index f) then
    amount <- first_sum (filter_rows (is_row row_name) f) ;;
    Ok (_add_modify meta_rec (rows_message row_name table) amount,
        filter_rows (fun l => negb (is_row row_name l)) f)
  else Ok (meta_rec, f).

Definition remove_row (row_name table : string)
    (st : MRIOMetaData * frame label label)
  : res (MRIOMetaData * frame label label) :=
  st <- remove_columns row_name table st ;;
  remove_rows row_name table st.

(** The part of [parse_eora26] after the files are read and logged. *)
Definition label_tables (country_names row_name : string)
    (meta_rec : MRIOMetaData) (eora_data : eora_tables) : res iosystem :=
  let name_col := if String.eqb country_names "eora" then 1 else 0 in
  lZ <- two_columns name_col 3 (labels_Z eora_data) ;;
  lY <- two_columns name_col 3 (labels_Y eora_data) ;;
  lVA <- two_columns 0 1 (labels_VA eora_data) ;;
  labQ <- two_columns 0 1 (labels_Q eora_data) ;;
  let Q_unit := map (fun l => extract_unit (fst l)) labQ in
  let lQ := map (fun l => (strip_unit (fst l), snd l)) labQ in
  Z <- labelled lZ lZ (raw_Z eora_data) ;;
  st <- remove_row row_name "Z" (meta_rec, Z) ;;
  let (meta_rec, Z) := st in
  Q <- labelled lQ lZ (raw_Q eora_data) ;;
  st <- remove_row row_name "Q" (meta_rec, Q) ;;
  let (meta_rec, Q) := st in
  QY <- labelled lQ lY (raw_QY eora_data) ;;
  st <- remove_row row_name "QY" (meta_rec, QY) ;;
  let (meta_rec, QY) := st in
  VA <- labelled lVA lZ (raw_VA eora_data) ;;
  st <- remove_row row_name "VA" (meta_rec, VA) ;;
  let (meta_rec, VA) := st in
  Y <- labelled lZ lY (raw_Y eora_data) ;;
  st <- remove_row row_name "Y" (meta_rec, Y) ;;
  let (meta_rec, Y) := st in
  _ <- (if Nat.eqb (length Q_unit) (length (index Q)) then Ok tt
        else Raise ValueError) ;;
  let meta_rec :=
    add_note meta_rec "Set Eora moneatry units to Mill USD manually" in
  Ok {| io_Z := Z;
        io_Y := Y;
        io_unit := map (fun l => (l, "Mill USD")) (index Z);
        io_Q := {| ext_name := "Q"; ext_F := Q; ext_F_Y := Some QY;
                   ext_unit := Q_unit |};
        io_VA := {| ext_name := "VA"; ext_F := VA; ext_F_Y := None;
                    ext_unit := map (fun _ => "Mill USD") (index VA) |};
        io_meta := meta_rec |}.

(** 1 when a label of the list belongs to [row_name]. *)
Definition has (row_name : string) (l : list label) : nat :=
  if existsb (is_row row_name) l then 1 else 0.

Definition labels_of (a b : nat) (t : list (list string)) : list label :=
  match two_columns a b t with
  | Ok l => l
  | Raise _ => []
  end.

(** The number of tables and axes on which [row_name] is met: the columns
    and the rows of Z, Q, QY, VA and Y, by the labels they are given. *)
Definition row_axes (country_names row_name : string) (d : eora_tables)
  : nat :=
  let name_col := if String.eqb country_names "eora" then 1 else 0 in
  let lZ := labels_of name_col 3 (labels_Z d) in
  let lY := labels_of name_col 3 (labels_Y d) in
  let lVA := labels_of 0 1 (labels_VA d) in
  let lQ := map (fun l => (strip_unit (fst l), snd l))
                (labels_of 0 1 (labels_Q d)) in
  (has row_name lZ + has row_name lZ) + (has row_name lQ + has row_name lZ)
  + (has row_name lQ + has row_name lY) + (has row_name lVA + has row_name lZ)
  + (has row_name lZ + has row_name lY).

(** Which file to parse: the year, the price, the place of the data, the
    root folder, and whether the data is zipped. *)
Definition locate_eora (path year price : string)
  : res (string * string * string * string * bool) :=
  if has_ext ".zip" path then
    match hd_error (Oecd.findall_4_digits (basename path)),
          search_bp_pp (basename path) with
    | Some y, Some p => Ok (y, p, path, dirname path, true)
    | _, _ => Raise AttributeError
    end
  else
    let root_path := path in
    let path := if mem year (listdir path) then path_join path year
                else path in
    let eora_file_list :=
      filter (fun fl => has_ext ".zip" fl && contains year fl
                        && contains price fl) (listdir path) in
    match eora_file_list with
    | _ :: _ :: _ =>
        Raise (ParserError
          "Multiple files for a given year found (specify a specific file in parameters)")
    | [fl] => Ok (year, price, path_join path fl, root_path, true)
    | [] => Ok (year, price, path, root_path, false)
    end.

(** [parse_eora26(path, year, price, country_names)], for a normalised
    absolute [path]; [year] is [str(year)]. *)
Definition parse_eora26 (path year price country_names : string)
  : io iosystem :=
  country_names <~ lift
    (match String.get 0 country_names with
     | None => Raise IndexError
     | Some c =>
         if Ascii.eqb (lower_ascii c) "e" then Ok "eora"
         else if Ascii.eqb (lower_ascii c) "f" then Ok "full"
         else Raise (ParserError "Parameter country_names must be Eora or full")
     end) ;;
  let row_name := "ROW" in
  located <~ lift (locate_eora path year price) ;;
  let '(year, price, eora_loc, root_path, is_zip) := located in
  let meta_rec := Meta.new (Some root_path) None None None None in
  eora_data <~ load is_zip eora_loc year price ;;
  let meta_rec :=
    _add_fileio meta_rec
      ("Eora26 for " ++ year ++ "-" ++ price ++ " data parsed from "
         ++ eora_loc) in
  lift (label_tables country_names row_name meta_rec eora_data).

End Parser.

(** *** A small archive

    Afghanistan and the Rest of the World, one sector each, one final demand
    category per region, one stressor and one row of value added. *)
Definition small_numbers (member : string) : res (list (list fl)) :=
  let n (k : nat) := Fin (Q2Qc (inject_Z (Z.of_nat k))) in
  if String.eqb member "Eora26_2010_bp_T.txt" then Ok [[n 1; n 2]; [n 3; n 4]]
  else if String.eqb member "Eora26_2010_bp_FD.txt"
  then Ok [[n 5; n 6]; [n 7; n 8]]
  else if String.eqb member "Eora26_2010_bp_Q.txt" then Ok [[n 9; n 10]]
  else if String.eqb member "Eora26_2010_bp_QY.txt" then Ok [[n 11; n 12]]
  else if String.eqb member "Eora26_2010_bp_VA.txt" then Ok [[n 13; n 14]]
  else Raise KeyError.

Definition small_labels (member : string) : res (list (list string)) :=
  if String.eqb member "labels_T.txt"
  then Ok [["Afghanistan"; "AFG"; "Industries"; "Agriculture"];
           ["Rest of World"; "ROW"; "Industries"; "TOTAL"]]
  else if String.eqb member "labels_FD.txt"
  then Ok [["Afghanistan"; "AFG"; "Final Demand"; "Household"];
           ["Rest of World"; "ROW"; "Final Demand"; "Household"]]
  else if String.eqb member "labels_Q.txt" then Ok [["CO2 (Gg)"; "EDGAR"]]
  else if String.eqb member "labels_VA.txt"
  then Ok [["Primary Inputs"; "Compensation of employees"]]
  else Raise KeyError.

(** The same archive without the labels of the value added. *)
Definition short_labels (member : string) : res (list (list string)) :=
  if String.eqb member "labels_VA.txt" then Raise KeyError
  else small_labels member.

(** [parse_eora26] on an archive given by its members; the stressor labels
    are left as they are. *)
Definition parse_archive (numbers : string -> res (list (list fl)))
    (labels : string -> res (list (list string))) (path : string)
  : io iosystem :=
  parse_eora26 (fun _ => []) (fun _ => true)
    (fun _ => numbers) (fun _ => labels)
    (fun _ => Raise FileNotFoundError) (fun _ => Raise FileNotFoundError)
    (fun s => s) (fun s => s) path "" "bp" "eora".

End Eora.

(** ** parse_wiod *)

Module Wiod.

Import PyStr Frame Meta Io.
Local Open Scope string_scope.

(** *** Cells and strings *)

(** A cell of a workbook read with [header=None]: text, or a float (an empty
    cell is NaN). *)
Inductive cell : Type :=
  | Txt (s : string)
  | Numb (x : fl).

Definition nan : cell := Numb NaN.

Definition fl_eqb (x y : fl) : bool :=
  match x, y with
  | Fin a, Fin b => if Qc_eq_dec a b then true else false
  | PInf, PInf | NInf, NInf | NaN, NaN => true
  | _, _ => false
  end.

(** Equality of labels (an index takes two NaN for the same label). *)
Definition cell_eqb (a b : cell) : bool :=
  match a, b with
  | Txt s, Txt t => String.eqb s t
  | Numb x, Numb y => fl_eqb x y
  | _, _ => false
  end.

(** [c == s] for a string [s] *)
Definition is_text (s : string) (c : cell) : bool :=
  match c with
  | Txt t => String.eqb t s
  | Numb _ => false
  end.

Definition is_nan (c : cell) : bool :=
  match c with
  | Numb NaN => true
  | _ => false
  end.

Definition key : Type := (cell * cell)%type.

Definition grid : Type := list (list cell).

Definition upper_ascii (c : ascii) : ascii :=
  let n := nat_of_ascii c in
  if ((97 <=? n) && (n <=? 122))%nat then ascii_of_nat (n - 32) else c.

Fixpoint upper (s : string) : string :=
  match s with
  | EmptyString => EmptyString
  | String c s' => String (upper_ascii c) (upper s')
  end.

Fixpoint any_char (p : ascii -> bool) (s : string) : bool :=
  match s with
  | EmptyString => false
  | String c s' => p c || any_char p s'
  end.

Definition is_lower_char (c : ascii) : bool :=
  negb (Ascii.eqb (upper_ascii c) c).

Definition is_upper_char (c : ascii) : bool :=
  negb (Ascii.eqb (lower_ascii c) c).

(** [s.islower()] and [s.isupper()], on ASCII *)
Definition islower (s : string) : bool :=
  any_char is_lower_char s && negb (any_char is_upper_char s).

Definition isupper (s : string) : bool :=
  any_char is_upper_char s && negb (any_char is_lower_char s).

(** [s.replace(old, new)] for a non-empty [old]; [skip] counts the characters
    of a match still to be passed over. *)
Fixpoint replace_from (skip : nat) (old new s : string) : string :=
  match s with
  | EmptyString => EmptyString
  | String c s' =>
      match skip with
      | S k => replace_from k old new s'
      | O =>
          if startswith old s
          then new ++ replace_from (String.length old - 1) old new s'
          else String c (replace_from 0 old new s')
      end
  end.

Definition replace (old new s : string) : string := replace_from 0 old new s.

(** [s.lstrip(c)] and [s.rstrip(c)] for one character *)
Fixpoint lstrip (c : ascii) (s : string) : string :=
  match s with
  | EmptyString => EmptyString
  | String a s' => if Ascii.eqb a c then lstrip c s' else s
  end.

Fixpoint rstrip (c : ascii) (s : string) : string :=
  match s with
  | EmptyString => EmptyString
  | String a s' =>
      match rstrip c s' with
      | EmptyString => if Ascii.eqb a c then EmptyString
                       else String a EmptyString
      | r => String a r
      end
  end.

(** [s[-4:]] *)
Definition last_four (s : string) : string := drop (String.length s - 4) s.

(** [Series.to_dict()] read at a key: the last row with that index wins. *)
Definition to_dict_get (rows : list (string * string)) (k : string)
  : option string :=
  option_map snd (find (fun kv => String.eqb (fst kv) k) (rev rows)).

(** First occurrences, in order. *)
Fixpoint unique_cells (l : list cell) : list cell :=
  match l with
  | [] => []
  | x :: l' => x :: filter (fun y => negb (cell_eqb y x)) (unique_cells l')
  end.

Fixpoint map_res {A B : Type} (f : A -> res B) (l : list A) : res (list B) :=
  match l with
  | [] => Ok []
  | a :: l' =>
      b <- f a ;;
      bs <- map_res f l' ;;
      Ok (b :: bs)
  end.

(** [l[i] = f(l[i])] *)
Fixpoint update_nth {A : Type} (i : nat) (f : A -> A) (l : list A) : list A :=
  match l, i with
  | [], _ => []
  | a :: l', O => f a :: l'
  | a :: l', S i' => a :: update_nth i' f l'
  end.

(** *** The structure of the wiot file *)

Definition wiot_meta_col : nat := 0.
Definition wiot_meta_year : nat := 0.
Definition wiot_meta_iosystem : nat := 2.
Definition wiot_meta_unit : nat := 3.
Definition wiot_meta_end_row : nat := 4.

Definition wiot_header_code : nat := 0.
Definition wiot_header_sector_names : nat := 1.
Definition wiot_header_region : nat := 2.
Definition wiot_header_c_code : nat := 3.

(** max(index_wiot_headers) + 1 *)
Definition header_size : nat := 4.

Definition last_interindsec : string := "c35".
Definition tot_facinp : list string := ["r60"; "r69"].

Definition ncols (g : grid) : nat := length (hd [] g).

(** [g.iloc[i, j]] *)
Definition iloc (g : grid) (i j : nat) : res cell :=
  match nth_error g i with
  | None => Raise IndexError
  | Some row =>
      match nth_error row j with
      | None => Raise IndexError
      | Some c => Ok c
      end
  end.

(** The positions of the rows that satisfy [p]. *)
Definition rows_where (p : list cell -> bool) (g : grid) : list nat :=
  map fst (filter (fun ir => p (snd ir)) (combine (List.seq 0 (length g)) g)).

(** [idx[-1]] *)
Definition last_label (idx : list nat) : res nat :=
  match rev idx with
  | [] => Raise IndexError
  | i :: _ => Ok i
  end.

(** wiot_data[wiot_data.iloc[:, 3] == 'c35'].index[-1]: the column is taken by
    position. *)
Definition _lastZcol (wiot_data : grid) : res nat :=
  if (ncols wiot_data <=? wiot_header_c_code)%nat then Raise IndexError
  else last_label
         (rows_where (fun row => is_text last_interindsec
                                   (nth wiot_header_c_code row nan))
                     wiot_data).

(** wiot_data[wiot_data[3] == 'c35'].index[-1]: the column is taken by its
    label, and the columns are labelled by their positions. *)
Definition _lastZrow (wiot_data : grid) : res nat :=
  if (ncols wiot_data <=? wiot_header_c_code)%nat then Raise KeyError
  else last_label
         (rows_where (fun row => is_text last_interindsec
                                   (nth wiot_header_c_code row nan))
                     wiot_data).

Definition not_symmetric : exn :=
  ParserError "Interindustry matrix not symetric in the WIOD source file".

(** if _lastZcol != _lastZrow: raise ParserError(...)
    else: Zshape = (_lastZrow, _lastZcol) *)
Definition Zshape (wiot_data : grid) : res (nat * nat) :=
  c <- _lastZcol wiot_data ;;
  r <- _lastZrow wiot_data ;;
  if negb (Nat.eqb c r) then Raise not_symmetric else Ok (r, c).

(** [Series.str.replace]: what is not a string becomes NaN. *)
Definition str_replace (old new : string) (c : cell) : cell :=
  match c with
  | Txt s => Txt (replace old new s)
  | Numb _ => nan
  end.

(** One row of a lookup table: code, sector_names, region, c_code. *)
Record lookup_row : Type := {
  code : string;
  sector_names : string;
  region : string;
  c_code : string;
}.

Record extension : Type := {
  ext_name : string;
  ext_F : frame cell key;
  ext_F_Y : option (frame cell key);
  ext_unit : list (cell * option cell);
}.

Record iosystem : Type := {
  io_Z : frame key key;
  io_Y : frame key key;
  io_unit : string;
  io_meta : MRIOMetaData;
  io_extensions : list (string * extension);
}.

(** The tables cut out of the wiot sheet. *)
Record wiot_tables : Type := {
  wiot_year : string;
  wiot_iosystem : string;
  wiot_unit : string;
  tab_Z : frame key key;
  tab_Y : frame key key;
  tab_F_fac : frame cell key;
  tab_F_Y_fac : frame cell key;
  wiot_sector_lookup : list lookup_row;
  wiot_fd_lookup : list lookup_row;
}.

(** *** The environmental extensions *)

Record para : Type := {
  para_name : string;
  para_start : string;
  para_ext : string;
  para_unit : list (string * option cell);
}.

Definition para_AIR : para :=
  {| para_name := "Air Emission Accounts"; para_start := "AIR_";
     para_ext := ".xls";
     para_unit := [("CO2", Some (Txt "Gg")); ("CH4", Some (Txt "t"));
                   ("N2O", Some (Txt "t")); ("NOx", Some (Txt "t"));
                   ("SOx", Some (Txt "t")); ("CO", Some (Txt "t"));
                   ("NMVOC", Some (Txt "t")); ("NH3", Some (Txt "t"))] |}.

Definition dl_envext_para : list (string * para) :=
  [("AIR", para_AIR);
   ("CO2", {| para_name := "CO2 emissions - per source"; para_start := "CO2_";
              para_ext := ".xls"; para_unit := [("all", Some (Txt "Gg"))] |});
   ("EM", {| para_name := "Emission relevant energy use"; para_start := "EM_";
             para_ext := ".xls"; para_unit := [("all", Some (Txt "TJ"))] |});
   ("EU", {| para_name := "Gross energy use"; para_start := "EU_";
             para_ext := ".xls"; para_unit := [("all", Some (Txt "TJ"))] |});
   ("lan", {| para_name := "land use"; para_start := "lan_";
              para_ext := ".xls"; para_unit := [("all", None)] |});
   ("mat", {| para_name := "material use"; para_start := "mat_";
              para_ext := ".xls"; para_unit := [("all", None)] |});
   ("wat", {| para_name := "water use"; para_start := "wat_";
              para_ext := ".xls"; para_unit := [("all", None)] |})].

(** A sheet parsed with [header=0]: the column labels and the rows, the
    index turned into columns when it is not numeric. *)
Record sheet : Type := {
  head : list cell;
  body : list (list cell);
}.

(** An Excel file: its sheets by name. *)
Definition workbook : Type := list (string * sheet).

Fixpoint get_sheet (w : workbook) (name : string) : option sheet :=
  match w with
  | [] => None
  | (n, s) :: w' => if String.eqb n name then Some s else get_sheet w' name
  end.

(** The table of one country, transposed: stressors on the rows, sectors on
    the columns, and the household column taken out. *)
Record country_table : Type := {
  stressors : list cell;
  sectors : list cell;
  cells : list (list cell);
  households : list cell;
}.

Record env_extension : Type := {
  env_F : frame cell key;
  env_F_Y : frame cell cell;
  env_unit : list (cell * option cell);
}.

Fixpoint dict_set (d : list (string * option cell)) (k : string)
    (v : option cell) : list (string * option cell) :=
  match d with
  | [] => [(k, v)]
  | (k', v') :: d' =>
      if String.eqb k' k then (k', v) :: d' else (k', v') :: dict_set d' k v
  end.

Fixpoint dict_get (d : list (string * option cell)) (k : string)
    (default : option cell) : option cell :=
  match d with
  | [] => default
  | (k', v) :: d' => if String.eqb k' k then v else dict_get d' k default
  end.

(** A number cell as a float; the tables of numbers hold a text cell, which
    pandas would keep as it is, as NaN. *)
Definition number (c : cell) : fl :=
  match c with
  | Numb x => x
  | Txt _ => NaN
  end.

Section Parser.

(** Python's [str] and [float] between floats and strings. *)
Variable str_of_float : fl -> string.
Variable float_of_str : string -> option fl.

(** The file system: the content of a folder, the members of a zip archive,
    whether an archive can be opened, and the Excel files read from an
    archive and from a folder. *)
Variable listdir : string -> list string.
Variable namelist : string -> list string.
Variable is_zip_archive : string -> bool.
Variable excel_member : string -> string -> res workbook.
Variable excel_file : string -> res workbook.

(** The pair [__get_WIOD_SEA_extension(root_path, year)] returns; the reading
    of the SEA workbook is not modelled. *)
Variable sea_extension :
  string -> string -> option (frame cell key * list (cell * option cell)).

(** [str(c)] *)
Definition to_str (c : cell) : string :=
  match c with
  | Txt s => s
  | Numb x => str_of_float x
  end.

(** [astype('float')] on one cell *)
Definition to_float (c : cell) : res fl :=
  match c with
  | Numb x => Ok x
  | Txt s =>
      match float_of_str s with
      | Some x => Ok x
      | None => Raise ValueError
      end
  end.

Definition astype_float {R C : Type} (index : list R) (columns : list C)
    (rows : list (list cell)) : res (frame R C) :=
  values <- map_res (map_res to_float) rows ;;
  Ok {| Frame.index := index; Frame.columns := columns;
        Frame.values := values |}.

(** The steps on one country sheet. *)
Definition clean_sheet (start : string) (unit : list (string * option cell))
    (df_env : sheet)
  : res (list (string * option cell) * country_table) :=
  first <- match head df_env with
           | [] => Raise IndexError
           | c :: _ => Ok c
           end ;;
  let unit := if negb (is_text "level_0" first)
              then dict_set unit "all" (Some first) else unit in
  df_env <- (if islower start then Ok df_env
             else if isupper start
             then Ok {| head := tl (head df_env);
                        body := map (@tl cell) (body df_env) |}
             else Raise (ParserError "Format of extension not given.")) ;;
  let rows := filter (fun row => negb (forallb is_nan row)) (body df_env) in
  _ <- match head df_env with
       | [] => Raise IndexError
       | _ :: _ => Ok tt
       end ;;
  let rows := filter (fun row => negb (is_text "total" (hd nan row))) rows in
  let rows := filter (fun row => negb (is_text "secTOT" (hd nan row))) rows in
  let rows := filter (fun row => negb (is_text "secQ" (hd nan row))) rows in
  let sector row := Txt (replace "sec" "" (to_str (hd nan row))) in
  let ikc_hh := "FC_HH" in
  let stressor_rows (keep : list cell -> bool) :=
    map (fun i => map (fun row => nth (S i) row nan) (filter keep rows))
        (List.seq 0 (length (tl (head df_env)))) in
  if existsb (fun row => is_text ikc_hh (sector row)) rows then
    Ok (unit,
        {| stressors := tl (head df_env);
           sectors := map sector
                        (filter (fun row => negb (is_text ikc_hh (sector row)))
                                rows);
           cells := stressor_rows
                      (fun row => negb (is_text ikc_hh (sector row)));
           households :=
             map (fun r => hd nan r)
                 (stressor_rows (fun row => is_text ikc_hh (sector row))) |})
  else Raise KeyError.

Definition country_missing (start co : string) : exn :=
  ParserError ("Country data not complete for Extension " ++ start
                 ++ " - missing " ++ co ++ ".").

Definition country_multiple (start co : string) : exn :=
  ParserError ("Multiple country data for Extension " ++ start
                 ++ " - country " ++ co ++ ".").

(** The loop over the countries; [None] is the early [return None] taken when
    a country file has no sheet for the year. *)
Fixpoint read_countries (read : string -> res workbook) (year : string)
    (p : para) (ll_env_content : list string)
    (unit : list (string * option cell)) (ll_co : list cell)
  : res (option (list (string * option cell)
                 * list (cell * country_table))) :=
  match ll_co with
  | [] => Ok (Some (unit, []))
  | co :: ll_co' =>
      ll_pff_read <-
        match ll_env_content with
        | [] => Ok []
        | _ :: _ =>
            match co with
            | Txt name =>
                Ok (filter (fun ff => endswith (para_ext p) ff
                                      && (startswith (upper name) ff
                                          || startswith (lower name) ff))
                           ll_env_content)
            | Numb _ => Raise AttributeError
            end
        end ;;
      match ll_pff_read with
      | [] => Raise (country_missing (para_start p) (to_str co))
      | _ :: _ :: _ => Raise (country_multiple (para_start p) (to_str co))
      | [pff_read] =>
          ff_excel <- read pff_read ;;
          match get_sheet ff_excel year with
          | None => Ok None
          | Some df_env =>
              cleaned <- clean_sheet (para_start p) unit df_env ;;
              let (unit, table) := cleaned in
              rest <- read_countries read year p ll_env_content unit ll_co' ;;
              match rest with
              | None => Ok None
              | Some (unit, tables) => Ok (Some (unit, (co, table) :: tables))
              end
          end
      end
  end.

(** [pd.concat(dl_env, axis=1)[ll_co]] with [fillna(0)]: the stressors met in
    any country, and for each country its own sectors. *)
Definition concat_F (tables : list (cell * country_table)) : frame cell key :=
  let index := unique_cells (flat_map (fun ct => stressors (snd ct)) tables) in
  let row_of (t : country_table) (s : cell) : list fl :=
    match find (fun sr => cell_eqb (fst sr) s)
               (combine (stressors t) (cells t)) with
    | Some (_, r) => map (fun c => Oecd.fillna0 (number c)) r
    | None => map (fun _ => fzero) (sectors t)
    end in
  {| Frame.index := index;
     Frame.columns :=
       flat_map (fun ct => map (fun s => (fst ct, s)) (sectors (snd ct)))
                tables;
     Frame.values :=
       map (fun s => flat_map (fun ct => row_of (snd ct) s) tables) index |}.

Definition concat_F_Y (tables : list (cell * country_table))
  : frame cell cell :=
  let index := unique_cells (flat_map (fun ct => stressors (snd ct)) tables) in
  let value (t : country_table) (s : cell) : fl :=
    match find (fun sr => cell_eqb (fst sr) s)
               (combine (stressors t) (households t)) with
    | Some (_, c) => Oecd.fillna0 (number c)
    | None => fzero
    end in
  {| Frame.index := index;
     Frame.columns := map fst tables;
     Frame.values :=
       map (fun s => map (fun ct => value (snd ct) s) tables) index |}.

Definition several_raw_data (start : string) : exn :=
  ParserError ("Several raw data for extension" ++ start
                 ++ " available - clean extension folder.").

(** [__get_WIOD_env_extension(root_path, year, ll_co, para)]; [None] when the
    extension is not included. *)
Definition __get_WIOD_env_extension (root_path year : string)
    (ll_co : list cell) (p : para) : io (option env_extension) :=
  let ll_root_content :=
    filter (startswith (para_start p)) (listdir root_path) in
  match ll_root_content with
  | [] => ret None
  | _ :: _ :: _ => lift (Raise (several_raw_data (para_start p)))
  | [found] =>
      let pf_env := path_join root_path found in
      ll_env_content <~
        (if endswith ".zip" pf_env then
           _ <~ zip_open is_zip_archive pf_env ;;
           ret (filter (endswith (para_ext p)) (namelist pf_env))
         else
           ret (filter (endswith (para_ext p)) (listdir pf_env))) ;;
      let read pff_read :=
        if endswith ".zip" pf_env then excel_member pf_env pff_read
        else excel_file (path_join pf_env pff_read) in
      read_all <~ lift (read_countries read year p ll_env_content
                                       (para_unit p) ll_co) ;;
      match read_all with
      | None => ret None
      | Some (unit, tables) =>
          let df_F := concat_F tables in
          let df_F_Y := concat_F_Y tables in
          let _ss_unit := dict_get unit "all" (Some (Txt "undef")) in
          let df_unit :=
            map (fun ikr =>
                   (ikr, match ikr with
                         | Txt s => dict_get unit s _ss_unit
                         | Numb _ => _ss_unit
                         end))
                (Frame.index df_F) in
          _ <~ (if endswith ".zip" pf_env then zip_close pf_env
                else ret tt) ;;
          ret (Some {| env_F := df_F; env_F_Y := df_F_Y;
                       env_unit := df_unit |})
      end
  end.

(** *** The wiot sheet *)

(** The cell of the meta column as a string to slice or strip. *)
Definition meta_text (wiot_data : grid) (row : nat) (e : exn) : res string :=
  c <- iloc wiot_data row wiot_meta_col ;;
  match c with
  | Txt s => Ok s
  | Numb _ => Raise e
  end.

Definition lookup_of (c0 c1 c2 c3 : cell) : lookup_row :=
  {| code := to_str c0; sector_names := to_str c1; region := to_str c2;
     c_code := to_str c3 |}.

(** The part of [parse_wiod] on the sheet [wiot_data], read with
    [header=None], up to the factor inputs. *)
Definition cut_tables (wiot_data : grid) : res wiot_tables :=
  (* get meta data *)
  year <- meta_text wiot_data wiot_meta_year TypeError ;;
  let wiot_year := last_four year in
  iosys <- meta_text wiot_data wiot_meta_iosystem AttributeError ;;
  let wiot_iosystem := lstrip "(" (rstrip ")" iosys) in
  unit <- meta_text wiot_data wiot_meta_unit AttributeError ;;
  let _wiot_unit := lstrip "(" (rstrip ")" unit) in
  (* remove meta data, empty rows, total column *)
  let wiot_data :=
    map (fun ir => if (fst ir <? wiot_meta_end_row)%nat
                   then update_nth wiot_meta_col (fun _ => nan) (snd ir)
                   else snd ir)
        (combine (List.seq 0 (length wiot_data)) wiot_data) in
  let wiot_data := skipn 2 wiot_data in
  let wiot_data := map (@removelast cell) wiot_data in
  (* 'ROM' should be 'ROU' *)
  _ <- (if (length wiot_data <=? wiot_header_region)%nat then Raise IndexError
        else Ok tt) ;;
  let wiot_data :=
    update_nth wiot_header_region (map (str_replace "ROM" "ROU")) wiot_data in
  _ <- (if (ncols wiot_data <=? wiot_header_region)%nat then Raise IndexError
        else Ok tt) ;;
  let wiot_data :=
    map (update_nth wiot_header_region (str_replace "ROM" "ROU")) wiot_data in
  (* get the end of the interindustry matrix *)
  shape <- Zshape wiot_data ;;
  let (r, c) := shape in
  (* separate factor input extension *)
  let facinp := skipn (r + 1) wiot_data in
  let facinp :=
    filter (fun row => negb (existsb (fun m => is_text m
                                       (nth wiot_header_c_code row nan))
                                     tot_facinp)) facinp in
  let Z := map (firstn (c + 1)) (firstn (r + 1) wiot_data) in
  let Y := map (skipn (c + 1)) (firstn (r + 1) wiot_data) in
  let F_fac := map (firstn (c + 1)) facinp in
  let F_Y_fac := map (skipn (c + 1)) facinp in
  let Z_ncols := Nat.min (c + 1) (ncols wiot_data) in
  let Y_ncols := (ncols wiot_data - (c + 1))%nat in
  (* the lookups of sectors and final demand categories *)
  let wiot_sector_lookup :=
    map (fun row => lookup_of (nth 0 row nan) (nth 1 row nan)
                              (nth 2 row nan) (nth 3 row nan))
        (filter (fun row => is_text "USA" (nth wiot_header_region row nan))
                wiot_data) in
  _ <- (if (length Y <? header_size)%nat then Raise IndexError else Ok tt) ;;
  let Y_column j := map (fun row => nth j row nan) Y in
  let wiot_fd_lookup :=
    map (fun col => lookup_of (nth 0 col nan) (nth 1 col nan)
                              (nth 2 col nan) (nth 3 col nan))
        (filter (fun col => is_text "USA" (nth wiot_header_region col nan))
                (map Y_column (List.seq 0 Y_ncols))) in
  (* set the index/columns *)
  let Z_index :=
    skipn header_size
      (map (fun row => (nth wiot_header_region row nan,
                        Txt (to_str (nth wiot_header_code row nan)))) Z) in
  let Z_rows := map (skipn header_size) (skipn header_size Z) in
  _ <- (if Nat.eqb (length Z_index) (Z_ncols - header_size) then Ok tt
        else Raise ValueError) ;;
  let Z_columns := Z_index in
  let Y_columns :=
    map (fun col => (nth wiot_header_region col nan,
                     nth wiot_header_c_code col nan))
        (map Y_column (List.seq 0 Y_ncols)) in
  let Y_rows := skipn header_size Y in
  let F_index := map (fun row => nth wiot_header_sector_names row nan) F_fac in
  let F_rows := map (skipn header_size) F_fac in
  (* convert from object to float *)
  Z <- astype_float Z_index Z_columns Z_rows ;;
  Y <- astype_float Z_index Y_columns Y_rows ;;
  F_fac <- astype_float F_index Z_columns F_rows ;;
  F_Y_fac <- astype_float F_index Y_columns F_Y_fac ;;
  (* save the units: Z.iloc[:, 0] *)
  _ <- match Z_columns with
       | [] => Raise IndexError
       | _ :: _ => Ok tt
       end ;;
  Ok {| wiot_year := wiot_year; wiot_iosystem := wiot_iosystem;
        wiot_unit := _wiot_unit;
        tab_Z := Z; tab_Y := Y; tab_F_fac := F_fac; tab_F_Y_fac := F_Y_fac;
        wiot_sector_lookup := wiot_sector_lookup;
        wiot_fd_lookup := wiot_fd_lookup |}.

(** The loop over [dl_envext_para]. *)
Fixpoint env_extensions (root_path year : string) (ll_countries : list cell)
    (paras : list (string * para))
    (st : MRIOMetaData * list (string * extension))
  : io (MRIOMetaData * list (string * extension)) :=
  match paras with
  | [] => ret st
  | (ik_ext, p) :: paras' =>
      _dl_ex <~ __get_WIOD_env_extension root_path year ll_countries p ;;
      match _dl_ex with
      | None => env_extensions root_path year ll_countries paras' st
      | Some ex =>
          let (meta_rec, ext) := st in
          env_extensions root_path year ll_countries paras'
            (_add_fileio meta_rec
               ("Extension " ++ ik_ext ++ " parsed from " ++ root_path),
             (ext ++ [(ik_ext,
                       {| ext_name := para_name p;
                          ext_F := env_F ex;
                          ext_F_Y := None;
                          ext_unit := env_unit ex |})])%list)
      end
  end.

(** [frame.rename(...)] with a dict: a label of either level that is a key
    of the dict is replaced. *)
Definition rename_cell (dd : list (string * string)) (c : cell) : cell :=
  match c with
  | Txt s =>
      match to_dict_get dd s with
      | Some v => Txt v
      | None => c
      end
  | Numb _ => c
  end.

Definition rename_key (dd : list (string * string)) (k : key) : key :=
  (rename_cell dd (fst k), rename_cell dd (snd k)).

Definition rename_columns {R : Type} (dd : list (string * string))
    (f : frame R key) : frame R key :=
  {| Frame.index := Frame.index f;
     Frame.columns := map (rename_key dd) (Frame.columns f);
     Frame.values := Frame.values f |}.

Definition rename_index {C : Type} (dd : list (string * string))
    (f : frame key C) : frame key C :=
  {| Frame.index := map (rename_key dd) (Frame.index f);
     Frame.columns := Frame.columns f;
     Frame.values := Frame.values f |}.

(** [w[0].lower()] *)
Definition first_lower (w : string) : res ascii :=
  match String.get 0 w with
  | Some c => Ok (lower_ascii c)
  | None => Raise IndexError
  end.

(** [parse_wiod] from the point where the file to read is known: [root_path]
    is its folder, [wiot_file] its name and [wiot_data] its first sheet read
    with [header=None]; [names] is the pair of naming schemes.  The F_Y of an
    environmental extension (the household column placed under the final
    demand category c37) is not modelled. *)
Definition parse_wiod (root_path wiot_file : string) (wiot_data : grid)
    (names : string * string) : io iosystem :=
  let meta_rec := Meta.new (Some root_path) None None None None in
  let meta_rec :=
    _add_fileio meta_rec ("WIOD data parsed from " ++ wiot_file) in
  t <~ lift (cut_tables wiot_data) ;;
  let meta_rec := change_system meta_rec (wiot_iosystem t) in
  let Z := tab_Z t in
  let Y := tab_Y t in
  let F_fac := tab_F_fac t in
  let F_Y_fac := tab_F_Y_fac t in
  let F_fac_unit :=
    map (fun i => (i, Some (Txt (wiot_unit t)))) (Frame.index F_fac) in
  let ll_countries := unique_cells (map fst (Frame.index Z)) in
  (* Finalize the factor inputs extension *)
  let ext :=
    [("factor_inputs",
      {| ext_name := "factor input"; ext_F := F_fac;
         ext_F_Y := Some F_Y_fac; ext_unit := F_fac_unit |})] in
  (* SEA extension *)
  let (meta_rec, ext) :=
    match sea_extension root_path (wiot_year t) with
    | Some (_F_sea_data, _F_sea_unit) =>
        let _F_Y_sea :=
          {| Frame.index := Frame.index _F_sea_data;
             Frame.columns := Frame.columns F_Y_fac;
             Frame.values :=
               map (fun _ => map (fun _ => fzero) (Frame.columns F_Y_fac))
                   (Frame.index _F_sea_data) |} in
        (_add_fileio meta_rec
           ("SEA file extension parsed from " ++ root_path),
         (ext ++ [("SEA",
                   {| ext_name := "SEA"; ext_F := _F_sea_data;
                      ext_F_Y := Some _F_Y_sea;
                      ext_unit := _F_sea_unit |})])%list)
    | None => (meta_rec, ext)
    end in
  (* Environmental extensions *)
  st <~ env_extensions root_path (wiot_year t) ll_countries dl_envext_para
          (meta_rec, ext) ;;
  let (meta_rec, ext) := st in
  (* Replace sector/final demand category names *)
  lift (
    n0 <- first_lower (fst names) ;;
    n1 <- first_lower (snd names) ;;
    let lookup_dict (field key_of : lookup_row -> string)
           (rows : list lookup_row) :=
      map (fun row => (key_of row, field row)) rows in
    let dd_sec_rename :=
      lookup_dict
        (if Ascii.eqb n0 "c" then c_code
         else if Ascii.eqb n0 "i" then code
         else if Ascii.eqb n0 "f" then sector_names
         else code)
        code (wiot_sector_lookup t) in
    dd_fd_rename <-
      (if Ascii.eqb n1 "c"
       then Ok (lookup_dict c_code c_code (wiot_fd_lookup t))
       else if Ascii.eqb n1 "i"
       then Ok (lookup_dict c_code c_code (wiot_fd_lookup t))
       else if Ascii.eqb n1 "f"
       then Ok (lookup_dict sector_names c_code (wiot_fd_lookup t))
       else Raise NameError) ;;
    Ok {| io_Z := rename_index dd_sec_rename (rename_columns dd_sec_rename Z);
          io_Y := rename_index dd_sec_rename (rename_columns dd_fd_rename Y);
          io_unit := wiot_unit t;
          io_meta := meta_rec;
          io_extensions :=
            map (fun ne =>
                   (fst ne,
                    {| ext_name := ext_name (snd ne);
                       ext_F := rename_columns dd_sec_rename (ext_F (snd ne));
                       ext_F_Y := option_map (rename_columns dd_fd_rename)
                                             (ext_F_Y (snd ne));
                       ext_unit := ext_unit (snd ne) |}))
                ext |}).

End Parser.

(** *** Small inputs *)

Definition num (k : nat) : cell := Numb (Fin (Q2Qc (inject_Z (Z.of_nat k)))).

(** A wiot sheet of one region with two sectors and one final demand
    category: two top rows, four header rows and four header columns, the
    two rows of the sectors, two rows of factor inputs (the first a total),
    and the column of totals at the end. *)
Definition small_wiot (title : string) : grid :=
  [ [Txt title; nan; nan; nan; nan; nan; nan; nan];
    [nan; nan; nan; nan; nan; nan; nan; nan];
    [Txt "(industry-by-industry)"; nan; nan; nan;
     Txt "AtB"; Txt "C"; Txt "CONS_h"; nan];
    [Txt "(millions of US$)"; nan; nan; nan;
     Txt "Agriculture"; Txt "Mining"; Txt "Households"; nan];
    [nan; nan; nan; nan; Txt "USA"; Txt "USA"; Txt "USA"; Txt "TOT"];
    [nan; nan; nan; nan; Txt "c1"; Txt "c35"; Txt "c37"; Txt "c99"];
    [Txt "AtB"; Txt "Agriculture"; Txt "USA"; Txt "c1";
     num 1; num 2; num 3; num 6];
    [Txt "C"; Txt "Mining"; Txt "USA"; Txt "c35";
     num 4; num 5; num 6; num 15];
    [Txt "r60"; Txt "Total"; Txt "TOT"; Txt "r60";
     num 5; num 7; num 9; num 21];
    [Txt "r64"; Txt "Value added"; Txt "TOT"; Txt "r64";
     num 7; num 8; num 0; num 15] ].

(** The same with a third column of intermediate use: the header row of the
    c_codes has c35 on the third of them, while the column of the c_codes
    has it on the second row of sectors.  The block of the sectors has two
    rows and three columns. *)
Definition nonsquare_wiot : grid :=
  [ [Txt "Input-Output Table for 2009"; nan; nan; nan; nan; nan; nan; nan; nan];
    [nan; nan; nan; nan; nan; nan; nan; nan; nan];
    [Txt "(industry-by-industry)"; nan; nan; nan;
     Txt "AtB"; Txt "C"; Txt "D"; Txt "CONS_h"; nan];
    [Txt "(millions of US$)"; nan; nan; nan;
     Txt "Agriculture"; Txt "Mining"; Txt "Manufacturing"; Txt "Households";
     nan];
    [nan; nan; nan; nan; Txt "USA"; Txt "USA"; Txt "USA"; Txt "USA"; Txt "TOT"];
    [nan; nan; nan; nan; Txt "c1"; Txt "c2"; Txt "c35"; Txt "c37"; Txt "c99"];
    [Txt "AtB"; Txt "Agriculture"; Txt "USA"; Txt "c1";
     num 1; num 2; num 3; num 4; num 10];
    [Txt "C"; Txt "Mining"; Txt "USA"; Txt "c35";
     num 5; num 6; num 7; num 8; num 26];
    [Txt "r60"; Txt "Total"; Txt "TOT"; Txt "r60";
     num 6; num 8; num 10; num 12; num 36];
    [Txt "r64"; Txt "Value added"; Txt "TOT"; Txt "r64";
     num 9; num 9; num 9; num 0; num 27] ].

(** A root folder with the wiot file and the archive of the air emission
    accounts, which holds one workbook, for the USA, with one sheet, for
    2009, listing the given sectors. *)
Definition small_listdir (path : string) : list string :=
  if String.eqb path "/wiod" then ["AIR_may12.zip"; "wiot09_row_sep12.xlsx"]
  else [].

Definition small_namelist (archive : string) : list string :=
  ["USA_AIR_May12.xls"].

Definition air_workbook (sectors : list string) : workbook :=
  [("2009", {| head := [Txt "level_0"; Txt "sector"; Txt "CO2"; Txt "CH4"];
               body := map (fun s => [nan; Txt s; num 1; num 2]) sectors |})].

(** [__get_WIOD_env_extension] for the air emission accounts of the USA in
    that folder. *)
Definition air_extension (sectors : list string) (year : string)
  : io (option env_extension) :=
  __get_WIOD_env_extension (fun _ => "nan") small_listdir small_namelist
    (fun _ => true) (fun _ _ => Ok (air_workbook sectors))
    (fun _ => Raise FileNotFoundError) "/wiod" year [Txt "USA"] para_AIR.

(** [parse_wiod] on a sheet in that folder, without a SEA file.  No cell of
    these sheets but NaN is turned into a string, and none of their strings
    into a float. *)
Definition parse_small (sectors : list string) (wiot_data : grid)
  : io iosystem :=
  parse_wiod (fun _ => "nan") (fun _ => None) small_listdir small_namelist
    (fun _ => true) (fun _ _ => Ok (air_workbook sectors))
    (fun _ => Raise FileNotFoundError) (fun _ _ => None)
    "/wiod" "/wiod/wiot09_row_sep12.xlsx" wiot_data ("isic", "isic").

End Wiod.

(** ** Locating the source files of the OECD and WIOD parsers *)

Module Paths.

Import PyStr.
Local Open Scope string_scope.

(** [s.rfind(c)] *)
Fixpoint rfind (c : ascii) (s : string) : option nat :=
  match s with
  | EmptyString => None
  | String a s' =>
      match rfind c s' with
      | Some i => Some (S i)
      | None => if Ascii.eqb a c then Some 0 else None
      end
  end.

(** [os.path.splitext(p)] on POSIX paths: the extension starts at the last
    dot of the last component, unless only dots come before it there. *)
Definition splitext (p : string) : string * string :=
  let start := match rfind "/" p with Some i => S i | None => 0 end in
  match rfind "." p with
  | None => (p, "")
  | Some d =>
      if (start <=? d)%nat
         && negb (Eora.all_dots (String.substring start (d - start) p))
      then (String.substring 0 d p,
            String.substring d (String.length p - d) p)
      else (p, "")
  end.

(** [not year], for a year parameter that is [None] or the string [str(year)]
    of what was given (the number zero, which Python also takes for false, is
    given as [None]). *)
Definition not_year (year : option string) : bool :=
  match year with
  | None => true
  | Some s => String.eqb s ""
  end.

(** [str(year)] *)
Definition str (year : option string) : string :=
  match year with
  | None => "None"
  | Some s => s
  end.

(** [s[-2:]] *)
Definition last_two (s : string) : string := drop (String.length s - 2) s.

Definition quote : string := String (ascii_of_nat 34) EmptyString.

End Paths.

Module OecdFiles.

Import PyStr Frame Paths.
Local Open Scope string_scope.

Definition oecd_file_starts : list string := ["ICIO2016_"; "ICIO2018_"].

Definition no_year : exn :=
  ParserError
    "No year specified (either specify a specific file or path and year)".

Definition multiple_files : exn :=
  ParserError
    ("Multiple files for a given year found (specify a specific file in the parameter "
       ++ quote ++ "path" ++ quote ++ ")").

(** The condition of the list comprehension over the folder. *)
Definition is_data_file (year fl : string) : bool :=
  mem (snd (splitext fl)) [".csv"; ".CSV"; ".zip"]
  && mem (fst (splitext fl)) (map (fun oo => oo ++ year) oecd_file_starts).

Section Files.

(** The file system, and [pd.read_csv(oecd_file, sep=',', index_col=0)]. *)
Variable isdir : string -> bool.
Variable listdir : string -> list string.
Variable read_csv : string -> res (frame string string).

(** The first part of [parse_oecd], for a normalised absolute [path]: the
    file to read and the folder it is in. *)
Definition locate_oecd (path : string) (year : option string)
  : res (string * string) :=
  if negb (isdir path) then
    (* 1. case - one file specified in path *)
    Ok (path, Eora.dirname path)
  else
    (* 2. case: dir given *)
    if not_year year then Raise no_year
    else
      let oecd_file_list :=
        filter (is_data_file (str year)) (listdir path) in
      _ <- (if (1 <? length oecd_file_list)%nat then
              let unique_file_data :=
                unique (map (fun fl => fst (splitext fl)) oecd_file_list) in
              if (1 <? length unique_file_data)%nat then Raise multiple_files
              else Ok tt
            else if (length oecd_file_list =? 0)%nat then Raise FileNotFoundError
            else Ok tt) ;;
      match oecd_file_list with
      | [] => Raise IndexError
      | fl :: _ => Ok (path_join path fl, path)
      end.

(** [parse_oecd(path, year)] *)
Definition parse_oecd (path : string) (year : option string)
  : res Oecd.iosystem :=
  located <- locate_oecd path year ;;
  let (oecd_file, path) := located in
  csv <- read_csv oecd_file ;;
  Oecd.parse_oecd path oecd_file (Eora.basename oecd_file) csv.

End Files.

(** A folder with the table of 2011 in two formats and that of 2012 in two
    editions. *)
Definition small_folder (path : string) : list string :=
  if String.eqb path "/oecd"
  then ["ICIO2018_2011.zip"; "ReadMe.txt"; "ICIO2018_2011.csv";
        "ICIO2016_2012.csv"; "ICIO2018_2012.csv"]
  else [].

Definition parse_small (year : string) : res Oecd.iosystem :=
  parse_oecd (fun p => String.eqb p "/oecd") small_folder
    (fun _ => Ok Oecd.small_csv) "/oecd" (Some year).

End OecdFiles.

Module WiodFiles.

Import PyStr Frame Paths.
Local Open Scope string_scope.

Definition no_year : exn :=
  ParserError
    "No year specified (either specify a specific file or a path and year)".

Definition not_one_file : exn :=
  ParserError
    "Multiple files for a given year or file not found (specify a specific file in paramters)".

Definition not_found : exn :=
  ParserError "WIOD file not found in the specified folder.".

(** The condition of the list comprehension over the folder. *)
Definition is_wiot_file (year_two_digit fl : string) : bool :=
  String.eqb (String.substring 0 6 fl) ("wiot" ++ year_two_digit)
  && String.eqb (snd (splitext fl)) ".xlsx".

Section Files.

Variable isdir : string -> bool.
Variable isfile : string -> bool.
Variable exists_ : string -> bool.
Variable listdir : string -> list string.

(** The first part of [parse_wiod], for a normalised absolute [path]: the
    file to read and [root_path]. *)
Definition locate_wiot (path : string) (year : option string)
  : res (string * string) :=
  wiot_file <-
    (if negb (isdir path) then
       (* 1. case - one file specified in path *)
       if isfile path then Ok path
       else (* just in case the ending was forgotten *)
         Ok (path ++ ".xlsx")
     else
       (* 2. case: directory given *)
       if not_year year then Raise no_year
       else
         let year_two_digit := last_two (str year) in
         match filter (is_wiot_file year_two_digit) (listdir path) with
         | [fl] => Ok (path_join path fl)
         | _ => Raise not_one_file
         end) ;;
  let root_path := Eora.dirname wiot_file in
  if exists_ wiot_file then Ok (wiot_file, root_path)
  else Raise not_found.

End Files.

(** A folder with the tables of two years. *)
Definition small_folder (path : string) : list string :=
  if String.eqb path "/wiod"
  then ["AIR_may12.zip"; "wiot09_row_sep12.xlsx"; "wiot10_row_sep12.xlsx";
        "wiot09_row_sep12.xlsx.bak"]
  else [].

Definition locate_small (year : string) : res (string * string) :=
  locate_wiot (fun p => String.eqb p "/wiod")
    (fun p => String.eqb (Eora.dirname p) "/wiod")
    (fun p => String.eqb p "/wiod" || String.eqb (Eora.dirname p) "/wiod")
    small_folder "/wiod" (Some year).

End WiodFiles.

(** ** cecilia_parser: the files read *)

Module CeciliaFiles.

Import PyStr Np Io.
Local Open Scope string_scope.

(** A step, as [cecilia_parser] and [load_system] take it: a number or a
    string such as '2a'. *)
Inductive step : Type :=
| IntStep (z : Z)
| StrStep (s : string).

Definition step_eqb (a b : step) : bool :=
  match a, b with
  | IntStep x, IntStep y => Z.eqb x y
  | StrStep s, StrStep t => String.eqb s t
  | _, _ => false
  end.

(** [str(z)] *)
Definition str_of_Z (z : Z) : string :=
  DecimalString.NilZero.string_of_int (Z.to_int z).

(** [int(c)] for a string of one character *)
Definition int_of_char (c : ascii) : res Z :=
  if Oecd.is_digit c then Ok (Z.of_nat (nat_of_ascii c) - 48)%Z
  else Raise ValueError.

(** The steps of the loop of [cecilia_parser]. *)
Definition all_steps : list step :=
  [IntStep (-1); IntStep 0; IntStep 1; StrStep "2a"; StrStep "2b"; IntStep 3].

Section Parser.

(** The root folder, as given: the names of the files are appended to it. *)
Variable path : string.

(** [np.loadtxt] on a file, with the arguments the code gives for it. *)
Variable loadtxt : string -> res matrix.

(** The dict [load_extensions()] returns, and the system [load_system]
    builds; the state of a computation is the list of the files read by
    [load_matrix] so far. *)
Variable extensions : Type.
Variable iosystem : Type.
Variable load_extensions : io extensions.

Variable linalg_inv : matrix -> res matrix.

(** The end of [load_system]: the materials extension updated in the dict,
    the labelled tables, the metadata and the system. *)
Variable build :
  step -> string -> Cecilia.iosystem -> vector -> extensions ->
  res (iosystem * extensions).

Definition read (file : string) : io matrix :=
  fun files => (loadtxt file, (files ++ [file])%list).

(** [load_matrix(matrix, step, system)] *)
Definition load_matrix (matrix : string) (st : step) : io Np.matrix :=
  numbered <~
    lift (match st with
          | StrStep s =>
              match String.get 0 s with
              | Some c => step_num <- int_of_char c ;; Ok (step_num, s)
              | None => Raise IndexError
              end
          | IntStep z => Ok (z, str_of_Z z)
          end) ;;
  let (step_num, step_str) := numbered in
  let step_str := if (step_num <=? 0)%Z then "preprocess/" else step_str in
  if (step_num =? -1)%Z then
    if String.eqb matrix "U"
    then read (path ++ "preprocess/mrUseAggregated.txt")
    else if String.eqb matrix "V"
    then read (path ++ "preprocess/mrSupplyAggregated.txt")
    else if String.eqb matrix "Y"
    then read (path ++ "preprocess/mrFinalDemandAggregated.txt")
    else lift (Raise NameError)
  else if (step_num =? 0)%Z then
    read (path ++ step_str ++ matrix ++ ".txt")
  else
    read (path ++ "step" ++ step_str ++ "/" ++ matrix ++ "end.txt").

(** [y.sum(axis=1) + Z.sum(axis=1)] for the tables of the step -1. *)
Definition initial_output (S U y : matrix) (system : string) : res vector :=
  oZ <- Cecilia.IOT_from_SUT S U system ;;
  Z <- match oZ with Some Z => Ok Z | None => Raise AttributeError end ;;
  vadd (sum_axis1 y) (sum_axis1 Z).

(** [load_system(step, system, x_init)], with the dict of the extensions. *)
Definition load_system (st : step) (system : string) (x_init : option vector)
    (ext : extensions) : io (iosystem * extensions) :=
  S <~ load_matrix "V" st ;;
  U <~ load_matrix "U" st ;;
  y <~ load_matrix "Y" st ;;
  numbers <~ lift (Cecilia.load_system linalg_inv S U y system) ;;
  x_init <~
    (if step_eqb st (IntStep (-1)) then ret (Cecilia.sys_x numbers)
     else match x_init with
          | Some x => ret x
          | None =>
              S_init <~ load_matrix "V" (IntStep (-1)) ;;
              U_init <~ load_matrix "U" (IntStep (-1)) ;;
              y_init <~ load_matrix "Y" (IntStep (-1)) ;;
              lift (initial_output S_init U_init y_init system)
          end) ;;
  lift (build st system numbers x_init ext).

(** The loop [for step in [-1, 0, 1, '2a', '2b', 3]], which hands the
    [x_init] it was given to every call. *)
Fixpoint load_all (steps : list step) (system : string)
    (x_init : option vector) (ext : extensions)
    (cecilias : list (step * iosystem)) : io (list (step * iosystem)) :=
  match steps with
  | [] => ret cecilias
  | st :: steps' =>
      loaded <~ load_system st system x_init ext ;;
      let (sys, ext) := loaded in
      load_all steps' system x_init ext (cecilias ++ [(st, sys)])%list
  end.

(** [cecilia_parser(path, step, system)].  After the loop [step] is 3, so
    the assignment of [x_init] that follows it is never made; with a step
    given the function ends without a return statement. *)
Definition cecilia_parser (st : option step) (system : string)
  : io (option (list (step * iosystem))) :=
  let x_init : option vector := None in
  ext <~ load_extensions ;;
  match st with
  | None =>
      cecilias <~ load_all all_steps system x_init ext [] ;;
      ret (Some cecilias)
  | Some _ => ret None
  end.

End Parser.

(** The files of the aggregated tables (the step -1), those of a step in its
    folder, and the files of a whole run, below the root folder and in the
    order V, U, Y. *)
Definition aggregated_files : list string :=
  ["preprocess/mrSupplyAggregated.txt"; "preprocess/mrUseAggregated.txt";
   "preprocess/mrFinalDemandAggregated.txt"].

Definition files_of_step (folder ending : string) : list string :=
  [folder ++ "V" ++ ending; folder ++ "U" ++ ending; folder ++ "Y" ++ ending].

Definition full_run_files : list string :=
  (aggregated_files
   ++ files_of_step "preprocess/" ".txt" ++ aggregated_files
   ++ files_of_step "step1/" "end.txt" ++ aggregated_files
   ++ files_of_step "step2a/" "end.txt" ++ aggregated_files
   ++ files_of_step "step2b/" "end.txt" ++ aggregated_files
   ++ files_of_step "step3/" "end.txt" ++ aggregated_files)%list.

(** A run on arrays of two sectors, the files of a kind of table holding the
    same array. *)
Definition small_run (st : option step)
  : res (option (list (step * Cecilia.iosystem))) * list string :=
  cecilia_parser "/cecilia/"
    (fun file =>
       if endswith "Y.txt" file || endswith "Yend.txt" file
          || endswith "mrFinalDemandAggregated.txt" file
       then Ok [[fone]; [fone]]
       else if endswith "U.txt" file || endswith "Uend.txt" file
               || endswith "mrUseAggregated.txt" file
       then Ok [[fzero; fone]; [fzero; fzero]]
       else Ok [[fone; fzero]; [fzero; fone]])
    (ret tt) Linalg.inv (fun _ _ numbers _ ext => Ok (numbers, ext))
    st "pxp" [].

End CeciliaFiles.

(** ** What the log of parse_eora26 holds *)

Module Provenance.

Import PyStr Frame Meta Eora.
Local Open Scope string_scope.




(** A table without the columns, and without the rows, of the region
    [row_name]; a table that has none is left as it is. *)
Definition drop_columns (row_name : string) (f : frame label label)
  : frame label label :=
  if existsb (is_row row_name) (columns f)
  then filter_cols (fun l => negb (is_row row_name l)) f
  else f.

Definition drop_rows (row_name : string) (f : frame label label)
  : frame label label :=
  if existsb (is_row row_name) (index f)
  then filter_rows (fun l => negb (is_row row_name l)) f
  else f.

Definition cleaned (row_name : string) (f : frame label label)
  : frame label label :=
  drop_rows row_name (drop_columns row_name f).


End Provenance.

(** ** The cells of the OECD table after the aggregation of sub-regions *)

Module OecdCells.

Import PyStr Frame Oecd.
Local Open Scope string_scope.

Definition key_eqb (a b : key) : bool :=
  String.eqb (fst a) (fst b) && String.eqb (snd a) (snd b).

(** The value filed under the label [k], the first one if there are
    several. *)
Fixpoint lookup {V : Type} (k : key) (l : list (key * V)) : option V :=
  match l with
  | [] => None
  | (k', v) :: l' => if key_eqb k' k then Some v else lookup k l'
  end.

(** The cell of a row under the column label [c] (0 without such a
    column). *)
Definition cell_of (cols : list key) (row : list fl) (c : key) : fl :=
  match lookup c (combine cols row) with
  | Some x => x
  | None => fzero
  end.

(** [f.loc[r, c]], for labels met once: the cell of row [r] and column
    [c]. *)
Definition cell (f : frame key key) (r c : key) : fl :=
  match lookup r (combine (index f) (values f)) with
  | Some row => cell_of (columns f) row c
  | None => fzero
  end.

(** The label [k'] belongs to a sub-region of [agg_list] and has the sector
    of [k]. *)
Definition is_member (agg_list : list string) (k k' : key) : bool :=
  mem (region k') agg_list && String.eqb (sector k') (sector k).

(** The value under the label [k] once the sub-regions are summed into
    [co_name] along an axis labelled [labels], [get] giving the values
    before: a label of another region keeps its value; a label of [co_name]
    gets its value plus the sum, NaN skipped, of the values of the
    sub-regions under its sector, or NaN when no sub-region has that
    sector. *)
Definition merged (co_name : string) (agg_list : list string)
    (labels : list key) (get : key -> fl) (k : key) : fl :=
  if String.eqb (region k) co_name then
    match filter (is_member agg_list k) labels with
    | [] => NaN
    | ms => fadd (get k) (nansum (map get ms))
    end
  else get k.

(** [Z'] is [Z] with the sub-regions of [agg_list] summed into [co_name] by
    sector, first along the rows, then along the columns of the table so
    obtained, and dropped from both axes. *)
Definition merges (co_name : string) (agg_list : list string)
    (Z Z' : frame key key) : Prop :=
  index Z' = filter (fun k => negb (mem (region k) agg_list)) (index Z) /\
  columns Z' = filter (fun k => negb (mem (region k) agg_list)) (columns Z) /\
  forall r c, In r (index Z') -> In c (columns Z') ->
    cell Z' r c =
    merged co_name agg_list (columns Z)
      (fun c' => merged co_name agg_list (index Z)
                   (fun r' => cell Z r' c') r)
      c.

(** One turn of the loop over the targets: nothing changes when [co_name] is
    not a region of the table or has no sub-region. *)
Definition turn (core_co_names : list string) (co_name : string)
    (agg_list : list string) (Z Z' : frame key key) : Prop :=
  if negb (mem co_name core_co_names) || (length agg_list =? 0)%nat
  then Z' = Z
  else merges co_name agg_list Z Z'.

(** China with one sector, and a sub-region with that sector and one
    more. *)
Definition uneven_sectors : tables :=
  let keys := [("CHN", "A"); ("CN1", "A"); ("CN1", "B")] in
  {| tab_Z := {| index := keys; columns := keys;
                 values := [[fone; fone; fone]; [fone; fone; fone];
                            [fone; fone; fone]] |};
     tab_Y := {| index := keys; columns := [("CHN", "HFCE")];
                 values := [[fone]; [fone]; [fone]] |};
     tab_F := {| index := ["VALU"]; columns := keys;
                 values := [[fone; fone; fone]] |} |}.

End OecdCells.

(* ================================================================== *)
(** * Properties *)

Module NumFacts.
Local Open Scope Qc_scope.

Lemma fadd_zero_l x : fadd fzero x = x.
Proof. destruct x; simpl; trivial. f_equal; ring. Qed.

Lemma fadd_zero_r x : fadd x fzero = x.
Proof. destruct x; simpl; trivial. f_equal; ring. Qed.

Lemma fmul_one_r x : fmul x fone = x.
Proof. destruct x; simpl; trivial. f_equal; ring. Qed.

Lemma fmul_zero_one : fmul fzero fone = fzero.
Proof. unfold fzero, fone; simpl. f_equal; ring. Qed.

Lemma fmul_one_l x : fmul fone x = x.
Proof. destruct x; simpl; trivial. f_equal; ring. Qed.

Lemma div0_finite a b : isfinite (div0 a b) = true.
Proof. unfold div0. destruct (isfinite (true_divide a b)) eqn:E; trivial. Qed.

Lemma div0_zero_denominator a : div0 a fzero = fzero.
Proof.
  unfold div0, fzero. destruct a; simpl; trivial.
  destruct (q ?= 0); reflexivity.
Qed.

Lemma fadd_finite x y : isfinite x = true -> isfinite y = true -> isfinite (fadd x y) = true.
Proof. destruct x, y; simpl; congruence. Qed.

Lemma fmul_finite x y : isfinite x = true -> isfinite y = true -> isfinite (fmul x y) = true.
Proof. destruct x, y; simpl; congruence. Qed.

Lemma fsub_finite x y : isfinite x = true -> isfinite y = true -> isfinite (fsub x y) = true.
Proof. destruct x, y; simpl; congruence. Qed.

Lemma fold_fadd_finite l : forall a,
  isfinite a = true -> Forall (fun x => isfinite x = true) l ->
  isfinite (fold_left fadd l a) = true.
Proof.
  induction l as [|x l IH]; intros a Ha Hl; simpl; trivial.
  inversion Hl; subst. apply IH; trivial. now apply fadd_finite.
Qed.

Lemma fsum_finite l :
  Forall (fun x => isfinite x = true) l -> isfinite (fsum l) = true.
Proof. intros. now apply fold_fadd_finite. Qed.

Lemma fold_fadd_zeros (g : nat -> fl) l : forall a,
  (forall k, In k l -> g k = fzero) -> fold_left fadd (map g l) a = a.
Proof.
  induction l as [|k l IH]; intros a H; simpl; trivial.
  rewrite (H k) by now left. rewrite fadd_zero_r. apply IH. intros; apply H; now right.
Qed.

(** A sum with a single non-fzero term is that term. *)
Lemma fsum_spike (g : nat -> fl) n i :
  (i < n)%nat -> (forall k, (k < n)%nat -> k <> i -> g k = fzero) ->
  fsum (map g (seq 0 n)) = g i.
Proof.
  intros Hi Hz. unfold fsum.
  replace n with (i + (1 + (n - i - 1)))%nat by lia.
  rewrite !seq_app, !map_app, !fold_left_app. simpl seq. simpl map.
  rewrite fold_fadd_zeros;
    [cbn [fold_left]; rewrite fold_fadd_zeros; [apply fadd_zero_l|] |];
    intros k Hk; apply in_seq in Hk; apply Hz; lia.
Qed.

End NumFacts.


Module NpFacts.
Import Np NumFacts.

Lemma mk_length n m f : length (mk n m f) = n.
Proof. unfold mk. now rewrite length_map, length_seq. Qed.

Lemma nrows_mk n m f : nrows (mk n m f) = n.
Proof. apply mk_length. Qed.

Lemma nth_mk n m f i :
  i < n -> nth i (mk n m f) [] = map (fun j => f i j) (seq 0 m).
Proof.
  intros Hi. unfold mk.
  rewrite nth_indep with (d' := (fun i => map (fun j => f i j) (seq 0 m)) 0)
    by now rewrite length_map, length_seq.
  rewrite map_nth with (f := fun i => map (fun j => f i j) (seq 0 m)).
  now rewrite seq_nth.
Qed.

Lemma get_mk n m f i j : i < n -> j < m -> get (mk n m f) i j = f i j.
Proof.
  intros Hi Hj. unfold get. rewrite nth_mk by trivial.
  rewrite nth_indep with (d' := (fun j => f i j) 0)
    by now rewrite length_map, length_seq.
  rewrite map_nth with (f := fun j => f i j). now rewrite seq_nth.
Qed.

Lemma ncols_mk n m f : 0 < n -> ncols (mk n m f) = m.
Proof.
  intros Hn. unfold ncols.
  replace (hd [] (mk n m f)) with (nth 0 (mk n m f) []) by now destruct (mk n m f).
  rewrite nth_mk by trivial. now rewrite length_map, length_seq.
Qed.

Lemma has_shape_mk n m f : has_shape n m (mk n m f).
Proof.
  split; [apply mk_length|]. unfold mk. apply Forall_forall. intros r Hr.
  apply in_map_iff in Hr as (i & <- & _). now rewrite length_map, length_seq.
Qed.

Lemma mk_ext n m f g :
  (forall i j, i < n -> j < m -> f i j = g i j) -> mk n m f = mk n m g.
Proof.
  intros H. unfold mk. apply map_ext_in. intros i Hi. apply in_seq in Hi.
  apply map_ext_in. intros j Hj. apply in_seq in Hj. apply H; lia.
Qed.

Lemma has_shape_dims n m M :
  has_shape n m M -> 0 < n -> nrows M = n /\ ncols M = m.
Proof.
  intros [Hl Hr] Hn. split; trivial. unfold ncols.
  destruct M as [|r M]; simpl in *; [lia|]. now inversion Hr.
Qed.

Lemma all_finite_mk n m f :
  (forall i j, i < n -> j < m -> isfinite (f i j) = true) -> all_finite (mk n m f).
Proof.
  intros H. unfold all_finite, mk. apply Forall_forall. intros r Hr.
  apply in_map_iff in Hr as (i & <- & Hi). apply in_seq in Hi.
  apply Forall_forall. intros x Hx. apply in_map_iff in Hx as (j & <- & Hj).
  apply in_seq in Hj. apply H; lia.
Qed.

Lemma all_finite_row M i :
  all_finite M -> Forall (fun x => isfinite x = true) (nth i M []).
Proof.
  intros H. destruct (Nat.lt_ge_cases i (length M)) as [Hi|Hi].
  - unfold all_finite in H. rewrite Forall_forall in H. apply H. now apply nth_In.
  - rewrite nth_overflow by trivial. constructor.
Qed.

Lemma all_finite_get M i j : all_finite M -> isfinite (get M i j) = true.
Proof.
  intros H. unfold get. pose proof (all_finite_row i H) as Hr.
  destruct (Nat.lt_ge_cases j (length (nth i M []))) as [Hj|Hj].
  - rewrite Forall_forall in Hr. apply Hr. now apply nth_In.
  - now rewrite nth_overflow.
Qed.

Lemma nth_sum_axis1 M i : nth i (sum_axis1 M) fzero = fsum (nth i M []).
Proof.
  unfold sum_axis1. change fzero with (fsum []). apply map_nth.
Qed.

Lemma dot_ok A B :
  ncols A = nrows B ->
  dot A B = Ok (Cecilia.matmul (nrows A) (ncols A) (ncols B) A B).
Proof. intros H. unfold dot. rewrite H, Nat.eqb_refl. now rewrite <- H. Qed.

Lemma div0_mat_ok A B :
  nrows A = nrows B -> ncols A = ncols B ->
  div0_mat A B = Ok (Cecilia.zero_safe_div (nrows A) (ncols A) A B).
Proof. intros H1 H2. unfold div0_mat. now rewrite H1, H2, !Nat.eqb_refl. Qed.

End NpFacts.


Module CeciliaFacts.
Import Np NumFacts NpFacts Cecilia.
Local Open Scope string_scope.

Lemma nrows_matmul n k m A B : nrows (matmul n k m A B) = n.
Proof. apply mk_length. Qed.

Lemma ncols_matmul n k m A B : 0 < n -> ncols (matmul n k m A B) = m.
Proof. apply ncols_mk. Qed.

Lemma nrows_zero_safe_div n m A B : nrows (zero_safe_div n m A B) = n.
Proof. apply mk_length. Qed.

Lemma ncols_zero_safe_div n m A B : 0 < n -> ncols (zero_safe_div n m A B) = m.
Proof. apply ncols_mk. Qed.

Lemma length_sum_axis0 n m S :
  has_shape n m S -> 0 < n -> length (sum_axis0 S) = m.
Proof.
  intros HS Hn. destruct (has_shape_dims HS Hn) as [_ Hc].
  unfold sum_axis0. now rewrite length_map, length_seq.
Qed.

Lemma nth_sum_axis0 S j :
  j < ncols S -> nth j (sum_axis0 S) fzero = colsum S j.
Proof.
  intros Hj. unfold sum_axis0, colsum.
  rewrite nth_indep with (d' := (fun j => fsum (map (fun r => nth j r fzero) S)) 0)
    by now rewrite length_map, length_seq.
  rewrite map_nth with (f := fun j => fsum (map (fun r => nth j r fzero) S)).
  now rewrite seq_nth.
Qed.

Section Shapes.

Variables (n m : nat) (S U : matrix).
Hypothesis Hn : 0 < n.
Hypothesis Hm : 0 < m.
Hypothesis HS : has_shape n m S.
Hypothesis HU : has_shape m n U.

Lemma diag_rowsum : diag (sum_axis1 S) = diagonal n (rowsum S).
Proof.
  unfold diag, diagonal, sum_axis1. rewrite length_map. destruct HS as [-> _].
  apply mk_ext. intros i j _ _. destruct (Nat.eqb i j); trivial.
  apply nth_sum_axis1.
Qed.

Lemma diag_colsum : diag (sum_axis0 S) = diagonal m (colsum S).
Proof.
  unfold diag, diagonal. rewrite (length_sum_axis0 HS Hn).
  apply mk_ext. intros i j Hi _. destruct (Nat.eqb i j); trivial.
  apply nth_sum_axis0. now destruct (has_shape_dims HS Hn) as [_ ->].
Qed.

Lemma ones_shape : ones (shape S) = all_ones n m.
Proof.
  unfold ones, shape, all_ones. now destruct (has_shape_dims HS Hn) as [-> ->].
Qed.

(** The source's industry-technology branch is the specification's formula. *)
Lemma IOT_from_SUT_pxp :
  IOT_from_SUT S U "pxp" = Ok (Some (Z_industry_technology n m S U)).
Proof.
  destruct (has_shape_dims HS Hn) as [HSr HSc].
  destruct (has_shape_dims HU Hm) as [HUr HUc].
  unfold IOT_from_SUT. cbn [String.eqb Ascii.eqb Bool.eqb andb].
  rewrite diag_rowsum, ones_shape.
  rewrite dot_ok by (unfold diagonal, all_ones; now rewrite ncols_mk, nrows_mk).
  cbn [bind].
  replace (nrows (diagonal n (rowsum S))) with n by (symmetry; apply mk_length).
  replace (ncols (diagonal n (rowsum S))) with n by (symmetry; now apply ncols_mk).
  replace (ncols (all_ones n m)) with m by (symmetry; now apply ncols_mk).
  rewrite div0_mat_ok
    by (now rewrite ?nrows_matmul, ?ncols_matmul, ?HSr, ?HSc).
  cbn [bind]. rewrite HSr, HSc.
  rewrite dot_ok by now rewrite nrows_zero_safe_div, HUc.
  cbn [bind]. rewrite HUr, HUc, ncols_zero_safe_div by trivial.
  unfold Z_industry_technology, transpose, transposed.
  now rewrite nrows_matmul, ncols_matmul.
Qed.

(** The source's product-technology branch is the specification's formula. *)
Lemma IOT_from_SUT_ixi :
  IOT_from_SUT S U "ixi" = Ok (Some (Z_product_technology n m S U)).
Proof.
  destruct (has_shape_dims HS Hn) as [HSr HSc].
  destruct (has_shape_dims HU Hm) as [HUr HUc].
  unfold IOT_from_SUT. cbn [String.eqb Ascii.eqb Bool.eqb andb].
  rewrite diag_colsum, ones_shape.
  rewrite dot_ok by (unfold diagonal, all_ones; now rewrite ncols_mk, nrows_mk).
  cbn [bind].
  replace (nrows (all_ones n m)) with n by (symmetry; apply mk_length).
  replace (ncols (all_ones n m)) with m by (symmetry; now apply ncols_mk).
  replace (ncols (diagonal m (colsum S))) with m by (symmetry; now apply ncols_mk).
  rewrite div0_mat_ok
    by (now rewrite ?nrows_matmul, ?ncols_matmul, ?HSr, ?HSc).
  cbn [bind]. rewrite HSr, HSc.
  rewrite dot_ok by now rewrite ncols_zero_safe_div, HUr.
  cbn [bind].
  now rewrite nrows_zero_safe_div, ncols_zero_safe_div, HUc.
Qed.

(** [diag(d) . ones] repeats [d i] along row [i]. *)
Lemma diagonal_ones_entry (d : nat -> fl) i j :
  i < n -> j < m ->
  get (matmul n n m (diagonal n d) (all_ones n m)) i j = d i.
Proof.
  intros Hi Hj. unfold matmul. rewrite get_mk by trivial.
  rewrite fsum_spike with (i := i) (g := fun l => fmul (get (diagonal n d) i l) (get (all_ones n m) l j)); trivial.
  - unfold diagonal, all_ones. rewrite !get_mk by trivial.
    now rewrite Nat.eqb_refl, fmul_one_r.
  - intros k Hk Hne. unfold diagonal, all_ones. rewrite !get_mk by trivial.
    apply Nat.eqb_neq in Hne. rewrite Nat.eqb_sym in Hne. rewrite Hne.
    apply fmul_zero_one.
Qed.

(** [ones . diag(d)] repeats [d j] along column [j]. *)
Lemma ones_diagonal_entry (d : nat -> fl) i j :
  i < n -> j < m ->
  get (matmul n m m (all_ones n m) (diagonal m d)) i j = d j.
Proof.
  intros Hi Hj. unfold matmul. rewrite get_mk by trivial.
  rewrite fsum_spike with (i := j) (g := fun l => fmul (get (all_ones n m) i l) (get (diagonal m d) l j)); trivial.
  - unfold diagonal, all_ones. rewrite !get_mk by trivial.
    now rewrite Nat.eqb_refl, fmul_one_l.
  - intros k Hk Hne. unfold diagonal, all_ones. rewrite !get_mk by trivial.
    apply Nat.eqb_neq in Hne. rewrite Hne.
    unfold fone, fzero. simpl. f_equal; ring.
Qed.

(** Cell (q, p) of the industry-technology table: the use of product [p] by
    each industry, weighted by the share of product [q] in that industry's
    output. *)
Lemma Z_industry_technology_entry q p :
  q < m -> p < m ->
  get (Z_industry_technology n m S U) q p =
  fsum (map (fun i => fmul (get U p i) (div0 (get S i q) (rowsum S i)))
            (seq 0 n)).
Proof.
  intros Hq Hp. unfold Z_industry_technology, transposed.
  rewrite get_mk by trivial. unfold matmul at 1. rewrite get_mk by trivial.
  f_equal. apply map_ext_in. intros i Hi. apply in_seq in Hi. f_equal.
  unfold zero_safe_div. rewrite get_mk by lia.
  now rewrite diagonal_ones_entry by lia.
Qed.

(** Cell (i, k) of the product-technology table. *)
Lemma Z_product_technology_entry i k :
  i < n -> k < n ->
  get (Z_product_technology n m S U) i k =
  fsum (map (fun j => fmul (div0 (get S i j) (colsum S j)) (get U j k))
            (seq 0 m)).
Proof.
  intros Hi Hk. unfold Z_product_technology. unfold matmul at 1.
  rewrite get_mk by trivial.
  f_equal. apply map_ext_in. intros j Hj. apply in_seq in Hj. f_equal.
  unfold zero_safe_div. rewrite get_mk by lia.
  now rewrite ones_diagonal_entry by lia.
Qed.

End Shapes.

End CeciliaFacts.


Module CeciliaFinite.
Import Np NumFacts NpFacts Cecilia CeciliaFacts.
Local Open Scope string_scope.


Lemma all_finite_matmul n k m A B :
  all_finite A -> all_finite B -> all_finite (matmul n k m A B).
Proof.
  intros HA HB. apply all_finite_mk. intros i j _ _. apply fsum_finite.
  apply Forall_forall. intros x Hx. apply in_map_iff in Hx as (l & <- & _).
  apply fmul_finite; now apply all_finite_get.
Qed.

Lemma all_finite_zero_safe_div n m A B : all_finite (zero_safe_div n m A B).
Proof. apply all_finite_mk. intros. apply div0_finite. Qed.

Lemma all_finite_transpose M : all_finite M -> all_finite (transpose M).
Proof. intros H. apply all_finite_mk. intros. now apply all_finite_get. Qed.

Lemma all_finite_diag v : finite_vec v -> all_finite (diag v).
Proof.
  intros H. apply all_finite_mk. intros i j Hi _.
  destruct (Nat.eqb i j); trivial.
  unfold finite_vec in H. rewrite Forall_forall in H. apply H. now apply nth_In.
Qed.

Lemma finite_div0_vec a v : finite_vec (div0_vec a v).
Proof.
  unfold finite_vec. apply Forall_forall. intros x Hx.
  apply in_map_iff in Hx as (b & <- & _). apply div0_finite.
Qed.

Lemma finite_sum_axis1 M : all_finite M -> finite_vec (sum_axis1 M).
Proof.
  intros H. unfold finite_vec. apply Forall_forall. intros x Hx.
  apply in_map_iff in Hx as (r & <- & Hr). apply fsum_finite.
  unfold all_finite in H. rewrite Forall_forall in H. now apply H.
Qed.

Lemma vadd_same_length u v :
  length u = length v ->
  vadd u v = Ok (map (fun p => fadd (fst p) (snd p)) (combine u v)).
Proof. intros H. unfold vadd. now rewrite H, Nat.eqb_refl. Qed.

Lemma finite_combine_add u v :
  finite_vec u -> finite_vec v ->
  finite_vec (map (fun p => fadd (fst p) (snd p)) (combine u v)).
Proof.
  unfold finite_vec. intros Hu Hv. rewrite Forall_forall in *. intros x Hx.
  apply in_map_iff in Hx as ([a b] & <- & Hab). simpl.
  apply fadd_finite; [apply Hu; eapply in_combine_l | apply Hv; eapply in_combine_r];
    eassumption.
Qed.

(** The steps of [coefficients] after a square [Z] of [k] rows. *)
Lemma coefficients_from_Z k Z y :
  0 < k -> has_shape k k Z -> length y = k ->
  exists x A,
    (x <- vadd (sum_axis1 y) (sum_axis1 Z) ;;
     A <- dot Z (diag (div0_vec fone x)) ;;
     Ok (Z, x, A)) = Ok (Z, x, A)
    /\ has_shape k k A
    /\ (all_finite Z -> all_finite y -> finite_vec x /\ all_finite A).
Proof.
  intros Hk HZ Hy.
  destruct (has_shape_dims HZ Hk) as [HZr HZc].
  assert (Hlen : length (sum_axis1 y) = length (sum_axis1 Z)).
  { unfold sum_axis1. rewrite !length_map. unfold nrows in HZr. lia. }
  rewrite (vadd_same_length _ _ Hlen). cbn [bind].
  set (x := map _ (combine _ _)).
  assert (Hx : length x = k).
  { unfold x, sum_axis1. rewrite length_map, length_combine, !length_map.
    unfold nrows in HZr. lia. }
  assert (Hd : nrows (diag (div0_vec fone x)) = k /\
               ncols (diag (div0_vec fone x)) = k).
  { unfold diag, div0_vec. rewrite length_map, Hx.
    split; [apply nrows_mk | now apply ncols_mk]. }
  destruct Hd as [Hdr Hdc].
  rewrite dot_ok by lia.
  cbn [bind]. eexists _, _. split; [reflexivity|]. split.
  - rewrite HZr, Hdc. apply has_shape_mk.
  - intros FZ Fy. split.
    + apply finite_combine_add; now apply finite_sum_axis1.
    + apply all_finite_matmul; trivial. apply all_finite_diag, finite_div0_vec.
Qed.

Lemma all_finite_Z_industry_technology n m S U :
  all_finite U -> all_finite (Z_industry_technology n m S U).
Proof.
  intros FU. apply all_finite_mk. intros. apply all_finite_get.
  apply all_finite_matmul; trivial. apply all_finite_zero_safe_div.
Qed.

Lemma all_finite_Z_product_technology n m S U :
  all_finite U -> all_finite (Z_product_technology n m S U).
Proof.
  intros FU. apply all_finite_matmul; trivial. apply all_finite_zero_safe_div.
Qed.

(** [coefficients] on tables of matching shapes: nothing is raised, and
    finite use and final-demand tables give finite results. *)
Lemma coefficients_ok n m k S U y system :
  0 < n -> 0 < m -> has_shape n m S -> has_shape m n U -> length y = k ->
  (system = "pxp" /\ k = m) \/ (system = "ixi" /\ k = n) ->
  exists Z x A,
    IOT_from_SUT S U system = Ok (Some Z) /\
    coefficients S U y system = Ok (Z, x, A) /\
    has_shape k k A /\
    (all_finite U -> all_finite y ->
     all_finite Z /\ finite_vec x /\ all_finite A).
Proof.
  intros Hn Hm HS HU Hy Hsys.
  destruct Hsys as [[-> ->] | [-> ->]].
  - destruct (@coefficients_from_Z m (Z_industry_technology n m S U) y)
      as (x & A & HA & SA & FA); trivial.
    { apply has_shape_mk. }
    exists (Z_industry_technology n m S U), x, A.
    pose proof (IOT_from_SUT_pxp Hn Hm HS HU) as Hp.
    split; [trivial|]. split; [|split; [trivial|]].
    + unfold coefficients. rewrite Hp. cbn [bind]. exact HA.
    + intros FU Fy.
      pose proof (all_finite_Z_industry_technology n m S FU) as FZ.
      split; [trivial | now apply FA].
  - destruct (@coefficients_from_Z n (Z_product_technology n m S U) y)
      as (x & A & HA & SA & FA); trivial.
    { apply has_shape_mk. }
    exists (Z_product_technology n m S U), x, A.
    pose proof (IOT_from_SUT_ixi Hn Hm HS HU) as Hp.
    split; [trivial|]. split; [|split; [trivial|]].
    + unfold coefficients. rewrite Hp. cbn [bind]. exact HA.
    + intros FU Fy.
      pose proof (all_finite_Z_product_technology n m S FU) as FZ.
      split; [trivial | now apply FA].
Qed.

End CeciliaFinite.


Module CeciliaClaims.
Import Np NumFacts NpFacts Cecilia CeciliaFacts CeciliaFinite.
Local Open Scope string_scope.

(** C2.  For a supply table S of n industries by m products and a use table U
    of m products by n industries, [IOT_from_SUT] with 'pxp' returns
    transpose(U . (S / diag(rowsum(S)) . ones)) and with 'ixi' returns
    (S / (ones . diag(colsum(S)))) . U, where '/' is the element-wise zero-safe
    division. *)
Theorem IOT_from_SUT_formulas (n m : nat) (S U : matrix) :
  0 < n -> 0 < m -> has_shape n m S -> has_shape m n U ->
  IOT_from_SUT S U "pxp" = Ok (Some (Z_industry_technology n m S U)) /\
  IOT_from_SUT S U "ixi" = Ok (Some (Z_product_technology n m S U)).
Proof.
  intros Hn Hm HS HU. split.
  - now apply IOT_from_SUT_pxp.
  - now apply IOT_from_SUT_ixi.
Qed.

Lemma IOT_from_SUT_formulas_witness :
  let S := [[Fin (Q2Qc 3); Fin (Q2Qc 1)]; [fzero; fzero]] in
  let U := [[Fin (Q2Qc 1); Fin (Q2Qc 2)]; [Fin (Q2Qc 3); Fin (Q2Qc 4)]] in
  IOT_from_SUT S U "pxp" = Ok (Some (Z_industry_technology 2 2 S U)) /\
  IOT_from_SUT S U "ixi" = Ok (Some (Z_product_technology 2 2 S U)).
Proof.
  intros S U. apply (@IOT_from_SUT_formulas 2 2 S U).
  - lia.
  - lia.
  - split; [reflexivity | repeat constructor].
  - split; [reflexivity | repeat constructor].
Defined.

(** The ratios [div0] computes on two arrays are finite, and 0 wherever the
    denominator is 0. *)
Lemma div0_mat_zero_safe (A B Q : matrix) :
  div0_mat A B = Ok Q ->
  all_finite Q /\ forall i j, get B i j = fzero -> get Q i j = fzero.
Proof.
  unfold div0_mat. destruct (_ && _)%bool; [|discriminate].
  intros H. injection H as <-. split.
  - apply all_finite_mk. intros. apply div0_finite.
  - intros i j HB.
    destruct (Nat.ltb_spec i (nrows A)) as [Hi|Hi].
    + destruct (Nat.ltb_spec j (ncols A)) as [Hj|Hj].
      * rewrite get_mk by trivial. rewrite HB. apply div0_zero_denominator.
      * unfold get. rewrite nth_mk by trivial.
        apply nth_overflow. now rewrite length_map, length_seq.
    + unfold get. rewrite (nth_overflow (mk _ _ _)) by now rewrite mk_length.
      now destruct j.
Qed.

(** The same for the ratios 1/x of a 1-D array. *)
Lemma div0_vec_zero_safe (a : fl) (v : vector) :
  finite_vec (div0_vec a v) /\
  forall i, nth i v fzero = fzero -> nth i (div0_vec a v) fzero = fzero.
Proof.
  split; [apply finite_div0_vec|].
  intros i Hi. unfold div0_vec.
  destruct (Nat.ltb_spec i (length v)) as [Hl|Hl].
  - rewrite nth_indep with (d' := div0 a fzero) by now rewrite length_map.
    rewrite map_nth, Hi. apply div0_zero_denominator.
  - apply nth_overflow. now rewrite length_map.
Qed.

(** C3, as the code has it.  On a supply table S of n by m cells, a use table
    U of m by n and a final-demand table y of as many rows as Z, whatever
    numbers they hold (all zeros included), [IOT_from_SUT] and the
    computation of A raise nothing.  The ratios Q = div0(S, D), D being the
    array of row (or column) sums of S, and div0(1, x) hold finite numbers
    only, and 0 wherever the denominator is 0.  Z is the product of U and Q
    and A the product of Z and diag(div0(1, x)): nothing is said of their
    cells, which follow the arithmetic of the products. *)
Theorem coefficients_zero_safe (n m k : nat) (S U y : matrix) (system : string) :
  0 < n -> 0 < m -> has_shape n m S -> has_shape m n U -> length y = k ->
  (system = "pxp" /\ k = m) \/ (system = "ixi" /\ k = n) ->
  exists D Q Z x A,
    ((system = "pxp" /\
      dot (diag (sum_axis1 S)) (ones (shape S)) = Ok D /\
      exists P, dot U Q = Ok P /\ Z = transpose P) \/
     (system = "ixi" /\
      dot (ones (shape S)) (diag (sum_axis0 S)) = Ok D /\
      dot Q U = Ok Z)) /\
    div0_mat S D = Ok Q /\
    all_finite Q /\
    (forall i j, get D i j = fzero -> get Q i j = fzero) /\
    IOT_from_SUT S U system = Ok (Some Z) /\
    coefficients S U y system = Ok (Z, x, A) /\
    finite_vec (div0_vec fone x) /\
    (forall i, nth i x fzero = fzero -> nth i (div0_vec fone x) fzero = fzero) /\
    dot Z (diag (div0_vec fone x)) = Ok A.
Proof.
  intros Hn Hm HS HU Hy Hsys.
  destruct (coefficients_ok y Hn Hm HS HU Hy Hsys)
    as (Z & x & A & HZ & HA & _ & _).
  assert (HdotA : dot Z (diag (div0_vec fone x)) = Ok A).
  { unfold coefficients in HA. rewrite HZ in HA. cbn [bind] in HA.
    destruct (vadd _ _) as [x'|]; [|discriminate]. cbn [bind] in HA.
    destruct (dot Z _) as [A'|] eqn:E; [|discriminate]. cbn [bind] in HA.
    injection HA as <- <-. exact E. }
  destruct (div0_vec_zero_safe fone x) as [Fx Zx].
  destruct Hsys as [[-> ->] | [-> ->]].
  - pose proof HZ as HZ'. unfold IOT_from_SUT in HZ'.
    cbn [String.eqb Ascii.eqb Bool.eqb andb] in HZ'.
    destruct (dot (diag _) _) as [D|]; [|discriminate]. cbn [bind] in HZ'.
    destruct (div0_mat S D) as [Q|] eqn:EQ; [|discriminate]. cbn [bind] in HZ'.
    destruct (dot U Q) as [P|] eqn:EP; [|discriminate]. cbn [bind] in HZ'.
    injection HZ' as <-.
    destruct (div0_mat_zero_safe _ _ EQ) as [FQ ZQ].
    exists D, Q, (transpose P), x, A.
    split; [left; repeat split; eauto|]. repeat split; trivial.
  - pose proof HZ as HZ'. unfold IOT_from_SUT in HZ'.
    cbn [String.eqb Ascii.eqb Bool.eqb andb] in HZ'.
    destruct (dot (ones _) _) as [D|]; [|discriminate]. cbn [bind] in HZ'.
    destruct (div0_mat S D) as [Q|] eqn:EQ; [|discriminate]. cbn [bind] in HZ'.
    destruct (dot Q U) as [P|] eqn:EP; [|discriminate]. cbn [bind] in HZ'.
    injection HZ' as <-.
    destruct (div0_mat_zero_safe _ _ EQ) as [FQ ZQ].
    exists D, Q, P, x, A.
    split; [right; repeat split; eauto|]. repeat split; trivial.
Qed.

(** The degenerate tables: no supply, no use, no final demand. *)
Lemma coefficients_zero_safe_witness :
  let O := [[fzero; fzero]; [fzero; fzero]] in
  exists D Q Z x A,
    (("pxp" = "pxp" /\
      dot (diag (sum_axis1 O)) (ones (shape O)) = Ok D /\
      exists P, dot O Q = Ok P /\ Z = transpose P) \/
     ("pxp" = "ixi" /\
      dot (ones (shape O)) (diag (sum_axis0 O)) = Ok D /\
      dot Q O = Ok Z)) /\
    div0_mat O D = Ok Q /\
    all_finite Q /\
    (forall i j, get D i j = fzero -> get Q i j = fzero) /\
    IOT_from_SUT O O "pxp" = Ok (Some Z) /\
    coefficients O O O "pxp" = Ok (Z, x, A) /\
    finite_vec (div0_vec fone x) /\
    (forall i, nth i x fzero = fzero -> nth i (div0_vec fone x) fzero = fzero) /\
    dot Z (diag (div0_vec fone x)) = Ok A.
Proof.
  intros O. apply (@coefficients_zero_safe 2 2 2 O O O "pxp").
  - lia.
  - lia.
  - split; [reflexivity | repeat constructor].
  - split; [reflexivity | repeat constructor].
  - reflexivity.
  - left. split; reflexivity.
Defined.

(** C3 as stated fails: a use table with an infinite cell.  No denominator
    is 0 and nothing is raised, yet Z and x hold Inf and A holds NaN (the
    ratio 1/Inf is 0, and Inf times 0 is NaN). *)
Lemma infinite_use_gives_nan :
  let S := [[fone]] in
  let U := [[PInf]] in
  let y := [[fzero]] in
  IOT_from_SUT S U "pxp" = Ok (Some [[PInf]]) /\
  coefficients S U y "pxp" = Ok ([[PInf]], [PInf], [[NaN]]).
Proof. split; reflexivity. Qed.

End CeciliaClaims.


Module LeontiefClaims.
Import Np NumFacts NpFacts Cecilia CeciliaFacts CeciliaFinite Linalg.
Local Open Scope string_scope.

Lemma msub_ok k A :
  0 < k -> has_shape k k A -> exists IA, msub (eye (nrows A)) A = Ok IA.
Proof.
  intros Hk HA. destruct (has_shape_dims HA Hk) as [Hr Hc].
  unfold msub, eye. rewrite nrows_mk, ncols_mk, Hr, Hc, !Nat.eqb_refl by lia.
  eexists. reflexivity.
Qed.

(** C6, as the code has it.  [load_system] puts no test of its own on
    (I - A): on tables of matching shapes it raises exactly what numpy's
    inversion raises on (I - A), and returns the system with the inverse
    numpy returns, whatever the conditioning of (I - A). *)
Theorem load_system_inverts_untested
    (linalg_inv : matrix -> res matrix)
    (n m k : nat) (S U y : matrix) (system : string) :
  0 < n -> 0 < m -> has_shape n m S -> has_shape m n U -> length y = k ->
  (system = "pxp" /\ k = m) \/ (system = "ixi" /\ k = n) ->
  exists Z x A IA,
    coefficients S U y system = Ok (Z, x, A) /\
    msub (eye (nrows A)) A = Ok IA /\
    load_system linalg_inv S U y system =
      (L <- linalg_inv IA ;;
       Ok {| sys_Z := Z; sys_Y := y; sys_x := x; sys_A := A; sys_L := L |}).
Proof.
  intros Hn Hm HS HU Hy Hsys.
  destruct (coefficients_ok y Hn Hm HS HU Hy Hsys)
    as (Z & x & A & _ & HA & SA & _).
  assert (Hk : 0 < k) by (destruct Hsys as [[_ ->] | [_ ->]]; trivial).
  destruct (msub_ok Hk SA) as [IA HIA].
  exists Z, x, A, IA. split; [trivial|]. split; [trivial|].
  unfold load_system. rewrite HA. cbn [bind]. rewrite HIA. reflexivity.
Qed.

Lemma load_system_inverts_untested_witness :
  let S := [[fone; fzero]; [fzero; fone]] in
  let U := [[fone; fone]; [fone; fone]] in
  let y := [[fzero]; [fone]] in
  exists Z x A IA,
    coefficients S U y "pxp" = Ok (Z, x, A) /\
    msub (eye (nrows A)) A = Ok IA /\
    load_system Linalg.inv S U y "pxp" =
      (L <- Linalg.inv IA ;;
       Ok {| sys_Z := Z; sys_Y := y; sys_x := x; sys_A := A; sys_L := L |}).
Proof.
  intros S U y.
  apply (@load_system_inverts_untested Linalg.inv 2 2 2 S U y "pxp").
  - lia.
  - lia.
  - split; [reflexivity | repeat constructor].
  - split; [reflexivity | repeat constructor].
  - reflexivity.
  - left. split; reflexivity.
Defined.

(** C6 as stated fails: one industry per product, each product used by both
    industries, and a final demand of 2^-50 for the second product only.
    (I - A) has a condition number above 10^15, and the system is returned
    with its inverse. *)
Lemma load_system_ill_conditioned_returns :
  let S := [[fone; fzero]; [fzero; fone]] in
  let U := [[fone; fone]; [fone; fone]] in
  let y := [[fzero]; [Fin (Q2Qc (1 # 2 ^ 50))]] in
  exists sys IA c,
    load_system Linalg.inv S U y "pxp" = Ok sys /\
    msub (eye 2) (sys_A sys) = Ok (map (map Fin) IA) /\
    cond_inf IA = Some c /\
    (Q2Qc (10 ^ 15 # 1) < c)%Qc.
Proof.
  intros S U y.
  destruct (load_system Linalg.inv S U y "pxp") as [sys|e] eqn:E;
    [|vm_compute in E; discriminate].
  exists sys.
  assert (HA : sys_A sys =
    [[Fin (Q2Qc (1 # 2)); Fin (Q2Qc (2 ^ 50 # 2 ^ 51 + 1))];
     [Fin (Q2Qc (1 # 2)); Fin (Q2Qc (2 ^ 50 # 2 ^ 51 + 1))]]).
  { vm_compute in E. injection E as <-. cbn [sys_A].
    repeat (f_equal; try (apply Qc_is_canon; vm_compute; reflexivity)). }
  rewrite HA.
  exists [[Q2Qc (1 # 2); Q2Qc (- (2 ^ 50) # 2 ^ 51 + 1)];
          [Q2Qc (- 1 # 2); Q2Qc (2 ^ 50 + 1 # 2 ^ 51 + 1)]].
  exists (Q2Qc (2 ^ 52 + 3 # 1)).
  split; [reflexivity|]. split; [|split].
  - unfold msub, eye. cbn.
    repeat (f_equal; try (apply Qc_is_canon; vm_compute; reflexivity)).
  - unfold cond_inf.
    destruct (inverse _) as [L|] eqn:EL; [|vm_compute in EL; discriminate].
    cbn [option_map]. f_equal. apply Qc_is_canon. vm_compute in EL.
    injection EL as <-. vm_compute. reflexivity.
  - vm_compute. reflexivity.
Qed.

(** With no final demand at all, (I - A) is exactly singular and the
    inversion raises. *)
Lemma load_system_singular_raises :
  let S := [[fone; fzero]; [fzero; fone]] in
  let U := [[fone; fone]; [fone; fone]] in
  let y := [[fzero]; [fzero]] in
  load_system Linalg.inv S U y "pxp" = Raise LinAlgError.
Proof. vm_compute. reflexivity. Qed.

End LeontiefClaims.


Module ThemisClaims.
Import Themis.
Local Open Scope string_scope.

Section Parser.

Variables (matfile labels_t iosystem : Type).
Variable loadmat : string -> res matfile.
Variable read_labels : string -> res labels_t.
Variable all_scenarios :
  string -> matfile -> matfile -> labels_t -> option string -> bool -> bool ->
  res (list (string * list (Z * iosystem))).
Variable single_system :
  string -> Z -> string -> matfile -> matfile -> labels_t -> res iosystem.

Let parser := themis_parser loadmat read_labels all_scenarios single_system.

(** A failed read of the THEMIS data ends the call before year and scenario
    are looked at. *)
Lemma themis_parser_preload_raises exio_files year scenario t c l d cb ca e :
  preload loadmat read_labels exio_files t c l = Raise e ->
  returned (parser exio_files year scenario t c l d cb ca) = Raise e.
Proof. intros H. unfold parser, themis_parser. now rewrite H. Qed.

End Parser.

(** C10, as the code has it.  In a call of [themis_parser] with exactly one
    of year and scenario left to None, the THEMIS data are first taken from
    the arguments or, when one of themis, themis_caracs and labels is None,
    read from the folder; if that raises, the call raises the same exception
    and prints nothing; otherwise the call prints one message and returns
    None, building no IOSystem.  With the three arguments given nothing is
    read and the call always returns None. *)
Theorem themis_parser_one_missing
    (matfile labels_t iosystem : Type)
    (loadmat : string -> res matfile)
    (read_labels : string -> res labels_t)
    (all_scenarios :
       string -> matfile -> matfile -> labels_t -> option string -> bool ->
       bool -> res (list (string * list (Z * iosystem))))
    (single_system :
       string -> Z -> string -> matfile -> matfile -> labels_t -> res iosystem)
    (exio_files : string) (year : option Z) (scenario : option string)
    (themis themis_caracs : option matfile) (labels : option labels_t)
    (dlr_files : option string) (combo compute_all : bool) :
  (year = None /\ scenario <> None) \/ (year <> None /\ scenario = None) ->
  let none :=
    {| returned := Ok (PyNone iosystem);
       printed := ["scenario and year must be both given or None"] |} in
  themis_parser loadmat read_labels all_scenarios single_system
    exio_files year scenario themis themis_caracs labels
    dlr_files combo compute_all
  = match preload loadmat read_labels exio_files themis themis_caracs labels
    with
    | Ok _ => none
    | Raise e => {| returned := Raise e; printed := [] |}
    end /\
  forall t c l,
    themis_parser loadmat read_labels all_scenarios single_system
      exio_files year scenario (Some t) (Some c) (Some l)
      dlr_files combo compute_all
    = none.
Proof.
  intros Hone none. unfold themis_parser.
  assert (Hnone :
    forall t c l,
      match year, scenario with
      | None, None =>
          {| returned :=
               d <- all_scenarios exio_files t c l dlr_files combo
                      compute_all ;;
               Ok (Scenarios d);
             printed := [] |}
      | None, Some _ | Some _, None => none
      | Some y, Some s =>
          {| returned :=
               io <- single_system exio_files y s t c l ;; Ok (System io);
             printed := [] |}
      end = none).
  { intros t c l. destruct year as [y|], scenario as [s|]; trivial;
      destruct Hone as [[H1 H2]|[H1 H2]]; congruence. }
  split.
  - destruct (preload _ _ _ _ _ _) as [[[t c] l]|e]; [apply Hnone|reflexivity].
  - intros t c l. cbn [preload]. apply Hnone.
Qed.

(** The year alone, the data being read from the folder without error. *)
Lemma themis_parser_one_missing_witness :
  themis_parser (fun _ => Ok tt) (fun _ => Ok tt)
    (fun _ _ _ _ _ _ _ => Ok []) (fun _ _ _ _ _ _ => Ok tt)
    "/data/themis/" (Some 2010%Z) None None None None None true false
  = {| returned := Ok (PyNone unit);
       printed := ["scenario and year must be both given or None"] |}.
Proof.
  refine (proj1 (@themis_parser_one_missing unit unit unit
                   (fun _ => Ok tt) (fun _ => Ok tt)
                   (fun _ _ _ _ _ _ _ => Ok []) (fun _ _ _ _ _ _ => Ok tt)
                   "/data/themis/" (Some 2010%Z) None None None None None
                   true false _)).
  right. split; [discriminate | reflexivity].
Defined.

(** C10 as stated fails.  The default call with the year alone, in a folder
    without the file THEMIS2.mat: the file is read before year and scenario
    are compared, and the call raises instead of returning None. *)
Lemma themis_parser_one_missing_raises :
  themis_parser (fun _ : string => @Raise unit FileNotFoundError)
    (fun _ => Ok tt)
    (fun _ _ _ _ _ _ _ => Ok []) (fun _ _ _ _ _ _ => Ok tt)
    "/data/themis/" (Some 2010%Z) None None None None None true false
  = {| returned := @Raise (value unit) FileNotFoundError; printed := [] |}.
Proof. reflexivity. Qed.

End ThemisClaims.


Module ExioFacts.
Import PyStr Exio.
Local Open Scope string_scope.

Lemma dict_get_set_same (V : Type) (d : dict V) k v :
  dict_get (dict_set d k v) k = Some v.
Proof.
  induction d as [|[k' v'] d IH]; simpl.
  - now rewrite String.eqb_refl.
  - destruct (String.eqb k' k) eqn:E; simpl; rewrite E; trivial.
Qed.

Lemma dict_get_set_other (V : Type) (d : dict V) k k' v :
  k <> k' -> dict_get (dict_set d k v) k' = dict_get d k'.
Proof.
  intros Hne. induction d as [|[k0 v0] d IH]; simpl.
  - destruct (String.eqb k k') eqn:E; trivial.
    apply String.eqb_eq in E. contradiction.
  - destruct (String.eqb k0 k) eqn:E; simpl.
    + apply String.eqb_eq in E. subst k0.
      destruct (String.eqb k k') eqn:E'; trivial.
      apply String.eqb_eq in E'. contradiction.
    + now rewrite IH.
Qed.

Lemma dict_set_length_pos (V : Type) (d : dict V) k v :
  0 < length (dict_set d k v).
Proof.
  destruct d as [|[k' v'] d]; simpl; [lia|].
  destruct (String.eqb k' k); simpl; lia.
Qed.

Section Files.

Variable sniff_csv_format : string -> option string -> res format_para.
Variable version_of : string -> option string.
Variables (path : string) (repo : repo_content).

Hypothesis sniff_returns :
  forall f z, raises (sniff_csv_format f z) = false.

Let found (vv : string) : list string :=
  filter (search_not_after_underscore vv) (filelist repo).

Let run := locate sniff_csv_format version_of path repo.

(** What the loop leaves for each table of its pattern list. *)
Lemma locate_spec (table : list (string * string)) :
  NoDup (map fst table) ->
  forall d0 log0, exists d log1,
    run table d0 log0 = ((log0 ++ log1)%list, Ok d) /\
    (forall kk, ~ In kk (map fst table) -> dict_get d kk = dict_get d0 kk) /\
    (forall kk vv, In (kk, vv) table ->
       (2 <= length (found vv) ->
        In (Warning_multiple_files kk (found vv)) log1) /\
       (length (found vv) = 0 -> dict_get d kk = dict_get d0 kk) /\
       (length (found vv) = 1 ->
        exists fp, dict_get d kk = Some fp /\
                   file_path fp = hd "" (found vv) /\ root_repo fp = path)).
Proof.
  induction table as [|[kk vv] rest IH]; intros ND d0 log0.
  - exists d0, []. simpl. rewrite app_nil_r. repeat split; trivial; contradiction.
  - inversion ND as [|? ? Hnotin ND']; subst.
    unfold run. cbn [locate]. fold (found vv). fold run.
    destruct (1 <? length (found vv))%nat eqn:Hmany.
    + apply Nat.ltb_lt in Hmany.
      destruct (IH ND' d0 (log0 ++ [Warning_multiple_files kk (found vv)])%list)
        as (d & log1 & Hrun & Hout & Hin).
      exists d, (Warning_multiple_files kk (found vv) :: log1).
      split; [rewrite Hrun; now rewrite <- app_assoc|]. split.
      * intros k Hk. apply Hout. simpl in Hk. tauto.
      * intros k v [Heq|Hk].
        -- injection Heq as <- <-. repeat split.
           ++ intros _. now left.
           ++ lia.
           ++ lia.
        -- destruct (Hin k v Hk) as (H2 & H0 & H1). repeat split; trivial.
           intros Hl. right. now apply H2.
    + apply Nat.ltb_ge in Hmany.
      destruct (length (found vv) =? 0)%nat eqn:Hnone.
      * apply Nat.eqb_eq in Hnone.
        destruct (IH ND' d0 log0) as (d & log1 & Hrun & Hout & Hin).
        exists d, log1. split; [exact Hrun|]. split.
        -- intros k Hk. apply Hout. simpl in Hk. tauto.
        -- intros k v [Heq|Hk].
           ++ injection Heq as <- <-. repeat split.
              ** lia.
              ** intros _. now apply Hout.
              ** lia.
           ++ now apply Hin.
      * apply Nat.eqb_neq in Hnone.
        set (file := hd "" (found vv)).
        set (call := if iszip repo then sniff_csv_format file (Some path)
                     else sniff_csv_format (path_join path file) None).
        assert (Hcall : raises call = false)
          by (unfold call; destruct (iszip repo); apply sniff_returns).
        destruct call as [fmt|e]; [|discriminate].
        set (fp := {| root_repo := path; file_path := file;
                      version := version_of file;
                      index_rows := nr_header_row fmt;
                      index_col := nr_index_col fmt;
                      unit_col := Z.of_nat (nr_index_col fmt) - 1;
                      sep := fp_sep fmt |}).
        destruct (IH ND' (dict_set d0 kk fp)
                    (log0 ++ [Debug_process_file file])%list)
          as (d & log1 & Hrun & Hout & Hin).
        exists d, (Debug_process_file file :: log1).
        split; [rewrite Hrun; now rewrite <- app_assoc|]. split.
        -- intros k Hk. simpl in Hk. rewrite Hout by tauto.
           apply dict_get_set_other. intros ->. tauto.
        -- intros k v [Heq|Hk].
           ++ injection Heq as <- <-. repeat split.
              ** lia.
              ** lia.
              ** intros _. exists fp. rewrite Hout by trivial.
                 rewrite dict_get_set_same. repeat split.
           ++ assert (Hne : kk <> k).
              { intros ->. apply Hnotin. apply in_map_iff.
                now exists (k, v). }
              destruct (Hin k v Hk) as (H2 & H0 & H1). repeat split.
              ** intros Hl. right. now apply H2.
              ** intros Hl. rewrite H0 by trivial.
                 now apply dict_get_set_other.
              ** exact H1.
Qed.

End Files.

Lemma exio_core_regex_keys coefficients :
  NoDup (map fst (exio_core_regex coefficients)).
Proof.
  destruct coefficients; simpl;
    repeat (constructor; [simpl; intuition discriminate|]); constructor.
Qed.

End ExioFacts.


Module ExioClaims.
Import PyStr Exio ExioFacts.
Local Open Scope string_scope.

(** With no match for any pattern the loop changes nothing. *)
Lemma locate_no_match sniff version_of path repo table :
  (forall kk vv, In (kk, vv) table ->
     length (filter (search_not_after_underscore vv) (filelist repo)) = 0) ->
  forall d0 log0,
    locate sniff version_of path repo table d0 log0 = (log0, Ok d0).
Proof.
  induction table as [|[kk vv] rest IH]; intros H d0 log0; trivial.
  cbn [locate]. rewrite (H kk vv) by now left. cbn. apply IH.
  intros k v Hk. apply (H k v). now right.
Qed.

(** The loop of [get_exiobase_files] when the sniffer returns for every
    file: a dict is returned; a table whose pattern matches several files
    gets a warning of the logging module that lists them; a table whose
    pattern matches no file is left out of the dict without an error; a
    table with one match is stored with that file.  [parse_exiobase1]
    raises ParserError when no pattern matches any file, and hands the dict
    to the parser proper as soon as one table has its single file. *)
Theorem exiobase_file_location
    (get_repo_content : string -> repo_content)
    (sniff_csv_format : string -> option string -> res format_para)
    (version_of : string -> option string)
    (iosystem : Type)
    (generic_exiobase12_parser :
       dict file_para -> option string -> res iosystem)
    (path : string) :
  (forall f z, raises (sniff_csv_format f z) = false) ->
  let found vv :=
    filter (search_not_after_underscore vv)
           (filelist (get_repo_content path)) in
  let parsed :=
    parse_exiobase1 get_repo_content sniff_csv_format version_of
      generic_exiobase12_parser path in
  exists d log,
    get_exiobase_files get_repo_content sniff_csv_format version_of path true
      = (log, Ok d) /\
    (forall kk vv, In (kk, vv) (exio_core_regex true) ->
       (2 <= length (found vv) ->
        In (Warning_multiple_files kk (found vv)) log) /\
       (length (found vv) = 0 -> dict_get d kk = None) /\
       (length (found vv) = 1 ->
        exists fp, dict_get d kk = Some fp /\
                   file_path fp = hd "" (found vv))) /\
    ((forall kk vv, In (kk, vv) (exio_core_regex true) ->
        length (found vv) = 0) ->
     snd parsed = Raise (ParserError ("No EXIOBASE files found at " ++ path))) /\
    ((exists kk vv, In (kk, vv) (exio_core_regex true) /\
                    length (found vv) = 1) ->
     snd parsed = generic_exiobase12_parser d (_get_MRIO_system path)).
Proof.
  intros Hsniff found parsed.
  destruct (@locate_spec sniff_csv_format version_of path
              (get_repo_content path) Hsniff (exio_core_regex true)
              (exio_core_regex_keys true) [] [])
    as (d & log & Hrun & _ & Hin).
  exists d, log. split; [exact Hrun|]. split; [|split].
  - intros kk vv Hk. destruct (Hin kk vv Hk) as (H2 & H0 & H1).
    repeat split; trivial.
    intros Hl. destruct (H1 Hl) as (fp & Hfp & Hfile & _).
    exists fp. split; assumption.
  - intros Hnone. unfold parsed, parse_exiobase1, get_exiobase_files.
    now rewrite locate_no_match.
  - intros (kk & vv & Hk & Hone).
    destruct (Hin kk vv Hk) as (_ & _ & H1).
    destruct (H1 Hone) as (fp & Hfp & _).
    unfold parsed, parse_exiobase1. fold found in Hrun.
    unfold get_exiobase_files. rewrite Hrun. cbn [app].
    destruct d as [|e d]; [discriminate|]. cbn.
    now destruct (_get_MRIO_system path).
Qed.

(** A folder holding one interindustry file and one final-demand file. *)
Lemma exiobase_file_location_witness :
  let repo := {| filelist := ["mrIot_version2.2.2.txt";
                              "mrFinalDemand_version2.2.2.txt"];
                 iszip := false |} in
  let fmt := {| fp_sep := "	"; nr_header_row := 2; nr_index_col := 3 |} in
  exists d log,
    get_exiobase_files (fun _ => repo) (fun _ _ => Ok fmt) (fun _ => None)
      "/data/exio_pxp" true = (log, Ok d) /\
    (exists fp, dict_get d "A" = Some fp /\
                file_path fp = "mrIot_version2.2.2.txt") /\
    dict_get d "S_emissions" = None.
Proof.
  intros repo fmt.
  destruct (@exiobase_file_location (fun _ => repo) (fun _ _ => Ok fmt)
              (fun _ => None) unit (fun _ _ => Ok tt) "/data/exio_pxp")
    as (d & log & Hrun & Htab & _).
  - reflexivity.
  - exists d, log. split; [exact Hrun|]. split.
    + destruct (Htab "A" "mrIot") as (_ & _ & H1); [now left|].
      apply H1. vm_compute. reflexivity.
    + destruct (Htab "S_emissions" "mrEmissions") as (_ & H0 & _).
      { simpl. tauto. }
      apply H0. vm_compute. reflexivity.
Defined.

(** Two files match the pattern of table A: the warning is logged, but
    neither file is stored for A, so the first match is not used; the
    final-demand table is located as usual. *)
Lemma several_matches_first_not_used :
  let repo := {| filelist := ["mrIot_version2.2.0.txt";
                              "mrIot_version2.2.2.txt";
                              "mrFinalDemand_version2.2.2.txt"];
                 iszip := false |} in
  let fmt := {| fp_sep := "	"; nr_header_row := 2; nr_index_col := 3 |} in
  exists d,
    get_exiobase_files (fun _ => repo) (fun _ _ => Ok fmt) (fun _ => None)
      "/data/exio_pxp" true
    = ([Warning_multiple_files "A" ["mrIot_version2.2.0.txt";
                                    "mrIot_version2.2.2.txt"];
        Debug_process_file "mrFinalDemand_version2.2.2.txt"],
       Ok d) /\
    dict_get d "A" = None /\
    map fst d = ["Y"].
Proof.
  intros repo fmt. eexists. split; [vm_compute; reflexivity|].
  split; reflexivity.
Qed.

(** A required table with no file is not fatal: with the interindustry file
    alone, the parser proper is called on a dict without final demand. *)
Lemma missing_table_not_fatal
    (iosystem : Type)
    (generic_exiobase12_parser :
       dict file_para -> option string -> res iosystem) :
  let repo := {| filelist := ["mrIot_version2.2.2.txt"]; iszip := false |} in
  let fmt := {| fp_sep := "	"; nr_header_row := 2; nr_index_col := 3 |} in
  exists d,
    snd (parse_exiobase1 (fun _ => repo) (fun _ _ => Ok fmt) (fun _ => None)
           generic_exiobase12_parser "/data/exio_pxp")
    = generic_exiobase12_parser d (Some "pxp") /\
    map fst d = ["A"].
Proof.
  intros repo fmt. eexists. split; [vm_compute; reflexivity|]. reflexivity.
Qed.

Section Several.

Variable sniff_csv_format : string -> option string -> res format_para.
Variable version_of : string -> option string.
Variables (path : string) (repo : repo_content).

Let found (vv : string) : list string :=
  filter (search_not_after_underscore vv) (filelist repo).

Let run := locate sniff_csv_format version_of path repo.

(** A table with several matches is logged and left as it was in the dict,
    whatever the sniffer does on the other files. *)
Lemma locate_several (table : list (string * string)) :
  NoDup (map fst table) ->
  forall d0 log0 log d,
    run table d0 log0 = (log, Ok d) ->
    (forall r, In r log0 -> In r log) /\
    (forall kk, ~ In kk (map fst table) -> dict_get d kk = dict_get d0 kk) /\
    (forall kk vv, In (kk, vv) table -> 2 <= length (found vv) ->
       In (Warning_multiple_files kk (found vv)) log /\
       dict_get d kk = dict_get d0 kk).
Proof.
  induction table as [|[kk vv] rest IH]; intros ND d0 log0 log d Hrun.
  - cbn in Hrun. injection Hrun as <- <-. repeat split; trivial; contradiction.
  - inversion ND as [|? ? Hnotin ND']; subst.
    unfold run in Hrun. cbn [locate] in Hrun. fold (found vv) in Hrun.
    fold run in Hrun.
    destruct (1 <? length (found vv))%nat eqn:Hmany.
    + apply Nat.ltb_lt in Hmany.
      destruct (IH ND' _ _ _ _ Hrun) as (Hlog & Hout & Hin).
      split; [|split].
      * intros r Hr. apply Hlog, in_or_app. now left.
      * intros k Hk. apply Hout. simpl in Hk. tauto.
      * intros k v [Heq|Hk] Hl.
        -- injection Heq as <- <-. split.
           ++ apply Hlog, in_or_app. right. now left.
           ++ now apply Hout.
        -- now apply Hin.
    + apply Nat.ltb_ge in Hmany.
      destruct (length (found vv) =? 0)%nat eqn:Hnone.
      * destruct (IH ND' _ _ _ _ Hrun) as (Hlog & Hout & Hin).
        split; [trivial|]. split.
        -- intros k Hk. apply Hout. simpl in Hk. tauto.
        -- intros k v [Heq|Hk] Hl.
           ++ injection Heq as <- <-. lia.
           ++ now apply Hin.
      * destruct (if iszip repo then _ else _) as [fmt|e];
          [|discriminate].
        destruct (IH ND' _ _ _ _ Hrun) as (Hlog & Hout & Hin).
        split; [|split].
        -- intros r Hr. apply Hlog, in_or_app. now left.
        -- intros k Hk. simpl in Hk. rewrite Hout by tauto.
           apply dict_get_set_other. intros ->. tauto.
        -- intros k v [Heq|Hk] Hl.
           ++ injection Heq as <- <-. lia.
           ++ destruct (Hin k v Hk Hl) as [Hw Hd]. split; [trivial|].
              rewrite Hd. apply dict_get_set_other.
              intros ->. apply Hnotin. apply in_map_iff. now exists (k, v).
Qed.

(** When no pattern has exactly one match the sniffer is not called and the
    dict is left as it was. *)
Lemma locate_no_single (table : list (string * string)) :
  (forall kk vv, In (kk, vv) table -> length (found vv) <> 1) ->
  forall d0 log0, exists log, run table d0 log0 = (log, Ok d0).
Proof.
  induction table as [|[kk vv] rest IH]; intros H d0 log0.
  - now exists log0.
  - assert (H1 : length (found vv) <> 1) by (apply (H kk vv); now left).
    assert (Hrest : forall k v, In (k, v) rest -> length (found v) <> 1)
      by (intros k v Hk; apply (H k v); now right).
    unfold run. cbn [locate]. fold (found vv). fold run.
    destruct (1 <? length (found vv))%nat eqn:Hmany; [now apply IH|].
    apply Nat.ltb_ge in Hmany.
    destruct (length (found vv) =? 0)%nat eqn:Hnone; [now apply IH|].
    apply Nat.eqb_neq in Hnone. lia.
Qed.

End Several.

(** C7.  A table whose pattern matches several files is not read from the
    first of them, although the warning says so: whenever
    [get_exiobase_files] returns, the warning that lists the files is in the
    log and the dict has no entry for the table.  So when no pattern has
    exactly one match, files matching several times included,
    [parse_exiobase1] finds the dict empty and raises ParserError 'No
    EXIOBASE files found', without a call of the parser proper. *)
Theorem several_matches_table_dropped
    (get_repo_content : string -> repo_content)
    (sniff_csv_format : string -> option string -> res format_para)
    (version_of : string -> option string)
    (iosystem : Type)
    (generic_exiobase12_parser :
       dict file_para -> option string -> res iosystem)
    (path : string) (coefficients : bool) :
  let found vv :=
    filter (search_not_after_underscore vv)
           (filelist (get_repo_content path)) in
  (forall log d,
     get_exiobase_files get_repo_content sniff_csv_format version_of
       path coefficients = (log, Ok d) ->
     forall kk vv, In (kk, vv) (exio_core_regex coefficients) ->
       2 <= length (found vv) ->
       In (Warning_multiple_files kk (found vv)) log /\
       dict_get d kk = None) /\
  ((forall kk vv, In (kk, vv) (exio_core_regex true) ->
      length (found vv) <> 1) ->
   snd (parse_exiobase1 get_repo_content sniff_csv_format version_of
          generic_exiobase12_parser path)
   = Raise (ParserError ("No EXIOBASE files found at " ++ path))).
Proof.
  intros found. split.
  - intros log d Hrun kk vv Hk Hl.
    destruct (@locate_several sniff_csv_format version_of path
                (get_repo_content path) (exio_core_regex coefficients)
                (exio_core_regex_keys coefficients) [] [] log d Hrun)
      as (_ & _ & Hin).
    exact (Hin kk vv Hk Hl).
  - intros Hnone. unfold parse_exiobase1, get_exiobase_files.
    destruct (@locate_no_single sniff_csv_format version_of path
                (get_repo_content path) (exio_core_regex true) Hnone [] [])
      as (log & ->).
    reflexivity.
Qed.

(** A folder that holds two releases of the interindustry file and nothing
    else. *)
Lemma several_matches_table_dropped_witness :
  let repo := {| filelist := ["mrIot_version2.2.0.txt";
                              "mrIot_version2.2.2.txt"];
                 iszip := false |} in
  let fmt := {| fp_sep := "	"; nr_header_row := 2; nr_index_col := 3 |} in
  snd (parse_exiobase1 (fun _ => repo) (fun _ _ => Ok fmt) (fun _ => None)
         (fun _ _ => Ok tt) "/data/exio_pxp")
  = Raise (ParserError "No EXIOBASE files found at /data/exio_pxp").
Proof.
  intros repo fmt.
  refine (proj2 (@several_matches_table_dropped (fun _ => repo)
                   (fun _ _ => Ok fmt) (fun _ => None) unit
                   (fun _ _ => Ok tt) "/data/exio_pxp" true) _).
  intros kk vv Hk. simpl in Hk.
  repeat (destruct Hk as [Hk|Hk];
          [injection Hk as <- <-; vm_compute; discriminate|]).
  contradiction.
Defined.

End ExioClaims.


(** Sums of floats: [fadd] is a commutative monoid on all values. *)
Module SumFacts.
Import NumFacts.

Lemma fadd_comm x y : fadd x y = fadd y x.
Proof. destruct x, y; simpl; trivial. f_equal; ring. Qed.

Lemma fadd_assoc x y z : fadd x (fadd y z) = fadd (fadd x y) z.
Proof. destruct x, y, z; simpl; trivial. f_equal; ring. Qed.

Lemma fold_fadd_acc l : forall a, fold_left fadd l a = fadd a (fsum l).
Proof.
  unfold fsum. induction l as [|x l IH]; intros a; cbn [fold_left].
  - now rewrite fadd_zero_r.
  - rewrite IH, (IH (fadd fzero x)), fadd_zero_l. symmetry. apply fadd_assoc.
Qed.

Lemma fsum_nil : fsum [] = fzero.
Proof. reflexivity. Qed.

Lemma fsum_cons x l : fsum (x :: l) = fadd x (fsum l).
Proof.
  unfold fsum at 1. cbn [fold_left]. now rewrite fold_fadd_acc, fadd_zero_l.
Qed.

Lemma fsum_app l1 l2 : fsum (l1 ++ l2) = fadd (fsum l1) (fsum l2).
Proof.
  induction l1 as [|x l1 IH]; cbn [app].
  - now rewrite fsum_nil, fadd_zero_l.
  - now rewrite !fsum_cons, IH, fadd_assoc.
Qed.

(** (a + b) + (c + d) = (a + c) + (b + d) *)
Lemma fadd_swap a b c d :
  fadd (fadd a b) (fadd c d) = fadd (fadd a c) (fadd b d).
Proof.
  rewrite <- (fadd_assoc a b), (fadd_assoc b c d), (fadd_comm b c).
  now rewrite <- (fadd_assoc c b d), fadd_assoc.
Qed.

Lemma fsum_map_add (A : Type) (f g : A -> fl) l :
  fsum (map (fun x => fadd (f x) (g x)) l) =
  fadd (fsum (map f l)) (fsum (map g l)).
Proof.
  induction l as [|x l IH]; cbn [map].
  - now rewrite fsum_nil, fadd_zero_l.
  - now rewrite !fsum_cons, IH, fadd_swap.
Qed.

Lemma fsum_map_zero (A : Type) (l : list A) :
  fsum (map (fun _ => fzero) l) = fzero.
Proof.
  induction l as [|x l IH]; cbn [map]; [reflexivity|].
  now rewrite fsum_cons, IH, fadd_zero_l.
Qed.

(** A sum splits along any test. *)
Lemma fsum_filter_split (A : Type) (p : A -> bool) (f : A -> fl) l :
  fsum (map f l) =
  fadd (fsum (map f (filter p l)))
       (fsum (map f (filter (fun x => negb (p x)) l))).
Proof.
  induction l as [|x l IH]; cbn [map filter].
  - now rewrite fsum_nil, fadd_zero_l.
  - rewrite fsum_cons, IH. destruct (p x); cbn [negb map]; rewrite fsum_cons.
    + now rewrite fadd_assoc.
    + rewrite !fadd_assoc. f_equal. apply fadd_comm.
Qed.

(** Rows summed column by column, or row by row. *)
Lemma fsum_columns_rows m (rows : list (list fl)) :
  Forall (fun r => length r = m) rows ->
  fsum (map (fun j => fsum (map (fun r => nth j r fzero) rows)) (seq 0 m)) =
  fsum (map fsum rows).
Proof.
  induction 1 as [|r rows Hr Hrows IH].
  - cbn [map]. rewrite fsum_nil. apply fsum_map_zero.
  - cbn [map]. rewrite fsum_cons, <- IH.
    rewrite (map_ext _
      (fun j => fadd (nth j r fzero)
                     (fsum (map (fun r0 => nth j r0 fzero) rows))))
      by (intros; apply fsum_cons).
    rewrite fsum_map_add. f_equal. f_equal.
    subst m. clear. induction r as [|x r IHr] using rev_ind; trivial.
    rewrite length_app, Nat.add_comm. cbn [length Nat.add].
    rewrite seq_S, map_app. cbn [map Nat.add]. rewrite nth_middle. f_equal.
    rewrite <- IHr at 2. apply map_ext_in. intros j Hj. apply in_seq in Hj.
    apply app_nth1. lia.
Qed.

End SumFacts.


(** The aggregation of sub-regions on the labelled cells of one row. *)
Module AggregateCells.
Import NumFacts SumFacts PyStr Frame Oecd.

Lemma fsum_filter_ind (A : Type) (p : A -> bool) (f : A -> fl) l :
  fsum (map f (filter p l)) = fsum (map (fun x => ind (p x) (f x)) l).
Proof.
  induction l as [|x l IH]; cbn [filter map]; trivial.
  rewrite fsum_cons, <- IH. destruct (p x); cbn [ind map].
  - now rewrite fsum_cons.
  - now rewrite fadd_zero_l.
Qed.

Lemma fsum_exchange (A B : Type) (F : A -> B -> fl) l1 l2 :
  fsum (map (fun x => fsum (map (fun y => F x y) l2)) l1) =
  fsum (map (fun y => fsum (map (fun x => F x y) l1)) l2).
Proof.
  induction l1 as [|x l1 IH]; cbn [map].
  - rewrite fsum_nil. symmetry. apply fsum_map_zero.
  - rewrite fsum_cons, IH.
    rewrite <- fsum_map_add with (f := fun y => F x y). f_equal.
    apply map_ext. intros y. now rewrite fsum_cons.
Qed.

Lemma fsum_ind_none (A : Type) (p : A -> bool) (f : A -> fl) l :
  (forall x, In x l -> p x = false) ->
  fsum (map (fun x => ind (p x) (f x)) l) = fzero.
Proof.
  intros H. rewrite <- fsum_map_zero with (l := l). f_equal.
  apply map_ext_in. intros x Hx. now rewrite (H x Hx).
Qed.

(** Among cells with distinct labels, a test met by one label only picks
    one cell. *)
Lemma fsum_ind_one (K : Type) (p : K * fl -> bool) (k : K) (x : fl) l :
  NoDup (map fst l) -> In k (map fst l) ->
  (forall kv, In kv l -> p kv = true <-> fst kv = k) ->
  fsum (map (fun kv => ind (p kv) x) l) = x.
Proof.
  induction l as [|kv l IH]; intros ND Hin Hp; [contradiction|].
  cbn [map] in *. inversion ND as [|? ? Hnotin ND']; subst.
  rewrite fsum_cons. destruct (p kv) eqn:E; cbn [ind].
  - apply Hp in E; [|now left]. subst k.
    rewrite (@fsum_ind_none _ p (fun _ => x)); [apply fadd_zero_r|].
    intros kv' Hkv'. destruct (p kv') eqn:E'; trivial.
    apply Hp in E'; [|now right]. exfalso. apply Hnotin. rewrite <- E'.
    now apply in_map.
  - rewrite fadd_zero_l. destruct Hin as [Heq|Hin].
    + assert (p kv = true) by (apply Hp; [now left | trivial]). congruence.
    + apply IH; trivial. intros kv' Hkv'. apply Hp. now right.
Qed.

Lemma filter_map_fst (A B C : Type) (p : A -> bool) (f : A * B -> A * C) l :
  (forall kv, fst (f kv) = fst kv) ->
  filter (fun kv => p (fst kv)) (map f l) =
  map f (filter (fun kv => p (fst kv)) l).
Proof.
  intros Hf. induction l as [|kv l IH]; cbn [map filter]; trivial.
  rewrite Hf, IH. now destruct (p (fst kv)).
Qed.

Lemma map_fst_filter (A B C : Type) (p : A -> bool) (f : A * B -> A * C) l :
  (forall kv, fst (f kv) = fst kv) ->
  map fst (map f (filter (fun kv => p (fst kv)) l)) = filter p (map fst l).
Proof.
  intros Hf. induction l as [|kv l IH]; cbn [filter map]; trivial.
  destruct (p (fst kv)); cbn [map]; now rewrite ?Hf, IH.
Qed.

Lemma nansum_finite l :
  Forall (fun x => isfinite x = true) l -> nansum l = fsum l.
Proof.
  intros H. unfold nansum. f_equal.
  induction H as [|x l Hx Hl IH]; cbn [filter]; trivial.
  destruct x; try discriminate. now rewrite IH.
Qed.

Lemma mem_in s l : mem s l = true <-> In s l.
Proof.
  unfold mem. rewrite existsb_exists. split.
  - intros (x & Hx & E). apply String.eqb_eq in E. now subst.
  - intros H. exists s. split; trivial. apply String.eqb_refl.
Qed.

Section OneTarget.

Variables (co_name : string) (agg_list : list string).
Hypothesis co_not_sub : mem co_name agg_list = false.

Let is_sub (kv : key * fl) : bool := mem (region (fst kv)) agg_list.
Let member_of (s : string) (kv : key * fl) : bool :=
  mem (region (fst kv)) agg_list && String.eqb (sector (fst kv)) s.

(** What [aggregate_cells] adds to the cell [kv]. *)
Let gain (cells : list (key * fl)) (kv : key * fl) : fl :=
  ind (String.eqb (region (fst kv)) co_name)
      (fsum (map snd (filter (member_of (sector (fst kv))) cells))).

Lemma aggregate_cells_unfold cells :
  Forall (fun kv => isfinite (snd kv) = true) cells ->
  fits co_name agg_list (map fst cells) ->
  aggregate_cells co_name agg_list cells =
  map (fun kv => (fst kv, fadd (snd kv) (gain cells kv)))
      (filter (fun kv => negb (is_sub kv)) cells).
Proof.
  intros Hfin [_ Htgt]. unfold aggregate_cells.
  rewrite map_ext_in with
    (g := fun kv => (fst kv, fadd (snd kv) (gain cells kv))).
  - apply (@filter_map_fst key fl fl (fun k => negb (mem (region k) agg_list))).
    reflexivity.
  - intros [k v] Hkv. unfold gain. cbn [fst snd].
    destruct (String.eqb (region k) co_name) eqn:E; cbn [ind].
    + fold (member_of (sector k)).
      destruct (filter (member_of (sector k)) cells) as [|m ms] eqn:Em.
      * exfalso. apply String.eqb_eq in E.
        destruct (Htgt k) as (k' & Hk' & Hsub & Hsec); trivial.
        { apply in_map_iff. now exists (k, v). }
        apply in_map_iff in Hk' as ([k0 v0] & <- & Hin0).
        assert (In (k0, v0) (filter (member_of (sector k)) cells)).
        { apply filter_In. split; trivial. unfold member_of. cbn [fst] in *.
          rewrite Hsub, Hsec. apply String.eqb_refl. }
        rewrite Em in H. contradiction.
      * f_equal. f_equal. apply nansum_finite.
        apply Forall_forall. intros x Hx. apply in_map_iff in Hx as (kv & <- & Hkv').
        rewrite Forall_forall in Hfin. apply Hfin.
        rewrite <- Em in Hkv'. now apply filter_In in Hkv'.
    + now rewrite fadd_zero_r.
Qed.

Lemma aggregate_cells_keys cells :
  map fst (aggregate_cells co_name agg_list cells) =
  filter (fun k => negb (mem (region k) agg_list)) (map fst cells).
Proof.
  unfold aggregate_cells.
  rewrite (@filter_map_fst key fl fl (fun k => negb (mem (region k) agg_list)))
    by (intros kv; now destruct (String.eqb _ _)).
  apply (@map_fst_filter key fl fl (fun k => negb (mem (region k) agg_list))).
  intros kv. now destruct (String.eqb _ _).
Qed.

Lemma aggregate_cells_finite cells :
  Forall (fun kv => isfinite (snd kv) = true) cells ->
  fits co_name agg_list (map fst cells) ->
  Forall (fun x => isfinite x = true)
         (map snd (aggregate_cells co_name agg_list cells)).
Proof.
  intros Hfin Hfits. rewrite aggregate_cells_unfold by trivial.
  rewrite map_map. cbn [snd]. apply Forall_forall. intros x Hx.
  apply in_map_iff in Hx as (kv & <- & Hkv). apply filter_In in Hkv as [Hkv _].
  rewrite Forall_forall in Hfin. apply fadd_finite; [now apply Hfin|].
  unfold gain, ind. destruct (String.eqb _ _); trivial.
  apply fsum_finite. apply Forall_forall. intros y Hy.
  apply in_map_iff in Hy as (kv' & <- & Hkv').
  apply filter_In in Hkv' as [Hkv' _]. now apply Hfin.
Qed.

(** The cells of one row keep their sum through the aggregation. *)
Lemma aggregate_cells_sum cells :
  NoDup (map fst cells) ->
  Forall (fun kv => isfinite (snd kv) = true) cells ->
  fits co_name agg_list (map fst cells) ->
  fsum (map snd (aggregate_cells co_name agg_list cells)) = fsum (map snd cells).
Proof.
  intros ND Hfin Hfits. rewrite aggregate_cells_unfold by trivial.
  rewrite map_map. cbn [snd].
  rewrite fsum_map_add with (f := fun kv : key * fl => snd kv) (g := gain cells).
  rewrite (fsum_filter_split is_sub (@snd key fl) cells).
  rewrite fadd_comm. f_equal.
  (* the gains add up to the cells of the sub-regions *)
  rewrite (fsum_filter_ind is_sub (@snd key fl) cells).
  rewrite fsum_filter_ind.
  transitivity
    (fsum (map (fun kv =>
       fsum (map (fun a =>
         ind (negb (is_sub kv) && String.eqb (region (fst kv)) co_name
              && member_of (sector (fst kv)) a) (snd a)) cells)) cells)).
  { f_equal. apply map_ext. intros kv. unfold gain.
    rewrite fsum_filter_ind.
    destruct (negb (is_sub kv)); cbn [ind andb];
      [|symmetry; apply fsum_map_zero].
    destruct (String.eqb (region (fst kv)) co_name); cbn [ind andb]; trivial.
    symmetry. apply fsum_map_zero. }
  rewrite fsum_exchange. f_equal. apply map_ext_in. intros a Ha.
  destruct (is_sub a) eqn:Esub; cbn [ind].
  - apply fsum_ind_one with (k := (co_name, sector (fst a))); trivial.
    + destruct Hfits as [Hsub _]. apply Hsub; [now apply in_map|exact Esub].
    + intros kv Hkv. unfold member_of. fold (is_sub a). rewrite Esub.
      cbn [andb]. split.
      * intros H. apply andb_prop in H as [H Hs]. apply andb_prop in H as [_ Hr].
        apply String.eqb_eq in Hr, Hs. destruct kv as [[r s] v].
        unfold region, sector in *. cbn [fst snd] in Hr, Hs |- *.
        now rewrite Hr, Hs.
      * intros Hk. destruct kv as [[r s] v]. cbn [fst] in Hk.
        injection Hk as -> ->. unfold is_sub, region, sector. cbn [fst snd].
        unfold region in co_not_sub.
        now rewrite co_not_sub, !String.eqb_refl.
  - apply fsum_ind_none. intros kv _. unfold member_of. fold (is_sub a).
    rewrite Esub. cbn [andb]. now rewrite andb_false_r.
Qed.

End OneTarget.

End AggregateCells.


(** The aggregation of sub-regions on whole tables. *)
Module AggregateFrames.
Import NumFacts SumFacts PyStr Frame Oecd AggregateCells.

Abbreviation finite_cell := (fun x : fl => isfinite x = true).

Lemma combine_fst (A B : Type) (a : list A) (b : list B) :
  length a = length b -> map fst (combine a b) = a.
Proof.
  revert b. induction a as [|x a IH]; intros [|y b] H; simpl in *;
    trivial; try discriminate. f_equal. apply IH. lia.
Qed.

Lemma combine_snd (A B : Type) (a : list A) (b : list B) :
  length a = length b -> map snd (combine a b) = b.
Proof.
  revert b. induction a as [|x a IH]; intros [|y b] H; simpl in *;
    trivial; try discriminate. f_equal. apply IH. lia.
Qed.

Lemma combine_map_r (A B C : Type) (g : B -> C) (a : list A) (b : list B) :
  combine a (map g b) = map (fun kv => (fst kv, g (snd kv))) (combine a b).
Proof.
  revert b. induction a as [|x a IH]; intros [|y b]; simpl; trivial.
  now rewrite IH.
Qed.

Lemma filter_fst_combine (A B : Type) (p : A -> bool) (a : list A) (b : list B) :
  length a = length b ->
  map fst (filter (fun kv => p (fst kv)) (combine a b)) = filter p a.
Proof.
  intros H. rewrite <- (combine_fst a b H) at 2.
  induction (combine a b) as [|kv l IH]; cbn [filter map]; trivial.
  destruct (p (fst kv)); cbn [map]; now rewrite IH.
Qed.

Lemma fsum_add_cells a : forall b,
  length a = length b -> fsum (add_cells a b) = fadd (fsum a) (fsum b).
Proof.
  unfold add_cells.
  induction a as [|x a IH]; intros [|y b] H; simpl in H; try discriminate.
  - cbn [combine map]. now rewrite fsum_nil, fadd_zero_l.
  - cbn [combine map fst snd]. rewrite !fsum_cons, IH by lia. apply fadd_swap.
Qed.

Lemma add_cells_length a b : length (add_cells a b) = Nat.min (length a) (length b).
Proof. unfold add_cells. now rewrite length_map, length_combine. Qed.

Lemma add_cells_finite a b :
  Forall finite_cell a -> Forall finite_cell b -> Forall finite_cell (add_cells a b).
Proof.
  intros Ha Hb. unfold add_cells. rewrite Forall_forall in *.
  intros x Hx. apply in_map_iff in Hx as ([u v] & <- & Huv). cbn [fst snd].
  apply fadd_finite; [apply Ha; eapply in_combine_l | apply Hb; eapply in_combine_r];
    eassumption.
Qed.

Lemma nansum_is_finite l : Forall finite_cell l -> isfinite (nansum l) = true.
Proof. intros H. rewrite nansum_finite by trivial. now apply fsum_finite. Qed.

Lemma nth_finite (r : list fl) j :
  Forall finite_cell r -> isfinite (nth j r fzero) = true.
Proof.
  intros H. destruct (Nat.lt_ge_cases j (length r)) as [Hj|Hj].
  - rewrite Forall_forall in H. apply H. now apply nth_In.
  - now rewrite nth_overflow.
Qed.

Lemma column_finite (rows : list (list fl)) j :
  Forall (Forall finite_cell) rows ->
  Forall finite_cell (map (fun r => nth j r fzero) rows).
Proof.
  intros H. apply Forall_forall. intros x Hx.
  apply in_map_iff in Hx as (r & <- & Hr). apply nth_finite.
  rewrite Forall_forall in H. now apply H.
Qed.

Lemma colwise_nansum_length m rows : length (colwise_nansum m rows) = m.
Proof. unfold colwise_nansum. now rewrite length_map, length_seq. Qed.

Lemma colwise_nansum_finite m rows :
  Forall (Forall finite_cell) rows -> Forall finite_cell (colwise_nansum m rows).
Proof.
  intros H. unfold colwise_nansum. apply Forall_forall. intros x Hx.
  apply in_map_iff in Hx as (j & <- & _). apply nansum_is_finite.
  now apply column_finite.
Qed.

Lemma colwise_nansum_sum m rows :
  Forall (fun r => length r = m) rows -> Forall (Forall finite_cell) rows ->
  fsum (colwise_nansum m rows) = fsum (map fsum rows).
Proof.
  intros Hlen Hfin. rewrite <- fsum_columns_rows with (m := m) by trivial.
  unfold colwise_nansum. f_equal. apply map_ext. intros j.
  apply nansum_finite. now apply column_finite.
Qed.

Lemma rows_finite_sums (rows : list (list fl)) :
  Forall (Forall finite_cell) rows -> Forall finite_cell (map fsum rows).
Proof.
  intros H. apply Forall_forall. intros x Hx.
  apply in_map_iff in Hx as (r & <- & Hr). apply fsum_finite.
  rewrite Forall_forall in H. now apply H.
Qed.

Section OneTarget.

Variables (co_name : string) (agg_list : list string).
Hypothesis co_not_sub : mem co_name agg_list = false.

Let keep (k : key) : bool := negb (mem (region k) agg_list).
Let member_of (V : Type) (s : string) (kv : key * V) : bool :=
  mem (region (fst kv)) agg_list && String.eqb (sector (fst kv)) s.

(** *** Rows *)

Section Rows.

Variable C : Type.
Variable f : frame key C.
Hypothesis wf : well_formed f.
Hypothesis fin : finite f.
Hypothesis fit : fits co_name agg_list (index f).

Let rows := combine (index f) (values f).

Lemma rows_keys : map fst rows = index f.
Proof. apply combine_fst. symmetry. apply wf. Qed.

Lemma rows_cells kv : In kv rows ->
  length (snd kv) = length (columns f) /\ Forall finite_cell (snd kv).
Proof.
  intros H. destruct kv as [k row]. apply in_combine_r in H. cbn [snd].
  destruct wf as [_ Hlen]. rewrite Forall_forall in Hlen.
  unfold finite, Np.all_finite in fin. rewrite Forall_forall in fin.
  split; [now apply Hlen | now apply fin].
Qed.

Lemma members_cells s :
  Forall (fun r => length r = length (columns f))
         (map snd (filter (@member_of _ s) rows)) /\
  Forall (Forall finite_cell) (map snd (filter (@member_of _ s) rows)).
Proof.
  split; apply Forall_forall; intros r Hr;
    apply in_map_iff in Hr as (kv & <- & Hkv);
    apply filter_In in Hkv as [Hkv _]; now apply rows_cells.
Qed.

(** The new row of [kv]. *)
Let new_row (kv : key * list fl) : key * list fl :=
  if String.eqb (region (fst kv)) co_name then
    (fst kv,
     match filter (@member_of _ (sector (fst kv))) rows with
     | [] => map (fun _ => NaN) (snd kv)
     | ms => add_cells (snd kv)
               (colwise_nansum (length (columns f)) (map snd ms))
     end)
  else kv.

Lemma aggregate_rows_values :
  values (aggregate_rows co_name agg_list f) =
  map (fun kv => snd (new_row kv)) (filter (fun kv => keep (fst kv)) rows).
Proof.
  unfold aggregate_rows. cbn [values]. fold rows.
  change (fun kv : key * list fl =>
            negb (mem (region (fst kv)) agg_list))
    with (fun kv : key * list fl => keep (fst kv)).
  rewrite <- map_map with (g := snd) (f := new_row). f_equal.
  apply (@filter_map_fst key (list fl) (list fl) keep new_row).
  intros kv. unfold new_row. now destruct (String.eqb _ _).
Qed.

Lemma members_nonempty kv :
  In kv rows -> region (fst kv) = co_name ->
  filter (@member_of (list fl) (sector (fst kv))) rows <> [].
Proof.
  intros Hkv Hco Hnil. destruct fit as [_ Htgt].
  destruct (Htgt (fst kv)) as (k' & Hk' & Hsub & Hsec); trivial.
  { rewrite <- rows_keys. now apply in_map. }
  rewrite <- rows_keys in Hk'. apply in_map_iff in Hk' as (kv' & <- & Hin').
  assert (H : In kv' (filter (@member_of _ (sector (fst kv))) rows)).
  { apply filter_In. split; trivial. unfold member_of.
    rewrite Hsub, Hsec. apply String.eqb_refl. }
  rewrite Hnil in H. contradiction.
Qed.

Lemma new_row_cells kv : In kv rows ->
  length (snd (new_row kv)) = length (columns f) /\
  Forall finite_cell (snd (new_row kv)).
Proof.
  intros Hkv. destruct (rows_cells kv Hkv) as [Hlen Hfin]. unfold new_row.
  destruct (String.eqb (region (fst kv)) co_name) eqn:E; [|now split].
  apply String.eqb_eq in E. pose proof (members_nonempty kv Hkv E) as Hne.
  destruct (members_cells (sector (fst kv))) as [Mlen Mfin].
  destruct (filter _ rows) as [|m ms]; [contradiction|]. cbn [snd]. split.
  - rewrite add_cells_length, colwise_nansum_length. lia.
  - apply add_cells_finite; trivial. now apply colwise_nansum_finite.
Qed.

Lemma aggregate_rows_well_formed :
  well_formed (aggregate_rows co_name agg_list f).
Proof.
  split.
  - rewrite aggregate_rows_values. cbn [index aggregate_rows].
    rewrite length_map. fold keep.
    rewrite <- (@filter_fst_combine key (list fl) keep (index f) (values f))
      by (symmetry; apply wf).
    now rewrite length_map.
  - rewrite aggregate_rows_values. apply Forall_forall. intros r Hr.
    apply in_map_iff in Hr as (kv & <- & Hkv). apply filter_In in Hkv as [Hkv _].
    now apply new_row_cells.
Qed.

Lemma aggregate_rows_finite : finite (aggregate_rows co_name agg_list f).
Proof.
  unfold finite, Np.all_finite. rewrite aggregate_rows_values.
  apply Forall_forall. intros r Hr.
  apply in_map_iff in Hr as (kv & <- & Hkv). apply filter_In in Hkv as [Hkv _].
  now apply new_row_cells.
Qed.

(** The sums of the new rows are the aggregation of the sums of the rows. *)
Lemma aggregate_rows_sums :
  map fsum (values (aggregate_rows co_name agg_list f)) =
  map snd (aggregate_cells co_name agg_list
             (combine (index f) (map fsum (values f)))).
Proof.
  rewrite aggregate_rows_values, combine_map_r. fold rows.
  set (phi := fun kv : key * list fl => (fst kv, fsum (snd kv))).
  unfold aggregate_cells.
  rewrite (@filter_map_fst key fl fl keep) by (intros kv; now destruct (String.eqb _ _)).
  rewrite (@filter_map_fst key (list fl) fl keep phi) by reflexivity.
  rewrite !map_map. apply map_ext_in. intros kv Hkv.
  apply filter_In in Hkv as [Hkv _].
  destruct (rows_cells kv Hkv) as [Hlen Hfin].
  unfold new_row, phi. cbn [fst snd].
  destruct (String.eqb (region (fst kv)) co_name) eqn:E; trivial.
  apply String.eqb_eq in E. pose proof (members_nonempty kv Hkv E) as Hne.
  destruct (members_cells (sector (fst kv))) as [Mlen Mfin].
  rewrite (@filter_map_fst key (list fl) fl
             (fun k => mem (region k) agg_list && String.eqb (sector k) (sector (fst kv)))
             phi) by reflexivity.
  fold (@member_of (list fl) (sector (fst kv))).
  destruct (filter (@member_of _ (sector (fst kv))) rows) as [|m ms] eqn:Em;
    [contradiction|].
  change (map phi (m :: ms)) with (phi m :: map phi ms). cbv beta iota.
  change (phi m :: map phi ms) with (map phi (m :: ms)).
  cbv beta iota delta [snd].
  rewrite fsum_add_cells by now rewrite colwise_nansum_length.
  rewrite colwise_nansum_sum by trivial. f_equal.
  rewrite (map_map phi). unfold phi. cbn [snd].
  rewrite <- (map_map snd fsum). symmetry. apply nansum_finite.
  now apply rows_finite_sums.
Qed.

Lemma aggregate_rows_total :
  NoDup (index f) ->
  total (aggregate_rows co_name agg_list f) = total f.
Proof.
  intros ND. unfold total. rewrite aggregate_rows_sums.
  assert (Hlen : length (index f) = length (map fsum (values f)))
    by (rewrite length_map; symmetry; apply wf).
  rewrite (aggregate_cells_sum co_not_sub).
  - now rewrite combine_snd.
  - now rewrite combine_fst.
  - apply Forall_forall. intros [k v] Hkv. apply in_combine_r in Hkv.
    pose proof (rows_finite_sums fin) as H. rewrite Forall_forall in H.
    now apply H.
  - now rewrite combine_fst.
Qed.

End Rows.

(** *** Columns *)

Section Columns.

Variable R : Type.
Variable f : frame R key.
Hypothesis wf : well_formed f.
Hypothesis fin : finite f.
Hypothesis fit : fits co_name agg_list (columns f).

Lemma row_cells row : In row (values f) ->
  map fst (combine (columns f) row) = columns f /\
  Forall (fun kv : key * fl => isfinite (snd kv) = true) (combine (columns f) row).
Proof.
  intros Hrow. destruct wf as [_ Hlen]. rewrite Forall_forall in Hlen.
  unfold finite, Np.all_finite in fin. rewrite Forall_forall in fin.
  split.
  - apply combine_fst. symmetry. now apply Hlen.
  - apply Forall_forall. intros [k v] Hkv. apply in_combine_r in Hkv.
    pose proof (fin row Hrow) as Hf. unfold Np.finite_vec in Hf.
    rewrite Forall_forall in Hf. now apply Hf.
Qed.

Lemma aggregate_cols_well_formed :
  well_formed (aggregate_cols co_name agg_list f).
Proof.
  split.
  - cbn [values index aggregate_cols]. rewrite length_map. apply wf.
  - cbn [values columns aggregate_cols]. apply Forall_forall. intros r Hr.
    apply in_map_iff in Hr as (row & <- & Hrow).
    destruct (row_cells row Hrow) as [Hkeys _].
    rewrite length_map, <- (length_map fst), aggregate_cells_keys by trivial.
    now rewrite Hkeys.
Qed.

Lemma aggregate_cols_finite : finite (aggregate_cols co_name agg_list f).
Proof.
  unfold finite, Np.all_finite. cbn [values aggregate_cols].
  apply Forall_forall. intros r Hr.
  apply in_map_iff in Hr as (row & <- & Hrow).
  destruct (row_cells row Hrow) as [Hkeys Hfin].
  apply aggregate_cells_finite; trivial. now rewrite Hkeys.
Qed.

Lemma aggregate_cols_total :
  NoDup (columns f) ->
  total (aggregate_cols co_name agg_list f) = total f.
Proof.
  intros ND. unfold total. cbn [values aggregate_cols]. f_equal.
  rewrite map_map. apply map_ext_in. intros row Hrow.
  destruct (row_cells row Hrow) as [Hkeys Hfin].
  rewrite (aggregate_cells_sum co_not_sub).
  - rewrite combine_snd; trivial.
    destruct wf as [_ Hlen]. rewrite Forall_forall in Hlen. symmetry.
    now apply Hlen.
  - now rewrite Hkeys.
  - exact Hfin.
  - now rewrite Hkeys.
Qed.

End Columns.

End OneTarget.

End AggregateFrames.


Module OecdFacts.
Import NumFacts SumFacts PyStr Frame Oecd AggregateCells AggregateFrames.
Local Open Scope string_scope.

Lemma mem_filter p s l : mem s (filter p l) = true -> p s = true /\ mem s l = true.
Proof.
  rewrite !mem_in. intros H. apply filter_In in H. tauto.
Qed.

Lemma prefixes_disjoint r :
  match_prefix_digit "CN" r = true -> match_prefix_digit "MX" r = true -> False.
Proof.
  unfold match_prefix_digit, startswith. destruct r as [|c r]; cbn [prefix].
  - discriminate.
  - intros H1 H2.
    destruct (ascii_dec "C" c) as [e1|n1]; [|discriminate H1].
    destruct (ascii_dec "M" c) as [e2|n2]; [|discriminate H2].
    rewrite <- e1 in e2. discriminate e2.
Qed.

Lemma NoDup_filter (A : Type) (p : A -> bool) l : NoDup l -> NoDup (filter p l).
Proof.
  induction 1 as [|x l Hx ND IH]; cbn [filter]; [constructor|].
  destruct (p x); trivial. constructor; trivial.
  intros H. apply filter_In in H. tauto.
Qed.

(** Dropping other sub-regions leaves the labels fit. *)
Lemma fits_filter co agg agg' keys :
  fits co agg keys -> mem co agg' = false ->
  (forall r, mem r agg = true -> mem r agg' = false) ->
  fits co agg (filter (fun k => negb (mem (region k) agg')) keys).
Proof.
  intros [Hsub Htgt] Hco Hdis. split.
  - intros k Hk Hagg. apply filter_In in Hk as [Hk _].
    apply filter_In. split; [now apply Hsub|].
    unfold region. cbn [fst]. now rewrite Hco.
  - intros k Hk Hreg. apply filter_In in Hk as [Hk _].
    destruct (Htgt k Hk Hreg) as (k' & Hk' & Hagg & Hsec).
    exists k'. split; [|now split]. apply filter_In. split; trivial.
    now rewrite (Hdis _ Hagg).
Qed.

(** Rows, then columns, for one target region. *)
Lemma aggregate_target co agg (Z : frame key key) :
  mem co agg = false -> interindustry Z -> fits co agg (index Z) ->
  let Z' := aggregate_cols co agg (aggregate_rows co agg Z) in
  total Z' = total Z /\ interindustry Z' /\
  index Z' = filter (fun k => negb (mem (region k) agg)) (index Z).
Proof.
  intros Hco (wf & fin & ND & Hcols) Hfit Z'.
  pose proof (aggregate_rows_well_formed wf fin Hfit) as wf1.
  pose proof (aggregate_rows_finite wf fin Hfit) as fin1.
  pose proof (aggregate_rows_total Hco wf fin Hfit ND) as tot1.
  set (Z1 := aggregate_rows co agg Z) in *.
  assert (Hcols1 : columns Z1 = index Z) by exact Hcols.
  assert (Hfit1 : fits co agg (columns Z1)) by now rewrite Hcols1.
  assert (ND1 : NoDup (columns Z1)) by now rewrite Hcols1.
  split; [|split; [repeat split|]].
  - unfold Z'. rewrite (aggregate_cols_total Hco wf1 fin1 Hfit1 ND1). exact tot1.
  - apply (aggregate_cols_well_formed co agg wf1 fin1).
  - apply (aggregate_cols_well_formed co agg wf1 fin1).
  - now apply aggregate_cols_finite.
  - cbn [index Z' aggregate_cols Z1 aggregate_rows]. now apply NoDup_filter.
  - cbn [index columns Z' aggregate_cols Z1 aggregate_rows]. now rewrite Hcols.
  - reflexivity.
Qed.

(** One turn of the loop, on the interindustry table. *)
Lemma aggregate_region_Z names t co agg :
  mem co agg = false -> interindustry (tab_Z t) ->
  (mem co names = true -> agg <> [] -> fits co agg (index (tab_Z t))) ->
  let t' := aggregate_region names t (co, agg) in
  total (tab_Z t') = total (tab_Z t) /\ interindustry (tab_Z t') /\
  (index (tab_Z t') = index (tab_Z t) \/
   index (tab_Z t') =
     filter (fun k => negb (mem (region k) agg)) (index (tab_Z t))).
Proof.
  intros Hco Hinv Hfit t'. unfold t', aggregate_region.
  destruct (mem co names) eqn:Hmem; cbn [negb orb];
    [|split; [reflexivity | split; [assumption | now left]]].
  destruct agg as [|a agg']; cbn [length Nat.eqb];
    [split; [reflexivity | split; [assumption | now left]]|].
  cbn [tab_Z].
  destruct (@aggregate_target co (a :: agg') (tab_Z t)) as (Ht & Hi & Hx); trivial.
  { apply Hfit; [reflexivity | discriminate]. }
  split; [exact Ht | split; [exact Hi | now right]].
Qed.

End OecdFacts.


Module OecdAggregation.
Import NumFacts SumFacts PyStr Frame Oecd AggregateCells AggregateFrames OecdFacts.
Local Open Scope string_scope.

Lemma target_not_sub_region co prefix names :
  match_prefix_digit prefix co = false ->
  mem co (filter (match_prefix_digit prefix) names) = false.
Proof.
  intros H. destruct (mem co _) eqn:E; trivial.
  apply mem_filter in E as [E _]. congruence.
Qed.

(** In exact arithmetic the aggregation of the CN and MX sub-regions leaves
    the sum of all cells of Z as it was, when Z is an interindustry table of
    finite cells with distinct labels in which the sub-regions of a target
    carry the sectors of that target, and no others. *)
Theorem aggregation_conserves_total (t : tables) :
  interindustry (tab_Z t) ->
  aligned "CHN" "CN" (index (tab_Z t)) ->
  aligned "MEX" "MX" (index (tab_Z t)) ->
  total (tab_Z (aggregate_subregions t)) = total (tab_Z t).
Proof.
  intros Hinv HCN HMX. unfold aggregate_subregions. cbn [fold_left].
  assert (Hcols : columns (tab_Z t) = index (tab_Z t)) by apply Hinv.
  rewrite Hcols.
  set (names := unique (map region (index (tab_Z t)))).
  set (aggCN := sub_regions "CN" (index (tab_Z t))) in *.
  set (aggMX := sub_regions "MX" (index (tab_Z t))) in *.
  change (total (tab_Z (aggregate_region names
                          (aggregate_region names t ("CHN", aggCN))
                          ("MEX", aggMX))) = total (tab_Z t)).
  assert (HcoCN : mem "CHN" aggCN = false)
    by (apply target_not_sub_region; reflexivity).
  assert (HcoMX : mem "MEX" aggMX = false)
    by (apply target_not_sub_region; reflexivity).
  destruct (@aggregate_region_Z names t "CHN" aggCN HcoCN Hinv)
    as (T1 & Inv1 & Hidx1).
  { intros Hm Hne. now apply HCN. }
  set (t1 := aggregate_region names t ("CHN", aggCN)) in *.
  destruct (@aggregate_region_Z names t1 "MEX" aggMX HcoMX Inv1)
    as (T2 & _ & _).
  { intros Hm Hne. destruct Hidx1 as [-> | ->]; [now apply HMX|].
    apply fits_filter; [now apply HMX | |].
    - apply target_not_sub_region. reflexivity.
    - intros r Hr. destruct (mem r aggCN) eqn:E; trivial.
      apply mem_filter in Hr as [Hr _]. apply mem_filter in E as [E _].
      destruct (prefixes_disjoint r E Hr). }
  now rewrite T2.
Qed.

(** Australia, China and one Chinese sub-region, one sector each. *)
Lemma aggregation_conserves_total_witness :
  let n (k : nat) := Fin (Q2Qc (inject_Z (Z.of_nat k))) in
  let keys := [("AUS", "A"); ("CHN", "A"); ("CN1", "A")] in
  let Z := {| index := keys; columns := keys;
              values := [[n 11; n 9; n 10]; [n 3; n 1; n 2]; [n 7; n 5; n 6]] |} in
  let Y := {| index := keys; columns := [("AUS", "HFCE")];
              values := [[n 0]; [n 4]; [n 8]] |} in
  let F := {| index := ["VALU"]; columns := keys;
              values := [[n 1; n 1; n 1]] |} in
  let t := {| tab_Z := Z; tab_Y := Y; tab_F := F |} in
  total (tab_Z (aggregate_subregions t)) = total (tab_Z t).
Proof.
  intros n keys Z Y F t. apply aggregation_conserves_total.
  - repeat split.
    + repeat constructor.
    + repeat constructor.
    + repeat constructor; simpl; intuition discriminate.
  - intros _ _. split.
    + intros k Hk Hsub. simpl in Hk.
      destruct Hk as [<-|[<-|[<-|[]]]]; try discriminate Hsub.
      simpl. tauto.
    + intros k Hk Hreg. simpl in Hk.
      destruct Hk as [<-|[<-|[<-|[]]]]; try discriminate Hreg.
      exists ("CN1", "A"). simpl. repeat split; tauto.
  - intros _ Hne. exfalso. apply Hne. reflexivity.
Defined.

End OecdAggregation.


(** ** Results that are values *)

Module ResFacts.

Lemma bind_Ok (A B : Type) (c : res A) (k : A -> res B) (b : B) :
  bind c k = Ok b -> exists a, c = Ok a /\ k a = Ok b.
Proof.
  destruct c as [a|e]; cbn [bind]; [|discriminate].
  intros H. exists a. split; [reflexivity|exact H].
Qed.

Lemma seq_Ok (A B : Type) (c : Io.io A) (k : A -> Io.io B) h b h' :
  Io.seq c k h = (Ok b, h') ->
  exists a h1, c h = (Ok a, h1) /\ k a h1 = (Ok b, h').
Proof.
  unfold Io.seq. destruct (c h) as [[a|e] h1]; [|discriminate].
  intros H. exists a, h1. split; [reflexivity|exact H].
Qed.

Lemma lift_Ok (A : Type) (r : res A) h a h' :
  Io.lift r h = (Ok a, h') -> r = Ok a /\ h' = h.
Proof.
  unfold Io.lift. intros H. injection H as H1 H2. split; congruence.
Qed.

Lemma ret_Ok (A : Type) (x : A) h a h' :
  Io.ret x h = (Ok a, h') -> a = x /\ h' = h.
Proof.
  unfold Io.ret. intros H. injection H as H1 H2. split; congruence.
Qed.

End ResFacts.

(** ** The labels and the log of parse_oecd *)

Module OecdLabels.
Import ResFacts PyStr Frame Meta Oecd.
Local Open Scope string_scope.

Lemma set_index_Ok (R R' C : Type) (idx : list R') (f : frame R C) g :
  set_index idx f = Ok g ->
  index g = idx /\ columns g = columns f /\ values g = values f.
Proof.
  unfold set_index. destruct (Nat.eqb _ _); [|discriminate].
  intros H. injection H as <-. cbn. auto.
Qed.

Lemma set_columns_Ok (R C C' : Type) (cols : list C') (f : frame R C) g :
  set_columns cols f = Ok g ->
  index g = index f /\ columns g = cols /\ values g = values f.
Proof.
  unfold set_columns. destruct (Nat.eqb _ _); [|discriminate].
  intros H. injection H as <-. cbn. auto.
Qed.

Lemma aggregate_region_consistent names t co :
  consistent t -> consistent (aggregate_region names t co).
Proof.
  intros (HZ & HY & HF). destruct co as [co_name agg_list].
  unfold aggregate_region.
  destruct (negb (mem co_name names) || (length agg_list =? 0)%nat).
  - repeat split; assumption.
  - unfold consistent, aggregate_cols, aggregate_rows. cbn.
    rewrite HZ, HY, HF, HZ. repeat split.
Qed.

Lemma aggregate_subregions_consistent t :
  consistent t -> consistent (aggregate_subregions t).
Proof.
  intros H. unfold aggregate_subregions. cbn [fold_left].
  now do 2 apply aggregate_region_consistent.
Qed.

(** What [parse_oecd] returns, when it returns: the tables after the
    aggregation, consistent before it, and a log of one entry. *)
Lemma parse_oecd_Ok path oecd_file oecd_file_name csv s :
  parse_oecd path oecd_file oecd_file_name csv = Ok s ->
  exists t,
    consistent t /\
    io_Z s = tab_Z (aggregate_subregions t) /\
    io_Y s = tab_Y (aggregate_subregions t) /\
    ext_F (io_factor_inputs s) = tab_F (aggregate_subregions t) /\
    history (io_meta s) =
      [{| entry_kind := fileio;
          entry_text := "OECD data parsed from " ++ oecd_file;
          entry_amount := None |}].
Proof.
  unfold parse_oecd.
  destruct (findall_4_digits oecd_file_name) as [|y0 [|y1 ys]];
    cbv zeta; intros H;
    repeat (apply bind_Ok in H; destruct H as (? & ? & H));
    injection H as <-; cbn [io_Z io_Y io_factor_inputs ext_F io_meta];
    repeat match goal with
           | E : set_index _ _ = Ok _ |- _ =>
               apply set_index_Ok in E; destruct E as (? & ? & ?)
           | E : set_columns _ _ = Ok _ |- _ =>
               apply set_columns_Ok in E; destruct E as (? & ? & ?)
           end;
    (eexists; split; [|repeat split; reflexivity]);
    unfold consistent; cbn [tab_Z tab_Y tab_F]; repeat split; congruence.
Qed.

Lemma parse_oecd_labels path oecd_file oecd_file_name csv s :
  parse_oecd path oecd_file oecd_file_name csv = Ok s ->
  columns (io_Z s) = index (io_Z s) /\
  index (io_Y s) = index (io_Z s) /\
  columns (ext_F (io_factor_inputs s)) = columns (io_Z s).
Proof.
  intros H. destruct (parse_oecd_Ok _ _ _ _ H) as (t & Ht & -> & -> & -> & _).
  exact (aggregate_subregions_consistent Ht).
Qed.

Lemma parse_oecd_history path oecd_file oecd_file_name csv s :
  parse_oecd path oecd_file oecd_file_name csv = Ok s ->
  history (io_meta s) =
    [{| entry_kind := fileio;
        entry_text := "OECD data parsed from " ++ oecd_file;
        entry_amount := None |}].
Proof.
  intros H. destruct (parse_oecd_Ok _ _ _ _ H) as (t & _ & _ & _ & _ & Hh).
  exact Hh.
Qed.

End OecdLabels.


(** ** The log of parse_eora26 *)

Module EoraLog.
Import ResFacts PyStr Frame Meta Io Eora OecdLabels Provenance.
Local Open Scope string_scope.

Lemma count_add_history k m e :
  count k (add_history m e) =
  count k m + (if kind_eqb (entry_kind e) k then 1 else 0).
Proof.
  unfold count, add_history. cbn [history].
  rewrite filter_app, length_app. cbn [filter].
  destruct (kind_eqb (entry_kind e) k); reflexivity.
Qed.

Lemma count_add_modify k m text amount :
  count k (_add_modify m text amount) =
  count k m + (if kind_eqb modify k then 1 else 0).
Proof. apply count_add_history. Qed.

Lemma count_add_fileio k m text :
  count k (_add_fileio m text) = count k m + (if kind_eqb fileio k then 1 else 0).
Proof. apply count_add_history. Qed.

Lemma count_add_note k m text :
  count k (add_note m text) = count k m + (if kind_eqb note k then 1 else 0).
Proof. apply count_add_history. Qed.

Lemma count_new k a b c d e : count k (Meta.new a b c d e) = 0.
Proof. reflexivity. Qed.

(** The first try block: nothing happens without a column of [row_name];
    with one, the entry carries the sum of the first such column and all of
    them are dropped. *)
Lemma remove_columns_Ok row_name table m f m' f' :
  remove_columns row_name table (m, f) = Ok (m', f') ->
  (existsb (is_row row_name) (columns f) = false /\ m' = m /\ f' = f) \/
  (existsb (is_row row_name) (columns f) = true /\
   exists amount,
     first_sum (filter_cols (is_row row_name) f) = Ok amount /\
     m' = _add_modify m (columns_message row_name table) amount /\
     f' = filter_cols (fun l => negb (is_row row_name l)) f).
Proof.
  unfold remove_columns.
  destruct (existsb (is_row row_name) (columns f)).
  - intros H. apply bind_Ok in H. destruct H as (amount & E & H).
    injection H as <- <-. right. split; [reflexivity|].
    exists amount. auto.
  - intros H. injection H as <- <-. left. auto.
Qed.

Lemma remove_rows_Ok row_name table m f m' f' :
  remove_rows row_name table (m, f) = Ok (m', f') ->
  (existsb (is_row row_name) (index f) = false /\ m' = m /\ f' = f) \/
  (existsb (is_row row_name) (index f) = true /\
   exists amount,
     first_sum (filter_rows (is_row row_name) f) = Ok amount /\
     m' = _add_modify m (rows_message row_name table) amount /\
     f' = filter_rows (fun l => negb (is_row row_name l)) f).
Proof.
  unfold remove_rows.
  destruct (existsb (is_row row_name) (index f)).
  - intros H. apply bind_Ok in H. destruct H as (amount & E & H).
    injection H as <- <-. right. split; [reflexivity|].
    exists amount. auto.
  - intros H. injection H as <- <-. left. auto.
Qed.

(** One table: one entry for the columns and one for the rows of
    [row_name], however many there are of them. *)
Lemma remove_row_count row_name table m f m' f' :
  remove_row row_name table (m, f) = Ok (m', f') ->
  count modify m' =
    count modify m + has row_name (columns f) + has row_name (index f) /\
  count fileio m' = count fileio m.
Proof.
  unfold remove_row. intros H. apply bind_Ok in H.
  destruct H as ([m1 f1] & E1 & E2).
  apply remove_columns_Ok in E1. apply remove_rows_Ok in E2. unfold has.
  destruct E1 as [(Hc & -> & ->)|(Hc & a1 & _ & -> & ->)];
    destruct E2 as [(Hr & -> & ->)|(Hr & a2 & _ & -> & ->)];
    cbn [filter_cols index] in Hr; rewrite Hc, Hr;
    rewrite ?count_add_modify; cbn [kind_eqb]; split; lia.
Qed.


Lemma existsb_filter_negb (A : Type) (p : A -> bool) l :
  existsb p (filter (fun x => negb (p x)) l) = false.
Proof.
  induction l as [|x l IH]; cbn [filter existsb]; [reflexivity|].
  destruct (p x) eqn:E; cbn [negb]; [exact IH|].
  cbn [existsb]. rewrite E. exact IH.
Qed.

(** Afterwards no label of the table belongs to [row_name]. *)
Lemma remove_row_clean row_name table m f m' f' :
  remove_row row_name table (m, f) = Ok (m', f') ->
  existsb (is_row row_name) (columns f') = false /\
  existsb (is_row row_name) (index f') = false.
Proof.
  unfold remove_row. intros H. apply bind_Ok in H.
  destruct H as ([m1 f1] & E1 & E2).
  apply remove_columns_Ok in E1. apply remove_rows_Ok in E2.
  destruct E1 as [(Hc & -> & ->)|(Hc & a1 & _ & -> & ->)];
    destruct E2 as [(Hr & -> & ->)|(Hr & a2 & _ & -> & ->)];
    cbn [filter_cols filter_rows index columns] in *;
    rewrite ?existsb_filter_negb; auto.
Qed.

Lemma labelled_Ok idx cols raw f :
  labelled idx cols raw = Ok f -> index f = idx /\ columns f = cols.
Proof.
  unfold labelled. intros H. apply bind_Ok in H. destruct H as (g & E1 & E2).
  apply set_columns_Ok in E1. apply set_index_Ok in E2.
  destruct E1 as (_ & E1 & _), E2 as (E2 & E3 & _). split; congruence.
Qed.

Section Tables.

Variable extract_unit strip_unit : string -> string.

Ltac step H :=
  apply bind_Ok in H;
  let a := fresh "a" in
  let E := fresh "E" in
  destruct H as (a & E & H).

Lemma label_tables_count country_names row_name m d s :
  label_tables extract_unit strip_unit country_names row_name m d = Ok s ->
  count modify (io_meta s) =
    count modify m + row_axes strip_unit country_names row_name d /\
  count fileio (io_meta s) = count fileio m.
Proof.
  unfold label_tables, row_axes, labels_of. intros H.
  step H. rewrite E. step H. rewrite E0. step H. rewrite E1.
  step H. rewrite E2.
  step H. apply labelled_Ok in E3. destruct E3 as [iZ cZ].
  step H. destruct a4 as [m1 Z']. apply remove_row_count in E3.
  step H. apply labelled_Ok in E4. destruct E4 as [iQ cQ].
  step H. destruct a5 as [m2 Q']. apply remove_row_count in E4.
  step H. apply labelled_Ok in E5. destruct E5 as [iQY cQY].
  step H. destruct a6 as [m3 QY']. apply remove_row_count in E5.
  step H. apply labelled_Ok in E6. destruct E6 as [iVA cVA].
  step H. destruct a7 as [m4 VA']. apply remove_row_count in E6.
  step H. apply labelled_Ok in E7. destruct E7 as [iY cY].
  step H. destruct a8 as [m5 Y']. apply remove_row_count in E7.
  step H. injection H as <-. cbn [io_meta].
  rewrite !count_add_note. cbn [kind_eqb].
  rewrite iZ, cZ in E3. rewrite iQ, cQ in E4. rewrite iQY, cQY in E5.
  rewrite iVA, cVA in E6. rewrite iY, cY in E7.
  destruct E3, E4, E5, E6, E7. split; lia.
Qed.


End Tables.

Section Parser.

Variable listdir : string -> list string.
Variable is_zip_archive : string -> bool.
Variable read_member_numbers : string -> string -> res (list (list fl)).
Variable read_member_labels : string -> string -> res (list (list string)).
Variable read_file_numbers : string -> res (list (list fl)).
Variable read_file_labels : string -> res (list (list string)).
Variable extract_unit strip_unit : string -> string.

Let parser :=
  parse_eora26 listdir is_zip_archive read_member_numbers read_member_labels
    read_file_numbers read_file_labels extract_unit strip_unit.

Let loader :=
  load is_zip_archive read_member_numbers read_member_labels
    read_file_numbers read_file_labels.

(** What [parse_eora26] does when it returns: the files are read, one
    fileio entry is written for all of them, and the tables are labelled. *)
Lemma parse_eora26_Ok path year price country_names h0 s h :
  parser path year price country_names h0 = (Ok s, h) ->
  exists cn y p eora_loc root_path is_zip d,
    locate_eora listdir path year price = Ok (y, p, eora_loc, root_path, is_zip) /\
    loader is_zip eora_loc y p h0 = (Ok d, h) /\
    label_tables extract_unit strip_unit cn "ROW"
      (_add_fileio (Meta.new (Some root_path) None None None None)
         ("Eora26 for " ++ y ++ "-" ++ p ++ " data parsed from " ++ eora_loc))
      d = Ok s.
Proof.
  unfold parser, parse_eora26. intros H.
  apply seq_Ok in H. destruct H as (cn & h1 & E1 & H).
  apply lift_Ok in E1. destruct E1 as [_ ->].
  apply seq_Ok in H. destruct H as (loc & h2 & E2 & H).
  apply lift_Ok in E2. destruct E2 as [E2 ->].
  destruct loc as [[[[y p] eora_loc] root_path] is_zip].
  apply seq_Ok in H. destruct H as (d & h3 & E3 & H).
  apply lift_Ok in H. destruct H as [H ->].
  exists cn, y, p, eora_loc, root_path, is_zip, d. auto.
Qed.


(** The nine files leave one fileio entry. *)
Lemma parse_eora26_fileio path year price country_names h0 s h :
  parser path year price country_names h0 = (Ok s, h) ->
  count fileio (io_meta s) = 1.
Proof.
  intros H. apply parse_eora26_Ok in H.
  destruct H as (cn & y & p & eora_loc & root_path & is_zip & d & _ & _ & H).
  apply label_tables_count in H. destruct H as [_ H]. rewrite H.
  rewrite count_add_fileio. reflexivity.
Qed.

(** On the way that returns, the archive opened is closed again. *)
Lemma load_Ok is_zip eora_loc y p h0 d h :
  loader is_zip eora_loc y p h0 = (Ok d, h) ->
  h = if is_zip then remove_first eora_loc (eora_loc :: h0) else h0.
Proof.
  unfold loader, load. destruct is_zip.
  - intros H. apply seq_Ok in H. destruct H as (u & h1 & E1 & H).
    unfold zip_open in E1. destruct (is_zip_archive eora_loc); [|discriminate].
    injection E1 as _ <-.
    apply seq_Ok in H. destruct H as (d' & h2 & E2 & H).
    apply lift_Ok in E2. destruct E2 as [_ ->].
    apply seq_Ok in H. destruct H as (u' & h3 & E3 & H).
    unfold zip_close in E3. injection E3 as _ <-.
    apply ret_Ok in H. destruct H as [_ ->]. reflexivity.
  - intros H. apply lift_Ok in H. destruct H as [_ ->]. reflexivity.
Qed.

Lemma remove_first_head name h : remove_first name (name :: h) = h.
Proof. cbn [remove_first]. now rewrite String.eqb_refl. Qed.

Lemma parse_eora26_closes path year price country_names h0 s h :
  parser path year price country_names h0 = (Ok s, h) -> h = h0.
Proof.
  intros H. apply parse_eora26_Ok in H.
  destruct H as (cn & y & p & eora_loc & root_path & is_zip & d & _ & H & _).
  apply load_Ok in H. rewrite H. destruct is_zip; [apply remove_first_head|].
  reflexivity.
Qed.

End Parser.

End EoraLog.


(** ** The provenance log *)

Module ProvenanceClaims.
Import ResFacts PyStr Frame Meta Io OecdLabels EoraLog Provenance.
Local Open Scope string_scope.




(** The nine files of the small Eora archive leave one fileio entry; ROW is
    met on both axes of Z and Y and on the columns of Q, QY and VA, which
    gives seven modify entries; and the entry for the rows of ROW in Z
    carries the cell of the first column only (3 of a row 3, 4). *)
Lemma eora_nine_files_one_entry :
  exists eora,
    Io.run (Eora.parse_archive Eora.small_numbers Eora.small_labels
              "/data/Eora26_2010_bp.zip") = (Ok eora, []) /\
    count fileio (Eora.io_meta eora) = 1 /\
    count modify (Eora.io_meta eora) = 7 /\
    map entry_kind (history (Eora.io_meta eora)) =
      [fileio; modify; modify; modify; modify; modify; modify; modify; note]
    /\
    nth 1 (map entry_amount (history (Eora.io_meta eora))) None =
      Some (Fin (Q2Qc 6)) /\
    nth 2 (map entry_amount (history (Eora.io_meta eora))) None =
      Some (Fin (Q2Qc 3)).
Proof.
  eexists. split; [vm_compute; reflexivity|].
  vm_compute. repeat split; repeat f_equal; apply Qc_is_canon; reflexivity.
Qed.

End ProvenanceClaims.


(** ** The tables of parse_wiod *)

Module WiodFacts.
Import ResFacts PyStr Frame Meta Io Wiod.
Local Open Scope string_scope.

Lemma bind_Raise (A B : Type) (c : res A) (k : A -> res B) e :
  bind c k = Raise e ->
  c = Raise e \/ exists a, c = Ok a /\ k a = Raise e.
Proof.
  destruct c as [a|e']; cbn [bind]; intros H.
  - right. exists a. auto.
  - left. injection H as ->. reflexivity.
Qed.

Lemma last_label_Raise idx e : last_label idx = Raise e -> e = IndexError.
Proof.
  unfold last_label. destruct (rev idx); [|discriminate].
  intros H. now injection H.
Qed.

(** The two marks are read from the same column: when both are found they
    are the same row. *)
Lemma marks_equal g c r : _lastZcol g = Ok c -> _lastZrow g = Ok r -> c = r.
Proof.
  unfold _lastZcol, _lastZrow.
  destruct (ncols g <=? wiot_header_c_code)%nat; [discriminate|].
  intros H1 H2. rewrite H1 in H2. now injection H2.
Qed.

Lemma Zshape_Ok g r c : Zshape g = Ok (r, c) -> r = c.
Proof.
  unfold Zshape. intros H.
  apply bind_Ok in H. destruct H as (c' & E1 & H).
  apply bind_Ok in H. destruct H as (r' & E2 & H).
  destruct (negb (c' =? r')%nat); [discriminate|].
  injection H as <- <-. symmetry. exact (marks_equal _ E1 E2).
Qed.

(** The check of the two marks cannot fail. *)
Lemma Zshape_Raise g e : Zshape g = Raise e -> e = IndexError.
Proof.
  unfold Zshape. intros H.
  apply bind_Raise in H. destruct H as [H|(c & E1 & H)].
  - unfold _lastZcol in H.
    destruct (ncols g <=? wiot_header_c_code)%nat.
    + now injection H.
    + exact (last_label_Raise _ H).
  - apply bind_Raise in H. destruct H as [H|(r & E2 & H)].
    + unfold _lastZcol in E1. unfold _lastZrow in H.
      destruct (ncols g <=? wiot_header_c_code)%nat; [discriminate|].
      exact (last_label_Raise _ H).
    + rewrite (marks_equal _ E1 E2), Nat.eqb_refl in H. discriminate.
Qed.

Section Sheet.

Variable str_of_float : fl -> string.
Variable float_of_str : string -> option fl.

Lemma map_res_Ok (A B : Type) (f : A -> res B) l l' :
  map_res f l = Ok l' -> length l' = length l.
Proof.
  revert l'. induction l as [|a l IH]; cbn [map_res]; intros l' H.
  - now injection H as <-.
  - apply bind_Ok in H. destruct H as (b & _ & H).
    apply bind_Ok in H. destruct H as (bs & E & H).
    injection H as <-. cbn [length]. now rewrite (IH bs).
Qed.

Lemma map_res_Raise (A B : Type) (f : A -> res B) (P : exn -> Prop) l e :
  (forall a e, f a = Raise e -> P e) -> map_res f l = Raise e -> P e.
Proof.
  intros Hf. induction l as [|a l IH]; cbn [map_res]; [discriminate|].
  intros H. apply bind_Raise in H. destruct H as [H|(b & _ & H)].
  - exact (Hf _ _ H).
  - apply bind_Raise in H. destruct H as [H|(bs & _ & H)].
    + exact (IH H).
    + discriminate.
Qed.

Lemma to_float_Raise c e : to_float float_of_str c = Raise e -> e = ValueError.
Proof.
  unfold to_float. destruct c as [s|x]; [|discriminate].
  destruct (float_of_str s); [discriminate|]. intros H. now injection H.
Qed.

Lemma astype_float_Raise (R C : Type) (idx : list R) (cols : list C) rows e :
  astype_float float_of_str idx cols rows = Raise e -> e = ValueError.
Proof.
  unfold astype_float. intros H.
  apply bind_Raise in H. destruct H as [H|(v & _ & H)]; [|discriminate].
  apply (@map_res_Raise _ _ (map_res (to_float float_of_str))
           (fun e => e = ValueError) rows e); [|exact H].
  intros row e' H'.
  apply (@map_res_Raise _ _ (to_float float_of_str)
           (fun e => e = ValueError) row e'); [|exact H'].
  exact to_float_Raise.
Qed.

Lemma astype_float_Ok (R C : Type) (idx : list R) (cols : list C) rows f :
  astype_float float_of_str idx cols rows = Ok f ->
  index f = idx /\ columns f = cols.
Proof.
  unfold astype_float. intros H. apply bind_Ok in H.
  destruct H as (v & _ & H). injection H as <-. cbn. auto.
Qed.

Lemma meta_text_Raise g row e0 e :
  meta_text g row e0 = Raise e -> e = IndexError \/ e = e0.
Proof.
  unfold meta_text, iloc. intros H.
  apply bind_Raise in H. destruct H as [H|(c & _ & H)].
  - left. destruct (nth_error g row) as [r|]; [|now injection H].
    destruct (nth_error r wiot_meta_col); [discriminate|]. now injection H.
  - right. destruct c; [discriminate|]. now injection H.
Qed.

Ltac raised H :=
  apply bind_Raise in H;
  let a := fresh "a" in
  let E := fresh "E" in
  destruct H as [H|(a & E & H)].

(** The exceptions the work on the sheet may raise. *)
Lemma cut_tables_Raise g e :
  cut_tables str_of_float float_of_str g = Raise e ->
  e = IndexError \/ e = TypeError \/ e = AttributeError \/ e = ValueError.
Proof.
  unfold cut_tables. intros H.
  raised H. { apply meta_text_Raise in H. tauto. }
  raised H. { apply meta_text_Raise in H. tauto. }
  raised H. { apply meta_text_Raise in H. tauto. }
  raised H.
  { match type of H with (if ?b then _ else _) = _ => destruct b end;
      [injection H; auto|discriminate]. }
  raised H.
  { match type of H with (if ?b then _ else _) = _ => destruct b end;
      [injection H; auto|discriminate]. }
  raised H. { apply Zshape_Raise in H. auto. }
  match goal with a : (nat * nat)%type |- _ => destruct a as [r c] end.
  raised H.
  { match type of H with (if ?b then _ else _) = _ => destruct b end;
      [injection H; auto|discriminate]. }
  raised H.
  { match type of H with (if ?b then _ else _) = _ => destruct b end;
      [discriminate|injection H; auto]. }
  raised H. { apply astype_float_Raise in H. auto. }
  raised H. { apply astype_float_Raise in H. auto. }
  raised H. { apply astype_float_Raise in H. auto. }
  raised H. { apply astype_float_Raise in H. auto. }
  raised H.
  { match type of H with match ?l with _ => _ end = _ => destruct l end;
      [injection H; auto|discriminate]. }
  discriminate.
Qed.

Ltac step H :=
  apply bind_Ok in H;
  let a := fresh "a" in
  let E := fresh "E" in
  destruct H as (a & E & H).

(** The tables cut out of the sheet carry the same labels: Z on rows and
    columns, Y on its rows, the factor inputs on their columns and, with the
    final demand of the factor inputs, the columns of Y. *)
Lemma cut_tables_Ok g t :
  cut_tables str_of_float float_of_str g = Ok t ->
  columns (tab_Z t) = index (tab_Z t) /\
  index (tab_Y t) = index (tab_Z t) /\
  columns (tab_F_fac t) = columns (tab_Z t) /\
  columns (tab_F_Y_fac t) = columns (tab_Y t) /\
  index (tab_F_Y_fac t) = index (tab_F_fac t).
Proof.
  unfold cut_tables. intros H.
  do 6 step H.
  match goal with a : (nat * nat)%type |- _ => destruct a as [r c] end.
  do 7 step H. injection H as <-. cbn [tab_Z tab_Y tab_F_fac tab_F_Y_fac].
  repeat match goal with
         | E : astype_float _ _ _ _ = Ok _ |- _ =>
             apply astype_float_Ok in E; destruct E
         end.
  unfold key in *.
  repeat match goal with
         | E : index _ = _ |- _ => rewrite E; clear E
         | E : columns _ = _ |- _ => rewrite E; clear E
         end.
  repeat split; reflexivity.
Qed.

End Sheet.

End WiodFacts.


(** ** The system parse_wiod returns *)

Module WiodSystem.
Import ResFacts PyStr Frame Meta Io Wiod WiodFacts.
Local Open Scope string_scope.

Section Parser.

Variable str_of_float : fl -> string.
Variable float_of_str : string -> option fl.
Variable listdir : string -> list string.
Variable namelist : string -> list string.
Variable is_zip_archive : string -> bool.
Variable excel_member : string -> string -> res workbook.
Variable excel_file : string -> res workbook.
Variable sea_extension :
  string -> string -> option (frame cell key * list (cell * option cell)).

Let env_loop :=
  env_extensions str_of_float listdir namelist is_zip_archive excel_member
    excel_file.

Let parser :=
  parse_wiod str_of_float float_of_str listdir namelist is_zip_archive
    excel_member excel_file sea_extension.

(** The loop over the environmental extensions only adds extensions. *)
Lemma env_extensions_Ok root_path year ll_co paras m ext h m' ext' h' :
  env_loop root_path year ll_co paras (m, ext) h = (Ok (m', ext'), h') ->
  exists more, ext' = (ext ++ more)%list.
Proof.
  unfold env_loop. revert m ext h.
  induction paras as [|[ik p] paras IH]; intros m ext h; cbn [env_extensions].
  - intros H. apply ret_Ok in H. destruct H as [H _].
    injection H as _ <-. exists []. now rewrite app_nil_r.
  - intros H. apply seq_Ok in H. destruct H as ([ex|] & h1 & _ & H).
    + apply IH in H. destruct H as (more & ->).
      eexists. rewrite <- app_assoc. reflexivity.
    + exact (IH _ _ _ H).
Qed.

(** What [parse_wiod] returns, when it returns: the tables cut out of the
    sheet, renamed, the factor inputs being the first extension. *)
Lemma parse_wiod_Ok root_path wiot_file wiot_data names h0 s h :
  parser root_path wiot_file wiot_data names h0 = (Ok s, h) ->
  exists t dd_sec dd_fd fi more,
    cut_tables str_of_float float_of_str wiot_data = Ok t /\
    io_Z s = rename_index dd_sec (rename_columns dd_sec (tab_Z t)) /\
    io_Y s = rename_index dd_sec (rename_columns dd_fd (tab_Y t)) /\
    io_extensions s = ("factor_inputs", fi) :: more /\
    ext_F fi = rename_columns dd_sec (tab_F_fac t) /\
    ext_F_Y fi = Some (rename_columns dd_fd (tab_F_Y_fac t)).
Proof.
  unfold parser, parse_wiod. intros H.
  apply seq_Ok in H. destruct H as (t & h1 & E & H).
  apply lift_Ok in E. destruct E as [E ->].
  destruct (sea_extension root_path (wiot_year t)) as [[F_sea u_sea]|];
    apply seq_Ok in H; destruct H as ([m' ext'] & h2 & Eenv & H);
    apply env_extensions_Ok in Eenv; destruct Eenv as (more & ->);
    apply lift_Ok in H; destruct H as [H ->];
    apply bind_Ok in H; destruct H as (n0 & _ & H);
    apply bind_Ok in H; destruct H as (n1 & _ & H);
    apply bind_Ok in H; destruct H as (dd_fd & _ & H);
    injection H as <-; cbn [io_Z io_Y io_extensions app map fst snd];
    exists t; eexists; exists dd_fd; eexists; eexists;
    (split; [exact E|]); repeat split; reflexivity.
Qed.

(** The labels after the renaming. *)
Lemma parse_wiod_labels root_path wiot_file wiot_data names h0 s h :
  parser root_path wiot_file wiot_data names h0 = (Ok s, h) ->
  columns (io_Z s) = index (io_Z s) /\
  index (io_Y s) = index (io_Z s) /\
  exists fi more,
    io_extensions s = ("factor_inputs", fi) :: more /\
    columns (ext_F fi) = columns (io_Z s).
Proof.
  intros H. apply parse_wiod_Ok in H.
  destruct H as (t & dd_sec & dd_fd & fi & more & Ht & -> & -> & He & HF & _).
  apply cut_tables_Ok in Ht. destruct Ht as (HZ & HY & HFc & _).
  cbn [rename_index rename_columns index columns].
  rewrite HZ, HY. repeat split.
  exists fi, more. split; [exact He|].
  rewrite HF. cbn [rename_columns columns]. now rewrite HFc, HZ.
Qed.

(** The archive of an environmental extension is closed again when the
    extension is returned. *)
Lemma env_extension_Some root_path year ll_co p h0 ex h :
  __get_WIOD_env_extension str_of_float listdir namelist is_zip_archive
    excel_member excel_file root_path year ll_co p h0 = (Ok (Some ex), h) ->
  h = h0.
Proof.
  unfold __get_WIOD_env_extension.
  destruct (filter (startswith (para_start p)) (listdir root_path))
    as [|found [|? ?]].
  - intros H. apply ret_Ok in H. destruct H as [H _]. discriminate.
  - intros H. apply seq_Ok in H. destruct H as (content & h1 & E1 & H).
    apply seq_Ok in H. destruct H as (read_all & h2 & E2 & H).
    apply lift_Ok in E2. destruct E2 as [_ ->].
    destruct read_all as [[unit tables]|].
    + apply seq_Ok in H. destruct H as (u & h3 & E3 & H).
      apply ret_Ok in H. destruct H as [_ ->].
      destruct (endswith ".zip" (path_join root_path found)).
      * apply seq_Ok in E1. destruct E1 as (u1 & h4 & E0 & E1).
        apply ret_Ok in E1. destruct E1 as [_ ->].
        unfold zip_open in E0.
        destruct (is_zip_archive (path_join root_path found)); [|discriminate].
        injection E0 as _ <-. unfold zip_close in E3. injection E3 as _ <-.
        cbn [remove_first]. now rewrite String.eqb_refl.
      * apply ret_Ok in E1. destruct E1 as [_ ->].
        apply ret_Ok in E3. destruct E3 as [_ ->]. reflexivity.
    + apply ret_Ok in H. destruct H as [H _]. discriminate.
  - intros H. apply lift_Ok in H. destruct H as [H _]. discriminate.
Qed.

End Parser.

End WiodSystem.


(** ** The labels of the systems returned *)

Module LabelClaims.
Import ResFacts PyStr Frame Meta Io OecdLabels WiodFacts WiodSystem.
Local Open Scope string_scope.

(** C1, as the code has it.  A system returned by [parse_oecd] (after the
    aggregation of the sub-regions) or by [parse_wiod] (after the renaming)
    has on the columns of Z the labels of its rows, on the rows of Y the
    labels of the rows of Z, and on the columns of F of the factor-input
    extension the labels of the columns of Z.  Nothing is said of the other
    extensions of [parse_wiod], whose columns come from the extension
    files. *)
Theorem index_consistency
    (path oecd_file oecd_file_name : string) (csv : frame string string)
    (oecd : Oecd.iosystem)
    (str_of_float : fl -> string) (float_of_str : string -> option fl)
    (listdir namelist : string -> list string)
    (is_zip_archive : string -> bool)
    (excel_member : string -> string -> res Wiod.workbook)
    (excel_file : string -> res Wiod.workbook)
    (sea_extension :
       string -> string ->
       option (frame Wiod.cell Wiod.key
               * list (Wiod.cell * option Wiod.cell)))
    (root_path wiot_file : string) (wiot_data : Wiod.grid)
    (names : string * string) (h0 h : handles) (wiod : Wiod.iosystem) :
  Oecd.parse_oecd path oecd_file oecd_file_name csv = Ok oecd ->
  Wiod.parse_wiod str_of_float float_of_str listdir namelist is_zip_archive
    excel_member excel_file sea_extension root_path wiot_file wiot_data
    names h0 = (Ok wiod, h) ->
  (columns (Oecd.io_Z oecd) = index (Oecd.io_Z oecd) /\
   index (Oecd.io_Y oecd) = index (Oecd.io_Z oecd) /\
   columns (Oecd.ext_F (Oecd.io_factor_inputs oecd))
     = columns (Oecd.io_Z oecd)) /\
  (columns (Wiod.io_Z wiod) = index (Wiod.io_Z wiod) /\
   index (Wiod.io_Y wiod) = index (Wiod.io_Z wiod) /\
   exists factor_inputs more,
     Wiod.io_extensions wiod = ("factor_inputs", factor_inputs) :: more /\
     columns (Wiod.ext_F factor_inputs) = columns (Wiod.io_Z wiod)).
Proof.
  intros Hoecd Hwiod. split.
  - exact (parse_oecd_labels _ _ _ _ Hoecd).
  - exact (parse_wiod_labels _ _ _ _ _ _ _ _ _ _ _ _ _ Hwiod).
Qed.

(** The small OECD table, and the small wiot sheet with the air emission
    accounts of its two sectors. *)
Lemma index_consistency_witness :
  exists oecd wiod,
    Oecd.parse_oecd "/d" "/d/ICIO2018_2011.csv" "ICIO2018_2011.csv"
      Oecd.small_csv = Ok oecd /\
    Io.run (Wiod.parse_small ["secAtB"; "secC"; "secTOT"; "FC_HH"; "total"]
              (Wiod.small_wiot "Input-Output Table for 2009"))
      = (Ok wiod, []) /\
    columns (Oecd.io_Z oecd) = index (Oecd.io_Z oecd) /\
    columns (Wiod.io_Z wiod) = index (Wiod.io_Z wiod) /\
    index (Wiod.io_Y wiod) = index (Wiod.io_Z wiod).
Proof.
  eexists. eexists.
  split; [vm_compute; reflexivity|].
  split; [vm_compute; reflexivity|].
  match goal with
  | |- columns (Oecd.io_Z ?o) = _ /\ columns (Wiod.io_Z ?w) = _ /\ _ =>
      destruct (@index_consistency "/d" "/d/ICIO2018_2011.csv"
                  "ICIO2018_2011.csv" Oecd.small_csv o
                  (fun _ => "nan") (fun _ => None)
                  Wiod.small_listdir Wiod.small_namelist (fun _ => true)
                  (fun _ _ => Ok (Wiod.air_workbook
                     ["secAtB"; "secC"; "secTOT"; "FC_HH"; "total"]))
                  (fun _ => Raise FileNotFoundError) (fun _ _ => None)
                  "/wiod" "/wiod/wiot09_row_sep12.xlsx"
                  (Wiod.small_wiot "Input-Output Table for 2009")
                  ("isic", "isic") [] [] w)
        as ((H1 & _ & _) & (H2 & H3 & _))
  end.
  - vm_compute. reflexivity.
  - vm_compute. reflexivity.
  - split; [exact H1|]. split; [exact H2|exact H3].
Defined.

(** C1 as stated fails.  The sheet of the air emission accounts lists a third
    sector, E, that the wiot sheet does not have: [parse_wiod] returns the
    system, and the columns of F of the extension AIR are those of the sheet,
    not those of Z. *)
Lemma extension_columns_from_file :
  exists wiod air,
    Io.run (Wiod.parse_small ["secAtB"; "secC"; "secE"; "FC_HH"]
              (Wiod.small_wiot "Input-Output Table for 2009"))
      = (Ok wiod, []) /\
    In ("AIR", air) (Wiod.io_extensions wiod) /\
    columns (Wiod.io_Z wiod) =
      [(Wiod.Txt "USA", Wiod.Txt "AtB"); (Wiod.Txt "USA", Wiod.Txt "C")] /\
    columns (Wiod.ext_F air) =
      [(Wiod.Txt "USA", Wiod.Txt "AtB"); (Wiod.Txt "USA", Wiod.Txt "C");
       (Wiod.Txt "USA", Wiod.Txt "E")] /\
    columns (Wiod.ext_F air) <> columns (Wiod.io_Z wiod).
Proof.
  eexists. eexists.
  split; [vm_compute; reflexivity|].
  split; [cbn [Wiod.io_extensions In]; right; left; reflexivity|].
  split; [reflexivity|]. split; [reflexivity|].
  cbn [Wiod.ext_F Wiod.io_Z columns]. discriminate.
Qed.

End LabelClaims.

(** ** The check of the shape of the interindustry block *)

Module ShapeClaims.
Import ResFacts PyStr Frame Meta Io WiodFacts WiodSystem.
Local Open Scope string_scope.

(** C8 does not hold of the code.  The mark of the last column and the mark
    of the last row are both the last row that has c35 in the column of the
    c_codes, so the error of the check is never raised by the work on the
    sheet; and on the sheet whose block of sectors has two rows and three
    columns [parse_wiod] returns a system with a Z of two rows and two
    columns, the third column of intermediate use standing among the final
    demand. *)
Theorem symmetry_check_cannot_fail :
  (forall str_of_float float_of_str wiot_data,
     Wiod.cut_tables str_of_float float_of_str wiot_data
       <> Raise Wiod.not_symmetric) /\
  exists wiod,
    Io.run (Wiod.parse_small ["secAtB"; "secC"; "FC_HH"] Wiod.nonsquare_wiot)
      = (Ok wiod, []) /\
    index (Wiod.io_Z wiod) =
      [(Wiod.Txt "USA", Wiod.Txt "AtB"); (Wiod.Txt "USA", Wiod.Txt "C")] /\
    columns (Wiod.io_Z wiod) = index (Wiod.io_Z wiod) /\
    columns (Wiod.io_Y wiod) =
      [(Wiod.Txt "USA", Wiod.Txt "c35"); (Wiod.Txt "USA", Wiod.Txt "c37")].
Proof.
  split.
  - intros str_of_float float_of_str wiot_data H.
    apply cut_tables_Raise in H.
    destruct H as [H|[H|[H|H]]]; discriminate H.
  - eexists. split; [vm_compute; reflexivity|]. repeat split.
Qed.

End ShapeClaims.

(** ** The archives left open *)

Module ArchiveClaims.
Import ResFacts PyStr Frame Meta Io EoraLog WiodFacts WiodSystem.
Local Open Scope string_scope.

(** C9 does not hold of the code.  When the workbook of a country has no
    sheet for the year, [__get_WIOD_env_extension] returns None with the
    archive still open, and [parse_wiod] returns its system with it open;
    when the row FC_HH is missing the KeyError leaves it open; and when a
    member is missing from the Eora archive the KeyError of [parse_eora26]
    leaves that archive open.  Both functions close the archive on the way
    that returns the data. *)
Theorem archives_left_open :
  Io.run (Wiod.air_extension ["secAtB"; "secC"; "FC_HH"] "2010")
    = (Ok None, ["/wiod/AIR_may12.zip"]) /\
  Io.run (Wiod.air_extension ["secAtB"; "secC"] "2009")
    = (Raise KeyError, ["/wiod/AIR_may12.zip"]) /\
  (exists wiod,
     Io.run (Wiod.parse_small ["secAtB"; "secC"; "FC_HH"]
               (Wiod.small_wiot "Input-Output Table for 2010"))
       = (Ok wiod, ["/wiod/AIR_may12.zip"])) /\
  Io.run (Eora.parse_archive Eora.small_numbers Eora.short_labels
            "/data/Eora26_2010_bp.zip")
    = (Raise KeyError, ["/data/Eora26_2010_bp.zip"]) /\
  (exists air,
     Io.run (Wiod.air_extension ["secAtB"; "secC"; "FC_HH"] "2009")
       = (Ok (Some air), [])) /\
  (exists eora,
     Io.run (Eora.parse_archive Eora.small_numbers Eora.small_labels
               "/data/Eora26_2010_bp.zip") = (Ok eora, [])).
Proof.
  split; [vm_compute; reflexivity|].
  split; [vm_compute; reflexivity|].
  split; [eexists; vm_compute; reflexivity|].
  split; [vm_compute; reflexivity|].
  split; eexists; vm_compute; reflexivity.
Qed.

End ArchiveClaims.


(** ** More on parse_eora26 *)

Module EoraTables.
Import ResFacts PyStr Frame Meta Io Eora OecdLabels EoraLog.
Local Open Scope string_scope.

Lemma filter_nothing (A : Type) (p : A -> bool) l :
  existsb p l = false -> filter (fun x => negb (p x)) l = l.
Proof.
  induction l as [|x l IH]; cbn [existsb filter]; [reflexivity|].
  intros H. apply orb_false_iff in H. destruct H as [Hx Hl].
  rewrite Hx. cbn [negb]. now rewrite IH.
Qed.

(** The labels one table keeps: those that do not belong to [row_name]. *)
Lemma remove_row_labels row_name table m f m' f' :
  remove_row row_name table (m, f) = Ok (m', f') ->
  index f' = filter (fun l => negb (is_row row_name l)) (index f) /\
  columns f' = filter (fun l => negb (is_row row_name l)) (columns f).
Proof.
  unfold remove_row. intros H. apply bind_Ok in H.
  destruct H as ([m1 f1] & E1 & E2).
  apply remove_columns_Ok in E1. apply remove_rows_Ok in E2.
  destruct E1 as [(Hc & -> & ->)|(Hc & a1 & _ & -> & ->)];
    destruct E2 as [(Hr & -> & ->)|(Hr & a2 & _ & -> & ->)];
    cbn [filter_cols filter_rows index columns] in *;
    rewrite ?(filter_nothing _ _ Hc), ?(filter_nothing _ _ Hr); auto.
Qed.

Section Tables.

Variable extract_unit strip_unit : string -> string.

Ltac step H :=
  apply bind_Ok in H;
  let a := fresh "a" in
  let E := fresh "E" in
  destruct H as (a & E & H).

Ltac table H :=
  step H;
  match goal with
  | E : labelled _ _ _ = Ok _ |- _ =>
      apply labelled_Ok in E; destruct E as [? ?]
  end;
  step H;
  match goal with
  | a : (MRIOMetaData * frame label label)%type |- _ => destruct a as [? ?]
  end;
  match goal with
  | E : remove_row _ _ _ = Ok _ |- _ =>
      apply remove_row_labels in E; destruct E as [? ?]
  end.

(** The labels of the five tables: what is left of the label files once the
    labels of [row_name] are taken out. *)
Lemma label_tables_labels country_names row_name m d s :
  label_tables extract_unit strip_unit country_names row_name m d = Ok s ->
  exists lZ lY lQ lVA QY,
    let keep := filter (fun l => negb (is_row row_name l)) in
    ext_F_Y (io_Q s) = Some QY /\
    index (io_Z s) = keep lZ /\ columns (io_Z s) = keep lZ /\
    index (io_Y s) = keep lZ /\ columns (io_Y s) = keep lY /\
    index (ext_F (io_Q s)) = keep lQ /\ columns (ext_F (io_Q s)) = keep lZ /\
    index QY = keep lQ /\ columns QY = keep lY /\
    index (ext_F (io_VA s)) = keep lVA /\
    columns (ext_F (io_VA s)) = keep lZ.
Proof.
  unfold label_tables. intros H.
  step H. step H. step H. step H.
  table H. table H. table H. table H. table H.
  step H. injection H as <-.
  cbn [io_Z io_Y io_Q io_VA ext_F ext_F_Y].
  eexists a, a0, _, a1, _. cbv zeta.
  split; [reflexivity|].
  repeat match goal with
         | E : index _ = _ |- _ => rewrite E; clear E
         | E : columns _ = _ |- _ => rewrite E; clear E
         end.
  repeat split; reflexivity.
Qed.

End Tables.

End EoraTables.

Module EoraProperties.
Import ResFacts PyStr Frame Meta Io Eora OecdLabels EoraLog EoraTables.
Local Open Scope string_scope.

Section Parser.

Variable listdir : string -> list string.
Variable is_zip_archive : string -> bool.
Variable read_member_numbers : string -> string -> res (list (list fl)).
Variable read_member_labels : string -> string -> res (list (list string)).
Variable read_file_numbers : string -> res (list (list fl)).
Variable read_file_labels : string -> res (list (list string)).
Variable extract_unit strip_unit : string -> string.

Let parser :=
  parse_eora26 listdir is_zip_archive read_member_numbers read_member_labels
    read_file_numbers read_file_labels extract_unit strip_unit.

(** X1.  A [country_names] whose first letter is neither e nor f, in either
    case, is refused with a ParserError before anything is looked up or
    opened. *)
Theorem country_names_checked path year price country_names c h0 :
  String.get 0 country_names = Some c ->
  lower_ascii c <> "e"%char -> lower_ascii c <> "f"%char ->
  parser path year price country_names h0 =
    (Raise (ParserError "Parameter country_names must be Eora or full"), h0).
Proof.
  intros Hc He Hf. unfold parser, parse_eora26, Io.seq, lift. rewrite Hc.
  apply Ascii.eqb_neq in He, Hf. rewrite He, Hf. reflexivity.
Qed.

(** X2.  When [path] names a zip file, the parameters year and price are not
    used: the call gives the same result, and leaves the same archives open,
    whatever they are. *)
Theorem zip_path_ignores_year_and_price
    path year price year' price' country_names h0 :
  has_ext ".zip" path = true ->
  parser path year price country_names h0 =
  parser path year' price' country_names h0.
Proof.
  intros Hz. unfold parser, parse_eora26, locate_eora. rewrite Hz.
  reflexivity.
Qed.

(** X3.  A zip file whose name, of ASCII characters, holds no four digits in
    a row, or neither bp nor pp, ends the call with an AttributeError, and
    no archive is opened. *)
Theorem zip_name_without_year_or_price
    path year price country_names c h0 :
  String.get 0 country_names = Some c ->
  lower_ascii c = "e"%char \/ lower_ascii c = "f"%char ->
  has_ext ".zip" path = true ->
  is_ascii (basename path) = true ->
  Oecd.findall_4_digits (basename path) = [] \/
  search_bp_pp (basename path) = None ->
  parser path year price country_names h0 = (Raise AttributeError, h0).
Proof.
  intros Hc Hcn Hz _ Hname.
  unfold parser, parse_eora26, Io.seq, lift, locate_eora.
  rewrite Hc, Hz.
  assert (Hloc :
    match hd_error (Oecd.findall_4_digits (basename path)),
          search_bp_pp (basename path) with
    | Some y, Some p => Ok (y, p, path, dirname path, true)
    | _, _ => Raise AttributeError
    end = Raise AttributeError).
  { destruct Hname as [-> | ->]; cbn [hd_error]; [reflexivity|].
    destruct (hd_error _); reflexivity. }
  destruct Hcn as [-> | Hf].
  - cbn [Ascii.eqb Bool.eqb]. rewrite Hloc. reflexivity.
  - destruct (Ascii.eqb (lower_ascii c) "e"); rewrite ?Hf;
      cbn [Ascii.eqb Bool.eqb]; rewrite Hloc; reflexivity.
Qed.

(** X4.  In a folder, or in its sub-folder named after the year when there
    is one, that holds more than one zip file with the year and the price in
    its name, the call ends with a ParserError and no archive is opened. *)
Theorem several_archives_refused path year price country_names c h0 :
  String.get 0 country_names = Some c ->
  lower_ascii c = "e"%char \/ lower_ascii c = "f"%char ->
  has_ext ".zip" path = false ->
  (let folder := if mem year (listdir path) then path_join path year
                 else path in
   1 < length (filter (fun fl => has_ext ".zip" fl && contains year fl
                                 && contains price fl) (listdir folder))) ->
  parser path year price country_names h0 =
    (Raise (ParserError
       "Multiple files for a given year found (specify a specific file in parameters)"),
     h0).
Proof.
  cbv zeta. intros Hc Hcn Hz Hmany.
  unfold parser, parse_eora26, Io.seq, lift, locate_eora.
  rewrite Hc, Hz.
  destruct (filter _ (listdir _)) as [|f1 [|f2 fs]];
    [cbn [length] in Hmany; lia | cbn [length] in Hmany; lia |].
  destruct Hcn as [-> | Hf].
  - reflexivity.
  - destruct (Ascii.eqb (lower_ascii c) "e"); rewrite ?Hf; reflexivity.
Qed.

(** X5.  The tables of a system [parse_eora26] returns carry the same
    labels: Z on its rows and columns, Y on its rows, and the extensions Q
    and VA the columns of Z on F; the final demand of Q has the columns of
    Y and the rows of Q. *)
Theorem eora_labels_consistent path year price country_names h0 s h :
  parser path year price country_names h0 = (Ok s, h) ->
  columns (io_Z s) = index (io_Z s) /\
  index (io_Y s) = index (io_Z s) /\
  columns (ext_F (io_Q s)) = columns (io_Z s) /\
  columns (ext_F (io_VA s)) = columns (io_Z s) /\
  exists QY,
    ext_F_Y (io_Q s) = Some QY /\
    columns QY = columns (io_Y s) /\
    index QY = index (ext_F (io_Q s)).
Proof.
  intros H. apply parse_eora26_Ok in H.
  destruct H as (cn & y & p & eora_loc & root_path & is_zip & d & _ & _ & H).
  apply label_tables_labels in H.
  destruct H as (lZ & lY & lQ & lVA & QY & H). cbv zeta in H.
  destruct H as (HQY & iZ & cZ & iY & cY & iQ & cQ & iQY & cQY & iVA & cVA).
  rewrite cZ, iZ, iY, cQ, cVA. repeat split.
  exists QY. rewrite cQY, cY, iQY, iQ. repeat split. exact HQY.
Qed.

(** X6.  No row and no column of a table of the system returned is labelled
    with the region ROW. *)
Theorem eora_without_rest_of_world path year price country_names h0 s h :
  parser path year price country_names h0 = (Ok s, h) ->
  let clean (l : list label) := existsb (is_row "ROW") l = false in
  clean (index (io_Z s)) /\ clean (columns (io_Z s)) /\
  clean (index (io_Y s)) /\ clean (columns (io_Y s)) /\
  clean (index (ext_F (io_Q s))) /\ clean (columns (ext_F (io_Q s))) /\
  clean (index (ext_F (io_VA s))) /\ clean (columns (ext_F (io_VA s))) /\
  exists QY,
    ext_F_Y (io_Q s) = Some QY /\ clean (index QY) /\ clean (columns QY).
Proof.
  intros H clean. unfold clean. apply parse_eora26_Ok in H.
  destruct H as (cn & y & p & eora_loc & root_path & is_zip & d & _ & _ & H).
  apply label_tables_labels in H.
  destruct H as (lZ & lY & lQ & lVA & QY & H). cbv zeta in H.
  destruct H as (HQY & iZ & cZ & iY & cY & iQ & cQ & iQY & cQY & iVA & cVA).
  rewrite iZ, cZ, iY, cY, iQ, cQ, iVA, cVA.
  repeat (split; [apply existsb_filter_negb|]).
  exists QY. rewrite iQY, cQY.
  repeat split; [exact HQY| |]; apply existsb_filter_negb.
Qed.

(** X7.  When [parse_eora26] returns a system, the archives open are those
    that were open before the call: the one it opened is closed again. *)
Theorem eora_archive_closed_on_return path year price country_names h0 s h :
  parser path year price country_names h0 = (Ok s, h) -> h = h0.
Proof.
  intros H.
  exact (parse_eora26_closes _ _ _ _ _ _ _ _ _ _ _ _ _ H).
Qed.

End Parser.

(** A name that starts with x. *)
Lemma country_names_checked_witness :
  parse_eora26 (fun _ => []) (fun _ => true)
    (fun _ => small_numbers) (fun _ => small_labels)
    (fun _ => Raise FileNotFoundError) (fun _ => Raise FileNotFoundError)
    (fun s => s) (fun s => s) "/data/Eora26_2010_bp.zip" "" "bp" "xx" [] =
  (Raise (ParserError "Parameter country_names must be Eora or full"), []).
Proof.
  apply (@country_names_checked (fun _ => []) (fun _ => true)
           (fun _ => small_numbers) (fun _ => small_labels)
           (fun _ => Raise FileNotFoundError)
           (fun _ => Raise FileNotFoundError)
           (fun s => s) (fun s => s) "/data/Eora26_2010_bp.zip" "" "bp" "xx"
           "x"%char []).
  - reflexivity.
  - vm_compute. discriminate.
  - vm_compute. discriminate.
Defined.

(** The small archive, asked for with another year and price. *)
Lemma zip_path_ignores_year_and_price_witness :
  parse_eora26 (fun _ => []) (fun _ => true)
    (fun _ => small_numbers) (fun _ => small_labels)
    (fun _ => Raise FileNotFoundError) (fun _ => Raise FileNotFoundError)
    (fun s => s) (fun s => s) "/data/Eora26_2010_bp.zip" "1999" "pp" "eora" []
  = Io.run (parse_archive small_numbers small_labels
              "/data/Eora26_2010_bp.zip").
Proof.
  apply (@zip_path_ignores_year_and_price (fun _ => []) (fun _ => true)
           (fun _ => small_numbers) (fun _ => small_labels)
           (fun _ => Raise FileNotFoundError)
           (fun _ => Raise FileNotFoundError)
           (fun s => s) (fun s => s) "/data/Eora26_2010_bp.zip"
           "1999" "pp" "" "bp" "eora" []).
  vm_compute. reflexivity.
Defined.

(** An archive named without a year. *)
Lemma zip_name_without_year_or_price_witness :
  Io.run (parse_archive small_numbers small_labels "/data/Eora26_bp.zip")
    = (Raise AttributeError, []).
Proof.
  apply (@zip_name_without_year_or_price (fun _ => []) (fun _ => true)
           (fun _ => small_numbers) (fun _ => small_labels)
           (fun _ => Raise FileNotFoundError)
           (fun _ => Raise FileNotFoundError)
           (fun s => s) (fun s => s) "/data/Eora26_bp.zip" "" "bp" "eora"
           "e"%char []).
  - reflexivity.
  - left. reflexivity.
  - vm_compute. reflexivity.
  - vm_compute. reflexivity.
  - left. vm_compute. reflexivity.
Defined.

(** A folder with two archives for 2010 in basic prices. *)
Lemma several_archives_refused_witness :
  parse_eora26
    (fun _ => ["Eora26_2010_bp.zip"; "Eora26_2010_bp_v2.zip"; "notes.txt"])
    (fun _ => true)
    (fun _ => small_numbers) (fun _ => small_labels)
    (fun _ => Raise FileNotFoundError) (fun _ => Raise FileNotFoundError)
    (fun s => s) (fun s => s) "/data" "2010" "bp" "eora" [] =
  (Raise (ParserError
     "Multiple files for a given year found (specify a specific file in parameters)"),
   []).
Proof.
  apply (@several_archives_refused
           (fun _ => ["Eora26_2010_bp.zip"; "Eora26_2010_bp_v2.zip";
                      "notes.txt"])
           (fun _ => true)
           (fun _ => small_numbers) (fun _ => small_labels)
           (fun _ => Raise FileNotFoundError)
           (fun _ => Raise FileNotFoundError)
           (fun s => s) (fun s => s) "/data" "2010" "bp" "eora" "e"%char []).
  - reflexivity.
  - left. reflexivity.
  - vm_compute. reflexivity.
  - vm_compute. lia.
Defined.

Ltac small_archive thm :=
  eexists; split; [vm_compute; reflexivity|];
  match goal with
  | |- context [io_Z ?s] =>
      apply (@thm (fun _ => []) (fun _ => true)
               (fun _ => small_numbers) (fun _ => small_labels)
               (fun _ => Raise FileNotFoundError)
               (fun _ => Raise FileNotFoundError)
               (fun x => x) (fun x => x) "/data/Eora26_2010_bp.zip" "" "bp"
               "eora" [] s []);
      vm_compute; reflexivity
  end.

Lemma eora_labels_consistent_witness :
  exists s,
    Io.run (parse_archive small_numbers small_labels
              "/data/Eora26_2010_bp.zip") = (Ok s, []) /\
    (columns (io_Z s) = index (io_Z s) /\
     index (io_Y s) = index (io_Z s) /\
     columns (ext_F (io_Q s)) = columns (io_Z s) /\
     columns (ext_F (io_VA s)) = columns (io_Z s) /\
     exists QY,
       ext_F_Y (io_Q s) = Some QY /\
       columns QY = columns (io_Y s) /\
       index QY = index (ext_F (io_Q s))).
Proof. small_archive eora_labels_consistent. Defined.

Lemma eora_without_rest_of_world_witness :
  exists s,
    Io.run (parse_archive small_numbers small_labels
              "/data/Eora26_2010_bp.zip") = (Ok s, []) /\
    (existsb (is_row "ROW") (index (io_Z s)) = false /\
     existsb (is_row "ROW") (columns (io_Z s)) = false /\
     existsb (is_row "ROW") (index (io_Y s)) = false /\
     existsb (is_row "ROW") (columns (io_Y s)) = false /\
     existsb (is_row "ROW") (index (ext_F (io_Q s))) = false /\
     existsb (is_row "ROW") (columns (ext_F (io_Q s))) = false /\
     existsb (is_row "ROW") (index (ext_F (io_VA s))) = false /\
     existsb (is_row "ROW") (columns (ext_F (io_VA s))) = false /\
     exists QY,
       ext_F_Y (io_Q s) = Some QY /\
       existsb (is_row "ROW") (index QY) = false /\
       existsb (is_row "ROW") (columns QY) = false).
Proof. small_archive eora_without_rest_of_world. Defined.

Lemma eora_archive_closed_on_return_witness :
  exists s,
    Io.run (parse_archive small_numbers small_labels
              "/data/Eora26_2010_bp.zip") = (Ok s, []) /\
    @nil string = [].
Proof.
  eexists. split; [vm_compute; reflexivity|].
  match goal with
  | |- _ =>
      eapply (@eora_archive_closed_on_return (fun _ => []) (fun _ => true)
                (fun _ => small_numbers) (fun _ => small_labels)
                (fun _ => Raise FileNotFoundError)
                (fun _ => Raise FileNotFoundError)
                (fun s => s) (fun s => s) "/data/Eora26_2010_bp.zip" "" "bp"
                "eora" [] _ []);
      vm_compute; reflexivity
  end.
Defined.

End EoraProperties.


(** ** More on parse_oecd *)

Module OecdProperties.
Import ResFacts PyStr Frame Meta Oecd AggregateCells OecdFacts OecdLabels.
Local Open Scope string_scope.

Lemma In_unique x l : In x (unique l) <-> In x l.
Proof.
  induction l as [|y l IH]; cbn [unique In]; [tauto|].
  rewrite filter_In, IH. split.
  - intros [H|[H _]]; [left|right]; assumption.
  - intros [H|H]; [left; assumption|].
    destruct (String.eqb x y) eqn:E.
    + apply String.eqb_eq in E. left. symmetry. exact E.
    + right. split; [assumption|reflexivity].
Qed.

(** The labels one turn of the loop leaves on the rows of Z. *)
Lemma aggregate_region_index names t co_name agg_list :
  index (tab_Z (aggregate_region names t (co_name, agg_list))) =
  if negb (mem co_name names) || (length agg_list =? 0)%nat
  then index (tab_Z t)
  else filter (fun k => negb (mem (region k) agg_list)) (index (tab_Z t)).
Proof.
  unfold aggregate_region.
  destruct (negb (mem co_name names) || (length agg_list =? 0)%nat);
    reflexivity.
Qed.

Lemma aggregate_region_subset names t co k :
  In k (index (tab_Z (aggregate_region names t co))) -> In k (index (tab_Z t)).
Proof.
  destruct co as [co_name agg_list]. rewrite aggregate_region_index.
  destruct (negb (mem co_name names) || (length agg_list =? 0)%nat); trivial.
  intros H. apply filter_In in H. tauto.
Qed.

(** One turn leaves no label of a sub-region of its target, when the target
    is a region of the table. *)
Lemma aggregate_region_clean names t co_name prefix k :
  let agg_list := filter (match_prefix_digit prefix) names in
  mem co_name names = true ->
  In (region k) names ->
  In k (index (tab_Z (aggregate_region names t (co_name, agg_list)))) ->
  match_prefix_digit prefix (region k) = false.
Proof.
  intros agg_list Hco Hk Hin. rewrite aggregate_region_index in Hin.
  rewrite Hco in Hin. cbn [negb orb] in Hin.
  destruct (match_prefix_digit prefix (region k)) eqn:E; trivial.
  assert (Hagg : In (region k) agg_list)
    by (apply filter_In; split; trivial).
  destruct agg_list as [|a agg] eqn:Eagg; [destruct Hagg|].
  cbn [length Nat.eqb] in Hin. apply filter_In in Hin.
  destruct Hin as [_ Hin]. apply mem_in in Hagg. rewrite Hagg in Hin.
  discriminate.
Qed.

(** After the aggregation no row of Z belongs to a sub-region of a target
    that is itself among the rows. *)
Lemma aggregate_subregions_clean t target prefix k k' :
  consistent t ->
  (target, prefix) = ("CHN", "CN") \/ (target, prefix) = ("MEX", "MX") ->
  In k' (index (tab_Z (aggregate_subregions t))) -> region k' = target ->
  In k (index (tab_Z (aggregate_subregions t))) ->
  match_prefix_digit prefix (region k) = false.
Proof.
  intros (Hcols & _ & _) Hwhich Hk' Htarget Hk.
  unfold aggregate_subregions in *. cbn [fold_left] in *.
  rewrite Hcols in *.
  set (names := unique (map region (index (tab_Z t)))) in *.
  set (aggCN := filter (match_prefix_digit "CN") names) in *.
  set (aggMX := filter (match_prefix_digit "MX") names) in *.
  set (t1 := aggregate_region names t ("CHN", aggCN)) in *.
  assert (Hsub : forall x,
            In x (index (tab_Z (aggregate_region names t1 ("MEX", aggMX)))) ->
            In x (index (tab_Z t1)) /\ In (region x) names).
  { intros x Hx. apply aggregate_region_subset in Hx. split; trivial.
    apply aggregate_region_subset in Hx. apply In_unique.
    apply in_map. exact Hx. }
  assert (Htn : mem target names = true).
  { apply mem_in. rewrite <- Htarget. apply (Hsub k' Hk'). }
  destruct Hwhich as [E|E]; injection E as -> ->.
  - destruct (Hsub k Hk) as [Hk1 Hkn].
    exact (aggregate_region_clean names t "CHN" "CN" k Htn Hkn Hk1).
  - destruct (Hsub k Hk) as [_ Hkn].
    exact (aggregate_region_clean names t1 "MEX" "MX" k Htn Hkn Hk).
Qed.

(** X8.  In a system [parse_oecd] returns in which CHN is a region, no label of
    Z, of the rows of Y or of the columns of the factor inputs belongs to a
    region CN followed by a digit; the same for MEX and MX. *)
Theorem subregions_merged path oecd_file oecd_file_name csv s
    target prefix k' labels k :
  parse_oecd path oecd_file oecd_file_name csv = Ok s ->
  (target, prefix) = ("CHN", "CN") \/ (target, prefix) = ("MEX", "MX") ->
  In k' (index (io_Z s)) -> region k' = target ->
  labels = index (io_Z s) \/ labels = columns (io_Z s) \/
  labels = index (io_Y s) \/ labels = columns (ext_F (io_factor_inputs s)) ->
  In k labels ->
  match_prefix_digit prefix (region k) = false.
Proof.
  intros H Hwhich Hk' Htarget Hlabels Hk.
  destruct (parse_oecd_labels _ _ _ _ H) as (HZ & HY & HF).
  assert (Hin : In k (index (io_Z s))).
  { destruct Hlabels as [->|[->|[->| ->]]]; congruence. }
  destruct (parse_oecd_Ok _ _ _ _ H) as (t & Ht & EZ & _).
  rewrite EZ in Hin, Hk'.
  exact (@aggregate_subregions_clean t target prefix k k' Ht Hwhich Hk' Htarget Hin).
Qed.

(** The small table: CHN is there, and the columns of the factor inputs
    hold no CN1. *)
Lemma subregions_merged_witness :
  exists s,
    parse_oecd "/d" "/d/ICIO2018_2011.csv" "ICIO2018_2011.csv" small_csv
      = Ok s /\
    forall k, In k (columns (ext_F (io_factor_inputs s))) ->
              match_prefix_digit "CN" (region k) = false.
Proof.
  eexists. split; [vm_compute; reflexivity|].
  intros k Hk.
  match goal with
  | Hk : In k (columns (ext_F (io_factor_inputs ?s))) |- _ =>
      apply (@subregions_merged "/d" "/d/ICIO2018_2011.csv"
               "ICIO2018_2011.csv" small_csv s "CHN" "CN" ("CHN", "A")
               (columns (ext_F (io_factor_inputs s))) k)
  end.
  - vm_compute. reflexivity.
  - left. reflexivity.
  - vm_compute. tauto.
  - reflexivity.
  - right. right. right. reflexivity.
  - exact Hk.
Defined.

End OecdProperties.


(** ** More on parse_wiod *)

Module WiodNames.
Import ResFacts PyStr Frame Meta Io Wiod EoraLog WiodFacts WiodSystem.
Local Open Scope string_scope.

(** A dict that sends its keys to themselves renames nothing. *)
Lemma to_dict_get_same rows k v :
  (forall kv, In kv rows -> snd kv = fst kv) ->
  to_dict_get rows k = Some v -> v = k.
Proof.
  intros Hrows. unfold to_dict_get.
  destruct (find _ (rev rows)) as [kv|] eqn:E; [|discriminate].
  apply find_some in E. destruct E as [Hin Hk].
  apply in_rev in Hin. apply String.eqb_eq in Hk.
  cbn [option_map]. intros H. injection H as <-.
  now rewrite (Hrows kv Hin).
Qed.

Lemma rename_cell_same rows c :
  (forall kv, In kv rows -> snd kv = fst kv) -> rename_cell rows c = c.
Proof.
  intros Hrows. destruct c as [s|x]; cbn [rename_cell]; [|reflexivity].
  destruct (to_dict_get rows s) as [v|] eqn:E; [|reflexivity].
  now rewrite (to_dict_get_same rows s Hrows E).
Qed.

Lemma rename_keys_same rows (l : list key) :
  (forall kv, In kv rows -> snd kv = fst kv) -> map (rename_key rows) l = l.
Proof.
  intros Hrows. rewrite <- (map_id l) at 2. apply map_ext.
  intros [a b]. unfold rename_key. cbn [fst snd].
  now rewrite !rename_cell_same.
Qed.

Lemma rename_columns_same (R : Type) rows (f : frame R key) :
  (forall kv, In kv rows -> snd kv = fst kv) -> rename_columns rows f = f.
Proof.
  intros Hrows. destruct f as [i c v]. unfold rename_columns.
  cbn [index columns values]. now rewrite rename_keys_same.
Qed.

Lemma rename_index_same (C : Type) rows (f : frame key C) :
  (forall kv, In kv rows -> snd kv = fst kv) -> rename_index rows f = f.
Proof.
  intros Hrows. destruct f as [i c v]. unfold rename_index.
  cbn [index columns values]. now rewrite rename_keys_same.
Qed.

Lemma lookup_same (field : lookup_row -> string) rows kv :
  In kv (map (fun row => (field row, field row)) rows) -> snd kv = fst kv.
Proof.
  intros H. apply in_map_iff in H. destruct H as (row & <- & _). reflexivity.
Qed.

Lemma count_change_system k m v : count k (change_system m v) = count k m.
Proof. reflexivity. Qed.

Section Parser.

Variable str_of_float : fl -> string.
Variable float_of_str : string -> option fl.
Variable listdir : string -> list string.
Variable namelist : string -> list string.
Variable is_zip_archive : string -> bool.
Variable excel_member : string -> string -> res workbook.
Variable excel_file : string -> res workbook.
Variable sea_extension :
  string -> string -> option (frame cell key * list (cell * option cell)).

Let env_loop :=
  env_extensions str_of_float listdir namelist is_zip_archive excel_member
    excel_file.

Let parser :=
  parse_wiod str_of_float float_of_str listdir namelist is_zip_archive
    excel_member excel_file sea_extension.

(** The loop over the environmental extensions writes one fileio entry for
    each extension it adds, and no entry of another kind. *)
Lemma env_extensions_log root_path year ll_co paras m ext h m' ext' h' :
  env_loop root_path year ll_co paras (m, ext) h = (Ok (m', ext'), h') ->
  count fileio m' + length ext = count fileio m + length ext' /\
  forall k, k <> fileio -> count k m' = count k m.
Proof.
  unfold env_loop. revert m ext h.
  induction paras as [|[ik p] paras IH]; intros m ext h; cbn [env_extensions].
  - intros H. apply ret_Ok in H. destruct H as [H _].
    injection H as <- <-. split; reflexivity.
  - intros H. apply seq_Ok in H. destruct H as ([ex|] & h1 & _ & H).
    + apply IH in H. destruct H as [H1 H2].
      rewrite count_add_fileio in H1. cbn [kind_eqb] in H1.
      rewrite length_app in H1. cbn [length] in H1. split; [lia|].
      intros k Hk. rewrite (H2 k Hk), count_add_fileio.
      destruct k; [exfalso; apply Hk; reflexivity| |]; cbn [kind_eqb]; lia.
    + exact (IH _ _ _ H).
Qed.

(** What [parse_wiod] returns, with the two dicts of the renaming. *)
Lemma parse_wiod_renamed root_path wiot_file wiot_data names h0 s h :
  parser root_path wiot_file wiot_data names h0 = (Ok s, h) ->
  exists t n0 n1 m more,
    cut_tables str_of_float float_of_str wiot_data = Ok t /\
    first_lower (fst names) = Ok n0 /\
    first_lower (snd names) = Ok n1 /\
    (n1 = "c" \/ n1 = "i" \/ n1 = "f")%char /\
    count fileio m = 1 + length more /\
    (forall k, k <> fileio -> count k m = 0) /\
    let dd_sec :=
      map (fun row =>
             (code row,
              (if Ascii.eqb n0 "c" then c_code
               else if Ascii.eqb n0 "i" then code
               else if Ascii.eqb n0 "f" then sector_names
               else code) row)) (wiot_sector_lookup t) in
    let dd_fd :=
      map (fun row =>
             (c_code row,
              (if Ascii.eqb n1 "f" then sector_names else c_code) row))
          (wiot_fd_lookup t) in
    let renamed (ne : string * extension) :=
      (fst ne,
       {| ext_name := ext_name (snd ne);
          ext_F := rename_columns dd_sec (ext_F (snd ne));
          ext_F_Y := option_map (rename_columns dd_fd) (ext_F_Y (snd ne));
          ext_unit := ext_unit (snd ne) |}) in
    io_Z s = rename_index dd_sec (rename_columns dd_sec (tab_Z t)) /\
    io_Y s = rename_index dd_sec (rename_columns dd_fd (tab_Y t)) /\
    io_meta s = m /\
    io_extensions s =
      map renamed
        (("factor_inputs",
          {| ext_name := "factor input"; ext_F := tab_F_fac t;
             ext_F_Y := Some (tab_F_Y_fac t);
             ext_unit :=
               map (fun i => (i, Some (Txt (wiot_unit t))))
                   (index (tab_F_fac t)) |}) :: more).
Proof.
  unfold parser, parse_wiod. intros H.
  apply seq_Ok in H. destruct H as (t & h1 & E & H).
  apply lift_Ok in E. destruct E as [E ->].
  destruct (sea_extension root_path (wiot_year t)) as [[F_sea u_sea]|];
    apply seq_Ok in H; destruct H as ([m' ext'] & h2 & Eenv & H);
    pose proof Eenv as Hmore; apply env_extensions_Ok in Hmore;
    destruct Hmore as (more & ->);
    apply env_extensions_log in Eenv; destruct Eenv as [Hf Hm];
    rewrite ?count_add_fileio, ?count_change_system, ?count_add_fileio,
      ?count_new in Hf;
    cbn [kind_eqb length app] in Hf; rewrite ?length_app in Hf;
    cbn [length] in Hf;
    apply lift_Ok in H; destruct H as [H ->];
    apply bind_Ok in H; destruct H as (n0 & E0 & H);
    apply bind_Ok in H; destruct H as (n1 & E1 & H);
    apply bind_Ok in H; destruct H as (dd_fd & Efd & H);
    injection H as <-;
    first
      [ exists t, n0, n1, m',
          (("SEA",
            {| ext_name := "SEA"; ext_F := F_sea;
               ext_F_Y :=
                 Some {| index := index F_sea;
                         columns := columns (tab_F_Y_fac t);
                         values :=
                           map (fun _ => map (fun _ => fzero)
                                             (columns (tab_F_Y_fac t)))
                               (index F_sea) |};
               ext_unit := u_sea |}) :: more)
      | exists t, n0, n1, m', more ];
    cbn [io_Z io_Y io_meta io_extensions];
    (split; [exact E|]); (split; [exact E0|]); (split; [exact E1|]);
    (destruct (Ascii.eqb n1 "c") eqn:Ec;
       [apply Ascii.eqb_eq in Ec; subst n1; injection Efd as <-;
        split; [auto|]
       |destruct (Ascii.eqb n1 "i") eqn:Ei;
          [apply Ascii.eqb_eq in Ei; subst n1; injection Efd as <-;
           split; [auto|]
          |destruct (Ascii.eqb n1 "f") eqn:Ef;
             [apply Ascii.eqb_eq in Ef; subst n1; injection Efd as <-;
              split; [auto|]
             |discriminate Efd]]]);
    (split; [cbn [length]; rewrite ?length_app; cbn [length]; lia|]);
    (split;
       [intros k Hk; rewrite (Hm k Hk);
        rewrite ?count_add_fileio, ?count_change_system, ?count_add_fileio,
          ?count_new;
        destruct k; [exfalso; apply Hk; reflexivity| |]; reflexivity|]);
    cbv zeta; cbn [Ascii.eqb Bool.eqb]; repeat split; reflexivity.
Qed.

End Parser.

End WiodNames.

Module WiodExtension.
Import ResFacts PyStr Frame Meta Io Wiod EoraLog WiodFacts WiodSystem.
Local Open Scope string_scope.

Section Parser.

Variable str_of_float : fl -> string.
Variable listdir : string -> list string.
Variable namelist : string -> list string.
Variable is_zip_archive : string -> bool.
Variable excel_member : string -> string -> res workbook.
Variable excel_file : string -> res workbook.

(** The household column is taken out of the table of a country. *)
Lemma clean_sheet_sectors start unit df unit' t :
  clean_sheet str_of_float start unit df = Ok (unit', t) ->
  forall s, In s (sectors t) -> is_text "FC_HH" s = false.
Proof.
  unfold clean_sheet. intros H.
  apply bind_Ok in H. destruct H as (first & _ & H).
  apply bind_Ok in H. destruct H as (df' & _ & H).
  apply bind_Ok in H. destruct H as (u & _ & H).
  match type of H with
  | (if ?b then _ else _) = _ => destruct b; [|discriminate]
  end.
  injection H as _ <-. cbn [sectors]. intros s Hs.
  apply in_map_iff in Hs. destruct Hs as (row & <- & Hrow).
  apply filter_In in Hrow. destruct Hrow as [_ Hrow].
  now apply negb_true_iff in Hrow.
Qed.

(** The tables come in the order of the countries asked for. *)
Lemma read_countries_Some read year p content ll_co :
  forall unit unit' tables,
  read_countries str_of_float read year p content unit ll_co
    = Ok (Some (unit', tables)) ->
  map fst tables = ll_co /\
  forall ct, In ct tables ->
    forall s, In s (sectors (snd ct)) -> is_text "FC_HH" s = false.
Proof.
  induction ll_co as [|co ll_co IH]; intros unit unit' tables;
    cbn [read_countries].
  - intros H. injection H as _ <-. split; [reflexivity|]. intros ct [].
  - intros H. apply bind_Ok in H. destruct H as (ll_pff_read & _ & H).
    destruct ll_pff_read as [|pff_read [|? ?]]; try discriminate.
    apply bind_Ok in H. destruct H as (ff_excel & _ & H).
    destruct (get_sheet ff_excel year) as [df_env|]; [|discriminate].
    apply bind_Ok in H. destruct H as ([unit1 table] & Ec & H).
    apply bind_Ok in H. destruct H as (rest & Er & H).
    destruct rest as [[unit2 tables']|]; [|discriminate].
    injection H as _ <-. apply IH in Er. destruct Er as [Er1 Er2].
    split; [cbn [map fst]; now rewrite Er1|].
    intros ct [<-|Hct]; [|exact (Er2 ct Hct)].
    cbn [snd]. exact (clean_sheet_sectors _ _ _ Ec).
Qed.

(** The extension [__get_WIOD_env_extension] returns. *)
Lemma env_extension_tables root_path year ll_co p h0 ex h :
  __get_WIOD_env_extension str_of_float listdir namelist is_zip_archive
    excel_member excel_file root_path year ll_co p h0 = (Ok (Some ex), h) ->
  exists tables unit,
    map fst tables = ll_co /\
    (forall ct, In ct tables ->
       forall s, In s (sectors (snd ct)) -> is_text "FC_HH" s = false) /\
    env_F ex = concat_F tables /\ env_F_Y ex = concat_F_Y tables /\
    map fst (env_unit ex) = Frame.index (concat_F tables) /\
    forall ikr u, In (ikr, u) (env_unit ex) ->
      u = match ikr with
          | Txt s => dict_get unit s (dict_get unit "all" (Some (Txt "undef")))
          | Numb _ => dict_get unit "all" (Some (Txt "undef"))
          end.
Proof.
  unfold __get_WIOD_env_extension.
  destruct (filter (startswith (para_start p)) (listdir root_path))
    as [|found [|? ?]].
  - intros H. apply ret_Ok in H. destruct H as [H _]. discriminate.
  - intros H. apply seq_Ok in H. destruct H as (content & h1 & _ & H).
    apply seq_Ok in H. destruct H as (read_all & h2 & E2 & H).
    apply lift_Ok in E2. destruct E2 as [E2 _].
    destruct read_all as [[unit tables]|].
    + apply seq_Ok in H. destruct H as (u & h3 & _ & H).
      apply ret_Ok in H. destruct H as [H _]. injection H as H. subst ex.
      apply read_countries_Some in E2. destruct E2 as [E21 E22].
      exists tables, unit. cbn [env_F env_F_Y env_unit].
      repeat split; try assumption.
      * rewrite map_map. cbn [fst]. apply map_id.
      * intros ikr u0 Hin. apply in_map_iff in Hin.
        destruct Hin as (i & Hi & _). injection Hi as -> <-. reflexivity.
    + apply ret_Ok in H. destruct H as [H _]. discriminate.
  - intros H. apply lift_Ok in H. destruct H as [H _]. discriminate.
Qed.

End Parser.

End WiodExtension.

Module WiodProperties.
Import ResFacts PyStr Frame Meta Io Wiod EoraLog WiodFacts WiodSystem.
Import WiodNames WiodExtension.
Local Open Scope string_scope.

Section Parser.

Variable str_of_float : fl -> string.
Variable float_of_str : string -> option fl.
Variable listdir : string -> list string.
Variable namelist : string -> list string.
Variable is_zip_archive : string -> bool.
Variable excel_member : string -> string -> res workbook.
Variable excel_file : string -> res workbook.
Variable sea_extension :
  string -> string -> option (frame cell key * list (cell * option cell)).

Let parser :=
  parse_wiod str_of_float float_of_str listdir namelist is_zip_archive
    excel_member excel_file sea_extension.

Let env_extension :=
  __get_WIOD_env_extension str_of_float listdir namelist is_zip_archive
    excel_member excel_file.


(** X10.  With the naming schemes of the ISIC codes (a first scheme that
    starts with neither c nor f, a second that does not start with f) the
    renaming changes nothing: Z, Y and the factor inputs are returned with
    the labels and the numbers cut out of the sheet. *)
Theorem isic_names_keep_labels
    root_path wiot_file wiot_data names c0 c1 h0 s h :
  String.get 0 (fst names) = Some c0 ->
  lower_ascii c0 <> "c"%char -> lower_ascii c0 <> "f"%char ->
  String.get 0 (snd names) = Some c1 ->
  lower_ascii c1 <> "f"%char ->
  parser root_path wiot_file wiot_data names h0 = (Ok s, h) ->
  exists t more,
    cut_tables str_of_float float_of_str wiot_data = Ok t /\
    io_Z s = tab_Z t /\ io_Y s = tab_Y t /\
    io_extensions s =
      ("factor_inputs",
       {| ext_name := "factor input"; ext_F := tab_F_fac t;
          ext_F_Y := Some (tab_F_Y_fac t);
          ext_unit := map (fun i => (i, Some (Txt (wiot_unit t))))
                          (index (tab_F_fac t)) |}) :: more.
Proof.
  intros H0 Hc Hf H1 Hf1 H. apply parse_wiod_renamed in H.
  destruct H as (t & n0 & n1 & m & more & Ht & E0 & E1 & _ & _ & _ & H).
  unfold first_lower in E0, E1. rewrite H0 in E0. rewrite H1 in E1.
  injection E0 as <-. injection E1 as <-.
  apply Ascii.eqb_neq in Hc, Hf, Hf1. rewrite Hc, Hf, Hf1 in H.
  assert (Hsec : forall kv,
            In kv (map (fun row =>
                          (code row,
                           (if Ascii.eqb (lower_ascii c0) "i" then code
                            else code) row)) (wiot_sector_lookup t)) ->
            snd kv = fst kv).
  { destruct (Ascii.eqb (lower_ascii c0) "i"); apply lookup_same. }
  pose proof (@lookup_same c_code (wiot_fd_lookup t)) as Hfd.
  cbv zeta in H. destruct H as (HZ & HY & _ & He).
  exists t. eexists. split; [exact Ht|].
  rewrite HZ, HY, He. cbn [map fst snd ext_name ext_F ext_F_Y ext_unit].
  cbn [option_map].
  rewrite !(@rename_columns_same _ _ _ Hsec), !(@rename_index_same _ _ _ Hsec).
  rewrite !(@rename_columns_same _ _ _ Hfd).
  repeat split; reflexivity.
Qed.

(** X11.  The history of a system [parse_wiod] returns holds one file entry
    for the wiot file and one for each extension that follows the factor
    inputs, and no entry of another kind. *)
Theorem one_file_entry_per_extension
    root_path wiot_file wiot_data names h0 s h :
  parser root_path wiot_file wiot_data names h0 = (Ok s, h) ->
  exists factor_inputs more,
    io_extensions s = ("factor_inputs", factor_inputs) :: more /\
    count fileio (io_meta s) = 1 + length more /\
    count modify (io_meta s) = 0 /\ count note (io_meta s) = 0.
Proof.
  intros H. apply parse_wiod_renamed in H.
  destruct H as (t & n0 & n1 & m & more & _ & _ & _ & _ & Hf & Hk & H).
  cbv zeta in H. destruct H as (_ & _ & -> & ->).
  cbn [map fst snd]. eexists. eexists. split; [reflexivity|].
  rewrite length_map. split; [exact Hf|].
  split; apply Hk; discriminate.
Qed.

(** X12.  An environmental extension that is returned has one column of
    household stressors for each country asked for, in their order; the
    columns of F belong to these countries and none of them is the household
    column FC_HH; and every stressor on the rows of F has its row of
    units. *)
Theorem env_extension_columns root_path year ll_co p h0 ex h :
  env_extension root_path year ll_co p h0 = (Ok (Some ex), h) ->
  columns (env_F_Y ex) = ll_co /\
  (forall k, In k (columns (env_F ex)) ->
     In (fst k) ll_co /\ is_text "FC_HH" (snd k) = false) /\
  map fst (env_unit ex) = index (env_F ex).
Proof.
  intros H. apply env_extension_tables in H.
  destruct H as (tables & unit & Hco & Hhh & -> & -> & Hu & _).
  cbn [concat_F_Y columns]. split; [exact Hco|].
  split; [|exact Hu].
  intros k Hk. cbn [concat_F columns] in Hk.
  apply in_flat_map in Hk. destruct Hk as (ct & Hct & Hk).
  apply in_map_iff in Hk. destruct Hk as (sec & <- & Hsec).
  cbn [fst snd]. split.
  - rewrite <- Hco. now apply in_map.
  - exact (Hhh ct Hct sec Hsec).
Qed.

(** X13.  When an environmental extension is returned, the archives open are
    those that were open before the call: the archive of the extension is
    closed again. *)
Theorem env_archive_closed_on_return root_path year ll_co p h0 ex h :
  env_extension root_path year ll_co p h0 = (Ok (Some ex), h) -> h = h0.
Proof.
  intros H. exact (env_extension_Some _ _ _ _ _ _ _ _ _ _ _ H).
Qed.

End Parser.

Ltac small_sheet thm :=
  eexists; split; [vm_compute; reflexivity|];
  match goal with
  | |- context [io_extensions ?s] =>
      apply (@thm (fun _ => "nan") (fun _ => None)
               small_listdir small_namelist (fun _ => true)
               (fun _ _ => Ok (air_workbook ["secAtB"; "secC"; "FC_HH"]))
               (fun _ => Raise FileNotFoundError) (fun _ _ => None)
               "/wiod" "/wiod/wiot09_row_sep12.xlsx"
               (small_wiot "Input-Output Table for 2009")
               ("isic", "isic") [] s []);
      vm_compute; reflexivity
  end.


Lemma one_file_entry_per_extension_witness :
  exists s,
    Io.run (parse_small ["secAtB"; "secC"; "FC_HH"]
              (small_wiot "Input-Output Table for 2009")) = (Ok s, []) /\
    exists factor_inputs more,
      io_extensions s = ("factor_inputs", factor_inputs) :: more /\
      count fileio (io_meta s) = 1 + length more /\
      count modify (io_meta s) = 0 /\ count note (io_meta s) = 0.
Proof. small_sheet one_file_entry_per_extension. Defined.

Lemma isic_names_keep_labels_witness :
  exists s t more,
    Io.run (parse_small ["secAtB"; "secC"; "FC_HH"]
              (small_wiot "Input-Output Table for 2009")) = (Ok s, []) /\
    cut_tables (fun _ => "nan") (fun _ => None)
      (small_wiot "Input-Output Table for 2009") = Ok t /\
    io_Z s = tab_Z t /\ io_Y s = tab_Y t /\
    io_extensions s =
      ("factor_inputs",
       {| ext_name := "factor input"; ext_F := tab_F_fac t;
          ext_F_Y := Some (tab_F_Y_fac t);
          ext_unit := map (fun i => (i, Some (Txt (wiot_unit t))))
                          (index (tab_F_fac t)) |}) :: more.
Proof.
  eexists.
  match goal with
  | |- exists t more, ?run = (Ok ?s, []) /\ _ =>
      assert (Hrun : run = (Ok s, [])) by (vm_compute; reflexivity);
      destruct (@isic_names_keep_labels (fun _ => "nan") (fun _ => None)
                  small_listdir small_namelist (fun _ => true)
                  (fun _ _ => Ok (air_workbook ["secAtB"; "secC"; "FC_HH"]))
                  (fun _ => Raise FileNotFoundError) (fun _ _ => None)
                  "/wiod" "/wiod/wiot09_row_sep12.xlsx"
                  (small_wiot "Input-Output Table for 2009")
                  ("isic", "isic") "i"%char "i"%char [] s [])
        as (t & more & H)
  end.
  - reflexivity.
  - vm_compute. discriminate.
  - vm_compute. discriminate.
  - reflexivity.
  - vm_compute. discriminate.
  - exact Hrun.
  - exists t, more. split; [exact Hrun|exact H].
Defined.

Ltac air_sheet thm :=
  eexists; split; [vm_compute; reflexivity|];
  match goal with
  | |- context [env_F ?ex] =>
      apply (@thm (fun _ => "nan") small_listdir small_namelist
               (fun _ => true)
               (fun _ _ => Ok (air_workbook ["secAtB"; "secC"; "FC_HH"]))
               (fun _ => Raise FileNotFoundError)
               "/wiod" "2009" [Txt "USA"] para_AIR [] ex []);
      vm_compute; reflexivity
  end.

(** The air emission accounts of the USA in the archive of the folder. *)
Lemma env_extension_columns_witness :
  exists ex,
    Io.run (air_extension ["secAtB"; "secC"; "FC_HH"] "2009")
      = (Ok (Some ex), []) /\
    (columns (env_F_Y ex) = [Txt "USA"] /\
     (forall k, In k (columns (env_F ex)) ->
        In (fst k) [Txt "USA"] /\ is_text "FC_HH" (snd k) = false) /\
     map fst (env_unit ex) = index (env_F ex)).
Proof. air_sheet env_extension_columns. Defined.

Lemma env_archive_closed_on_return_witness :
  exists ex,
    Io.run (air_extension ["secAtB"; "secC"; "FC_HH"] "2009")
      = (Ok (Some ex), []) /\
    @nil string = [].
Proof.
  eexists. split; [vm_compute; reflexivity|].
  match goal with
  | |- _ =>
      eapply (@env_archive_closed_on_return (fun _ => "nan") small_listdir
                small_namelist (fun _ => true)
                (fun _ _ => Ok (air_workbook ["secAtB"; "secC"; "FC_HH"]))
                (fun _ => Raise FileNotFoundError)
                "/wiod" "2009" [Txt "USA"] para_AIR [] _ []);
      vm_compute; reflexivity
  end.
Defined.

End WiodProperties.


(** ** Paths and file names *)

Module PathFacts.
Import ResFacts PyStr Frame Paths OecdProperties.
Local Open Scope string_scope.

Lemma append_empty (s : string) : s ++ "" = s.
Proof. induction s as [|c s IH]; cbn [append]; [reflexivity|now rewrite IH]. Qed.

Lemma substring_all (p : string) : String.substring 0 (String.length p) p = p.
Proof.
  induction p as [|c p IH]; cbn [String.substring String.length];
    [reflexivity|now rewrite IH].
Qed.

Lemma substring_split (p : string) :
  forall d,
    String.substring 0 d p ++ String.substring d (String.length p - d) p = p.
Proof.
  induction p as [|c p IH]; intros [|d]; cbn [String.substring String.length];
    try reflexivity.
  - rewrite Nat.sub_0_r. cbn [append]. now rewrite substring_all.
  - cbn [Nat.sub append]. now rewrite IH.
Qed.

(** The two parts [os.path.splitext] returns make up the path. *)
Lemma splitext_join (p : string) : fst (splitext p) ++ snd (splitext p) = p.
Proof.
  unfold splitext. destruct (rfind "." p) as [d|]; cbn [fst snd].
  - match goal with |- context [if ?b then _ else _] => destruct b end;
      cbn [fst snd]; [apply substring_split|apply append_empty].
  - apply append_empty.
Qed.

Lemma filter_none (A : Type) (P : A -> bool) (l : list A) :
  (forall y, In y l -> P y = false) -> filter P l = [].
Proof.
  induction l as [|a l IH]; intros H; cbn [filter]; [reflexivity|].
  rewrite (H a (or_introl eq_refl)). apply IH.
  intros y Hy. apply H. now right.
Qed.

(** The number of distinct values of a list that starts with [x]. *)
Lemma unique_one (x : string) (l : list string) :
  (forall y, In y l -> y = x) -> length (unique (x :: l)) = 1.
Proof.
  intros H. cbn [unique length]. f_equal.
  assert (E : filter (fun y => negb (String.eqb y x)) (unique l) = []).
  { apply filter_none.
    intros y Hy. apply (proj1 (In_unique _ _)) in Hy.
    rewrite (H y Hy), String.eqb_refl.
    reflexivity. }
  now rewrite E.
Qed.

Lemma unique_several (x y : string) (l : list string) :
  In y l -> y <> x -> 1 < length (unique (x :: l)).
Proof.
  intros Hy Hne. cbn [unique length].
  assert (Hin : In y (filter (fun y => negb (String.eqb y x)) (unique l))).
  { apply filter_In. split; [exact (proj2 (In_unique _ _) Hy)|].
    apply negb_true_iff. now apply String.eqb_neq. }
  destruct (filter _ (unique l)); [destruct Hin|cbn [length]; lia].
Qed.

(** *** Base names *)








End PathFacts.

(** ** The file parse_oecd reads *)

Module OecdFileFacts.
Import ResFacts PyStr Frame Meta Paths Oecd OecdLabels OecdFiles PathFacts.
Local Open Scope string_scope.





(** The metadata [parse_oecd] builds from the name of the file. *)
Lemma parse_oecd_meta path oecd_file oecd_file_name csv s :
  Oecd.parse_oecd path oecd_file oecd_file_name csv = Ok s ->
  location (io_meta s) = Some path /\
  match findall_4_digits oecd_file_name with
  | y0 :: y1 :: _ =>
      version (io_meta s) = Some ("v" ++ y0) /\
      description (io_meta s) = Some ("OECD ICIO for " ++ y1)
  | _ =>
      version (io_meta s) = Some "n/a" /\
      description (io_meta s) = Some "OECD ICIO - year undefined"
  end.
Proof.
  unfold Oecd.parse_oecd.
  destruct (findall_4_digits oecd_file_name) as [|y0 [|y1 ys]];
    cbv zeta; intros H;
    repeat (apply bind_Ok in H; destruct H as (? & ? & H));
    injection H as <-; cbn [io_meta]; repeat split; reflexivity.
Qed.

Section Files.

Variable isdir : string -> bool.
Variable listdir : string -> list string.
Variable read_csv : string -> res (frame string string).

Let locate := locate_oecd isdir listdir.

(** The lookup in a folder, by the files that pass the filter. *)
Lemma locate_oecd_folder path year :
  isdir path = true -> not_year year = false ->
  locate path year =
    match filter (is_data_file (str year)) (listdir path) with
    | [] => Raise FileNotFoundError
    | fl :: rest =>
        if (1 <? length (unique (map (fun g => fst (splitext g))
                                     (fl :: rest))))%nat
        then Raise multiple_files
        else Ok (path_join path fl, path)
    end.
Proof.
  intros Hd Hy. unfold locate, locate_oecd. rewrite Hd, Hy. cbn [negb].
  destruct (filter _ (listdir path)) as [|fl [|g rest]].
  - reflexivity.
  - reflexivity.
  - cbn [length Nat.ltb Nat.leb].
    match goal with
    | |- context [if ?b then Raise multiple_files else _] => destruct b
    end; reflexivity.
Qed.

(** A file that passes the filter is named after an edition, the year and a
    format. *)
Lemma is_data_file_name year fl :
  is_data_file year fl = true ->
  exists start ext,
    In start oecd_file_starts /\ In ext [".csv"; ".CSV"; ".zip"] /\
    fl = start ++ year ++ ext.
Proof.
  unfold is_data_file. intros H. apply andb_true_iff in H.
  destruct H as [He Hs]. unfold mem in He, Hs.
  apply existsb_exists in He. destruct He as (ext & Hext & He).
  apply existsb_exists in Hs. destruct Hs as (stem & Hstem & Hs).
  apply String.eqb_eq in He, Hs.
  apply in_map_iff in Hstem. destruct Hstem as (start & <- & Hstart).
  exists start, ext. split; [exact Hstart|]. split; [exact Hext|].
  rewrite <- (splitext_join fl) at 1. rewrite Hs, He.
  clear. induction start as [|c start IH]; cbn [append];
    [reflexivity|now rewrite IH].
Qed.

(** The file found in a folder. *)
Lemma locate_oecd_found path year file dir :
  isdir path = true ->
  locate path year = Ok (file, dir) ->
  dir = path /\
  exists fl start ext,
    In fl (listdir path) /\ file = path_join path fl /\
    In start oecd_file_starts /\ In ext [".csv"; ".CSV"; ".zip"] /\
    fl = start ++ str year ++ ext.
Proof.
  intros Hd H.
  destruct (not_year year) eqn:Hy.
  { unfold locate, locate_oecd in H. rewrite Hd, Hy in H. discriminate. }
  rewrite (@locate_oecd_folder path year Hd Hy) in H.
  destruct (filter (is_data_file (str year)) (listdir path)) as [|fl rest]
    eqn:Hf; [discriminate|].
  match type of H with
  | (if ?b then _ else _) = _ => destruct b; [discriminate|]
  end.
  injection H as <- <-. split; [reflexivity|].
  assert (Hin : In fl (filter (is_data_file (str year)) (listdir path)))
    by (rewrite Hf; now left).
  apply filter_In in Hin. destruct Hin as [Hin Hfile].
  destruct (is_data_file_name _ _ Hfile) as (start & ext & Hs & He & Hname).
  exists fl, start, ext. repeat split; assumption.
Qed.

End Files.

End OecdFileFacts.

Module OecdFileProperties.
Import ResFacts PyStr Frame Meta Paths Oecd OecdLabels OecdFiles PathFacts.
Import OecdFileFacts.
Local Open Scope string_scope.

Section Files.

Variable isdir : string -> bool.
Variable listdir : string -> list string.
Variable read_csv : string -> res (frame string string).

Let locate := locate_oecd isdir listdir.
Let parser := OecdFiles.parse_oecd isdir listdir read_csv.

(** X14.  In a folder, several data files for the year are refused only when
    their names without the extension differ, that is when two editions are
    there: the files of one edition in several formats raise nothing, and
    the first of them in the listing is the file read. *)
Theorem oecd_editions_told_apart path year fl rest :
  isdir path = true -> not_year year = false ->
  filter (is_data_file (str year)) (listdir path) = fl :: rest ->
  ((forall g, In g rest -> fst (splitext g) = fst (splitext fl)) ->
   locate path year = Ok (path_join path fl, path)) /\
  ((exists g, In g rest /\ fst (splitext g) <> fst (splitext fl)) ->
   locate path year = Raise multiple_files).
Proof.
  intros Hd Hy Hf. unfold locate.
  rewrite (locate_oecd_folder isdir listdir path year Hd Hy), Hf.
  cbn [map]. split.
  - intros Hsame.
    rewrite unique_one; [reflexivity|].
    intros y Hin. apply in_map_iff in Hin. destruct Hin as (g & <- & Hg).
    exact (Hsame g Hg).
  - intros (g & Hg & Hne).
    assert (H : 1 < length (unique (fst (splitext fl)
                                      :: map (fun g => fst (splitext g)) rest))).
    { apply unique_several with (y := fst (splitext g)); [|exact Hne].
      apply in_map_iff. exists g. split; [reflexivity|exact Hg]. }
    apply Nat.ltb_lt in H. now rewrite H.
Qed.

(** X15.  The file found in a folder is a file of that folder whose name is
    ICIO2016_ or ICIO2018_, the year asked for, and one of the extensions
    .csv, .CSV and .zip; the folder is returned with it. *)
Theorem oecd_file_of_the_year path year file dir :
  isdir path = true ->
  locate path year = Ok (file, dir) ->
  dir = path /\
  exists fl start ext,
    In fl (listdir path) /\ file = path_join path fl /\
    In start oecd_file_starts /\ In ext [".csv"; ".CSV"; ".zip"] /\
    fl = start ++ str year ++ ext.
Proof.
  intros Hd H. exact (@locate_oecd_found isdir listdir path year file dir Hd H).
Qed.


(** X17.  A path that is not a folder is read as the file itself, whatever
    the year asked for, and the version and the year of the description
    come from its name, here of ASCII characters: the first two groups of
    four digits of the name give the version and the year, whatever comes
    after them; a name with fewer than two groups gives n/a and an
    undefined year, also when it holds one group. *)
Theorem oecd_file_name_gives_version path year s :
  isdir path = false ->
  is_ascii (Eora.basename path) = true ->
  parser path year = Ok s ->
  location (io_meta s) = Some (Eora.dirname path) /\
  history (io_meta s) =
    [{| entry_kind := fileio;
        entry_text := "OECD data parsed from " ++ path;
        entry_amount := None |}] /\
  match findall_4_digits (Eora.basename path) with
  | y0 :: y1 :: _ =>
      version (io_meta s) = Some ("v" ++ y0) /\
      description (io_meta s) = Some ("OECD ICIO for " ++ y1)
  | _ =>
      version (io_meta s) = Some "n/a" /\
      description (io_meta s) = Some "OECD ICIO - year undefined"
  end.
Proof.
  intros Hd _ H. unfold parser, OecdFiles.parse_oecd, locate_oecd in H.
  rewrite Hd in H. cbn [negb bind] in H.
  apply bind_Ok in H. destruct H as (csv & _ & H).
  split; [exact (proj1 (parse_oecd_meta _ _ _ _ H))|].
  split; [exact (parse_oecd_history _ _ _ _ H)|].
  exact (proj2 (parse_oecd_meta _ _ _ _ H)).
Qed.

End Files.

(** The table of 2011, there as a zip file and as a csv file. *)
Lemma oecd_editions_told_apart_witness :
  locate_oecd (fun p => String.eqb p "/oecd") small_folder "/oecd"
    (Some "2011") = Ok ("/oecd/ICIO2018_2011.zip", "/oecd").
Proof.
  apply (@oecd_editions_told_apart (fun p => String.eqb p "/oecd")
           small_folder "/oecd" (Some "2011") "ICIO2018_2011.zip"
           ["ICIO2018_2011.csv"]).
  - reflexivity.
  - reflexivity.
  - vm_compute. reflexivity.
  - intros g [<-|[]]. vm_compute. reflexivity.
Defined.

Lemma oecd_file_of_the_year_witness :
  "/oecd" = "/oecd" /\
  exists fl start ext,
    In fl (small_folder "/oecd") /\
    "/oecd/ICIO2018_2011.zip" = path_join "/oecd" fl /\
    In start oecd_file_starts /\ In ext [".csv"; ".CSV"; ".zip"] /\
    fl = start ++ str (Some "2011") ++ ext.
Proof.
  apply (@oecd_file_of_the_year (fun p => String.eqb p "/oecd") small_folder
           "/oecd" (Some "2011") "/oecd/ICIO2018_2011.zip" "/oecd").
  - reflexivity.
  - vm_compute. reflexivity.
Defined.


(** A file named with the edition alone. *)
Lemma oecd_file_name_gives_version_witness :
  exists s,
    OecdFiles.parse_oecd (fun _ => false) (fun _ => [])
      (fun _ => Ok small_csv) "/data/ICIO2018.csv" (Some "2011") = Ok s /\
    version (io_meta s) = Some "n/a" /\
    description (io_meta s) = Some "OECD ICIO - year undefined".
Proof.
  eexists. split; [vm_compute; reflexivity|].
  match goal with
  | |- context [io_meta ?s] =>
      destruct (@oecd_file_name_gives_version (fun _ => false) (fun _ => [])
                  (fun _ => Ok small_csv) "/data/ICIO2018.csv" (Some "2011") s)
        as (_ & _ & H)
  end.
  - reflexivity.
  - vm_compute. reflexivity.
  - vm_compute. reflexivity.
  - exact H.
Defined.

End OecdFileProperties.

(** ** The file parse_wiod reads *)

Module WiodFileProperties.
Import ResFacts PyStr Frame Paths WiodFiles PathFacts.
Local Open Scope string_scope.

Section Files.

Variable isdir : string -> bool.
Variable isfile : string -> bool.
Variable exists_ : string -> bool.
Variable listdir : string -> list string.

Let locate := locate_wiot isdir isfile exists_ listdir.

(** X18.  The file [parse_wiod] settles on exists, and the root path is its
    folder.  In a folder it is the only file whose first six characters are
    wiot and the last two characters of the year, and whose extension is
    .xlsx; otherwise it is the path given, or that path with .xlsx appended
    when the path is not a file. *)
Theorem wiot_file_exists path year file root :
  locate path year = Ok (file, root) ->
  exists_ file = true /\ root = Eora.dirname file /\
  if isdir path then
    not_year year = false /\
    exists fl,
      In fl (listdir path) /\ file = path_join path fl /\
      String.substring 0 6 fl = "wiot" ++ last_two (str year) /\
      snd (splitext fl) = ".xlsx" /\
      forall g, In g (listdir path) ->
        is_wiot_file (last_two (str year)) g = true -> g = fl
  else file = if isfile path then path else path ++ ".xlsx".
Proof.
  unfold locate, locate_wiot. intros H.
  apply bind_Ok in H. destruct H as (wiot_file & Hfile & H).
  destruct (exists_ wiot_file) eqn:He; [|discriminate].
  injection H as <- <-. split; [exact He|]. split; [reflexivity|].
  destruct (isdir path); cbn [negb] in Hfile.
  - destruct (not_year year); [discriminate|]. split; [reflexivity|].
    destruct (filter (is_wiot_file (last_two (str year))) (listdir path))
      as [|fl [|g rest]] eqn:Hf; try discriminate.
    injection Hfile as <-. exists fl.
    assert (Hin : In fl (filter (is_wiot_file (last_two (str year)))
                                (listdir path)))
      by (rewrite Hf; now left).
    apply filter_In in Hin. destruct Hin as [Hin Hw].
    unfold is_wiot_file in Hw. apply andb_true_iff in Hw.
    destruct Hw as [Hstart Hext]. apply String.eqb_eq in Hstart, Hext.
    repeat split; try assumption.
    intros g Hg Hgw.
    assert (Hgin : In g (filter (is_wiot_file (last_two (str year)))
                                 (listdir path)))
      by (apply filter_In; split; assumption).
    rewrite Hf in Hgin. destruct Hgin as [<-|[]]. reflexivity.
  - destruct (isfile path); injection Hfile as <-; reflexivity.
Qed.

(** X19.  In a folder, a year written with a single character finds no
    file, whatever the folder holds: the call ends with the ParserError of
    the lookup. *)
Theorem wiot_year_needs_two_characters path y :
  isdir path = true -> String.length y = 1 ->
  locate path (Some y) = Raise not_one_file.
Proof.
  intros Hd Hlen. destruct y as [|c [|c' y]]; try discriminate.
  unfold locate, locate_wiot. rewrite Hd. cbn [negb not_year String.eqb str].
  assert (Hnone : filter (is_wiot_file (last_two (String c "")))
                         (listdir path) = []).
  { apply filter_none. intros fl _. unfold is_wiot_file, last_two.
    cbn [String.length Nat.sub drop append].
    destruct (String.eqb (String.substring 0 6 fl) _) eqn:E; [|reflexivity].
    apply String.eqb_eq in E. cbn [andb].
    destruct fl as [|a0 [|a1 [|a2 [|a3 [|a4 [|a5 fl]]]]]];
      cbn [String.substring] in E; try discriminate.
    injection E as -> -> -> -> ->.
    destruct (Ascii.eqb c "/") eqn:E1;
      [apply Ascii.eqb_eq in E1; subst c; vm_compute; reflexivity|].
    destruct (Ascii.eqb c ".") eqn:E2;
      [apply Ascii.eqb_eq in E2; subst c; vm_compute; reflexivity|].
    unfold splitext. cbn [rfind]. rewrite E1, E2. reflexivity. }
  rewrite Hnone. reflexivity.
Qed.

End Files.

(** The table of 2009 in the folder. *)
Lemma wiot_file_exists_witness :
  locate_small "2009" = Ok ("/wiod/wiot09_row_sep12.xlsx", "/wiod") /\
  exists fl,
    In fl (small_folder "/wiod") /\
    "/wiod/wiot09_row_sep12.xlsx" = path_join "/wiod" fl /\
    snd (splitext fl) = ".xlsx".
Proof.
  split; [vm_compute; reflexivity|].
  destruct (@wiot_file_exists (fun p => String.eqb p "/wiod")
              (fun p => String.eqb (Eora.dirname p) "/wiod")
              (fun p => String.eqb p "/wiod"
                        || String.eqb (Eora.dirname p) "/wiod")
              small_folder "/wiod" (Some "2009")
              "/wiod/wiot09_row_sep12.xlsx" "/wiod")
    as (_ & _ & H).
  - vm_compute. reflexivity.
  - cbn [String.eqb Ascii.eqb Bool.eqb] in H.
    destruct H as (_ & fl & Hin & Hfile & _ & Hext & _).
    exists fl. repeat split; assumption.
Defined.

Lemma wiot_year_needs_two_characters_witness :
  locate_small "9" = Raise not_one_file.
Proof.
  apply (@wiot_year_needs_two_characters (fun p => String.eqb p "/wiod")
           (fun p => String.eqb (Eora.dirname p) "/wiod")
           (fun p => String.eqb p "/wiod"
                     || String.eqb (Eora.dirname p) "/wiod")
           small_folder "/wiod" "9").
  - reflexivity.
  - reflexivity.
Defined.

End WiodFileProperties.


(** ** More on the Cecilia systems *)

Module CeciliaShapes.
Import ResFacts Np NumFacts NpFacts Cecilia CeciliaFacts CeciliaFinite.
Local Open Scope string_scope.

(** The columns of an array built cell by cell. *)
Lemma ncols_mk_any n m f : ncols (mk n m f) = if (n =? 0)%nat then 0 else m.
Proof.
  destruct n as [|n]; [reflexivity|]. cbn [Nat.eqb]. apply ncols_mk. lia.
Qed.

Lemma dot_Ok A B C :
  dot A B = Ok C ->
  ncols A = nrows B /\ exists f, C = mk (nrows A) (ncols B) f.
Proof.
  unfold dot. destruct (ncols A =? nrows B)%nat eqn:E; [|discriminate].
  intros H. injection H as <-. apply Nat.eqb_eq in E. split; [exact E|].
  eexists. reflexivity.
Qed.

(** The table [IOT_from_SUT] returns is built cell by cell, and only for the
    two systems. *)
Lemma IOT_from_SUT_Some S U kind Z :
  IOT_from_SUT S U kind = Ok (Some Z) ->
  (kind = "pxp" \/ kind = "ixi") /\ exists a b f, Z = mk a b f.
Proof.
  unfold IOT_from_SUT. destruct (String.eqb kind "pxp") eqn:Ep.
  - apply String.eqb_eq in Ep. intros H.
    apply bind_Ok in H. destruct H as (D & _ & H).
    apply bind_Ok in H. destruct H as (Q & _ & H).
    apply bind_Ok in H. destruct H as (P & _ & H).
    injection H as <-. split; [now left|].
    unfold transpose. eexists. eexists. eexists. reflexivity.
  - destruct (String.eqb kind "ixi") eqn:Ei; [|discriminate].
    apply String.eqb_eq in Ei. intros H.
    apply bind_Ok in H. destruct H as (D & _ & H).
    apply bind_Ok in H. destruct H as (Q & _ & H).
    apply bind_Ok in H. destruct H as (P & HP & H).
    injection H as <-. split; [now right|].
    apply dot_Ok in HP. destruct HP as [_ [f ->]].
    eexists. eexists. eexists. reflexivity.
Qed.

(** The system [load_system] returns, by its parts. *)
Lemma load_system_Ok (linalg_inv : matrix -> res matrix) S U y system s :
  load_system linalg_inv S U y system = Ok s ->
  exists IA,
    coefficients S U y system = Ok (sys_Z s, sys_x s, sys_A s) /\
    msub (eye (nrows (sys_A s))) (sys_A s) = Ok IA /\
    linalg_inv IA = Ok (sys_L s) /\ sys_Y s = y.
Proof.
  unfold load_system. intros H.
  apply bind_Ok in H. destruct H as ([[Z x] A] & Hc & H).
  apply bind_Ok in H. destruct H as (IA & Hm & H).
  apply bind_Ok in H. destruct H as (L & HL & H).
  injection H as <-. cbn [sys_Z sys_x sys_A sys_L sys_Y].
  exists IA. repeat split; assumption.
Qed.

Lemma coefficients_Ok S U y system Z x A :
  coefficients S U y system = Ok (Z, x, A) ->
  IOT_from_SUT S U system = Ok (Some Z) /\
  vadd (sum_axis1 y) (sum_axis1 Z) = Ok x /\
  dot Z (diag (div0_vec fone x)) = Ok A.
Proof.
  unfold coefficients. intros H.
  apply bind_Ok in H. destruct H as (oZ & Hz & H).
  apply bind_Ok in H. destruct H as (Z' & HZ' & H).
  apply bind_Ok in H. destruct H as (x' & Hx & H).
  apply bind_Ok in H. destruct H as (A' & HA & H).
  injection H as <- <- <-.
  destruct oZ as [Z0|]; [|discriminate]. injection HZ' as <-.
  repeat split; assumption.
Qed.

(** The tables of a system returned are square, of the size of x. *)
Lemma load_system_shapes (linalg_inv : matrix -> res matrix)
    S U y system s :
  load_system linalg_inv S U y system = Ok s ->
  has_shape (length (sys_x s)) (length (sys_x s)) (sys_Z s) /\
  has_shape (length (sys_x s)) (length (sys_x s)) (sys_A s).
Proof.
  intros H. apply load_system_Ok in H.
  destruct H as (IA & Hc & Hm & _ & _).
  apply coefficients_Ok in Hc. destruct Hc as (Hz & _ & HA).
  apply IOT_from_SUT_Some in Hz. destruct Hz as [_ (a & b & f & HZ)].
  apply dot_Ok in HA. destruct HA as [Hcols [g HAeq]].
  unfold msub in Hm.
  destruct (Nat.eqb (nrows (eye (nrows (sys_A s)))) (nrows (sys_A s))
            && Nat.eqb (ncols (eye (nrows (sys_A s)))) (ncols (sys_A s)))
    eqn:E; [|discriminate].
  apply andb_true_iff in E. destruct E as [_ E]. apply Nat.eqb_eq in E.
  unfold eye in E. rewrite ncols_mk_any in E.
  rewrite HAeq in E at 1 2. rewrite nrows_mk in E.
  rewrite HAeq, ncols_mk_any in E.
  unfold diag in Hcols, E. rewrite nrows_mk in Hcols.
  rewrite ncols_mk_any in E.
  unfold div0_vec in Hcols, E. rewrite length_map in Hcols, E.
  rewrite HZ in Hcols, E. rewrite ?nrows_mk in E.
  rewrite ncols_mk_any in Hcols.
  assert (Hab : a = length (sys_x s) /\ (a = 0 \/ b = length (sys_x s))).
  { destruct a as [|a]; cbn [Nat.eqb] in *; [split; [lia|now left]|].
    destruct (length (sys_x s)) as [|n]; cbn [Nat.eqb] in *; lia. }
  destruct Hab as [Ha Hb]. split.
  - rewrite HZ. destruct Hb as [Hb|Hb].
    + rewrite <- Ha, Hb. split; [reflexivity|constructor].
    + rewrite <- Ha at 1. rewrite <- Hb. apply has_shape_mk.
  - rewrite HAeq, HZ, nrows_mk. unfold diag, div0_vec.
    rewrite ncols_mk_any, length_map, <- Ha.
    destruct a as [|a]; [split; [reflexivity|constructor]|].
    cbn [Nat.eqb]. apply has_shape_mk.
Qed.

End CeciliaShapes.

Module CeciliaProperties.
Import ResFacts Np NumFacts NpFacts Cecilia CeciliaFacts CeciliaFinite.
Import CeciliaShapes.
Local Open Scope string_scope.

(** X20.  A system other than pxp and ixi gives no table: [IOT_from_SUT]
    returns None, and [load_system] ends with an AttributeError whatever the
    three arrays hold. *)
Theorem unknown_system_refused
    (linalg_inv : matrix -> res matrix) (S U y : matrix) (system : string) :
  system <> "pxp" -> system <> "ixi" ->
  IOT_from_SUT S U system = Ok None /\
  load_system linalg_inv S U y system = Raise AttributeError.
Proof.
  intros Hp Hi. apply String.eqb_neq in Hp, Hi.
  unfold load_system, coefficients, IOT_from_SUT. rewrite Hp, Hi.
  split; reflexivity.
Qed.

(** X21.  In a system [load_system] returns, Z and A are square arrays of
    the size of the output vector x, Y is the array read, and the system
    asked for was pxp or ixi. *)
Theorem load_system_square
    (linalg_inv : matrix -> res matrix) (S U y : matrix) (system : string)
    (s : iosystem) :
  load_system linalg_inv S U y system = Ok s ->
  has_shape (length (sys_x s)) (length (sys_x s)) (sys_Z s) /\
  has_shape (length (sys_x s)) (length (sys_x s)) (sys_A s) /\
  sys_Y s = y /\ (system = "pxp" \/ system = "ixi").
Proof.
  intros H. destruct (load_system_shapes _ _ _ _ _ H) as [HZ HA].
  split; [exact HZ|]. split; [exact HA|].
  apply load_system_Ok in H. destruct H as (IA & Hc & _ & _ & HY).
  split; [exact HY|].
  apply coefficients_Ok in Hc. destruct Hc as (Hz & _).
  exact (proj1 (IOT_from_SUT_Some _ _ _ Hz)).
Qed.

(** The default kind of [IOT_from_SUT]. *)
Lemma unknown_system_refused_witness :
  let S := [[fone; fzero]; [fzero; fone]] in
  let U := [[fone; fone]; [fone; fone]] in
  let y := [[fzero]; [fone]] in
  IOT_from_SUT S U "p" = Ok None /\
  load_system Linalg.inv S U y "p" = Raise AttributeError.
Proof.
  intros S U y.
  apply (@unknown_system_refused Linalg.inv S U y "p"); discriminate.
Defined.

Lemma load_system_square_witness :
  let S := [[fone; fzero]; [fzero; fone]] in
  let U := [[fzero; fone]; [fzero; fzero]] in
  let y := [[fone]; [fone]] in
  exists s,
    load_system Linalg.inv S U y "pxp" = Ok s /\
    has_shape (length (sys_x s)) (length (sys_x s)) (sys_Z s) /\
    has_shape (length (sys_x s)) (length (sys_x s)) (sys_A s) /\
    sys_Y s = y /\ ("pxp" = "pxp" \/ "pxp" = "ixi").
Proof.
  intros S U y. eexists. split; [vm_compute; reflexivity|].
  match goal with
  | |- context [sys_Z ?s] =>
      apply (@load_system_square Linalg.inv S U y "pxp" s)
  end.
  vm_compute. reflexivity.
Defined.

End CeciliaProperties.


(** ** The files cecilia_parser reads *)

Module CeciliaReads.
Import ResFacts PyStr Np Io CeciliaFiles.
Local Open Scope string_scope.

Section Parser.

Variable path : string.
Variable loadtxt : string -> res matrix.
Variable extensions : Type.
Variable iosystem : Type.
Variable load_extensions : io extensions.
Variable linalg_inv : matrix -> res matrix.
Variable build :
  step -> string -> Cecilia.iosystem -> vector -> extensions ->
  res (iosystem * extensions).

Let load := load_matrix path loadtxt.
Let system_of := load_system path loadtxt linalg_inv build.

(** The files [load_matrix] reads for the steps of the loop. *)
Lemma load_matrix_aggregated :
  load "V" (IntStep (-1))
    = read loadtxt (path ++ "preprocess/mrSupplyAggregated.txt") /\
  load "U" (IntStep (-1))
    = read loadtxt (path ++ "preprocess/mrUseAggregated.txt") /\
  load "Y" (IntStep (-1))
    = read loadtxt (path ++ "preprocess/mrFinalDemandAggregated.txt").
Proof. repeat split; reflexivity. Qed.

Lemma load_matrix_preprocessed matrix :
  load matrix (IntStep 0)
    = read loadtxt (path ++ "preprocess/" ++ matrix ++ ".txt").
Proof. reflexivity. Qed.

Lemma load_matrix_step matrix st folder :
  (st, folder) = (IntStep 1, "1") \/ (st, folder) = (StrStep "2a", "2a") \/
  (st, folder) = (StrStep "2b", "2b") \/ (st, folder) = (IntStep 3, "3") ->
  load matrix st
    = read loadtxt (path ++ "step" ++ folder ++ "/" ++ matrix ++ "end.txt").
Proof.
  intros [H|[H|[H|H]]]; injection H as -> ->; reflexivity.
Qed.

Lemma seq_read (B : Type) file (k : matrix -> io B) files r files' :
  (M <~ read loadtxt file ;; k M) files = (Ok r, files') ->
  exists M, loadtxt file = Ok M /\ k M (files ++ [file])%list = (Ok r, files').
Proof.
  unfold seq, read. destruct (loadtxt file) as [M|e]; [|discriminate].
  intros H. exists M. split; [reflexivity|exact H].
Qed.

Lemma load_aggregated_Ok (B : Type) (k : matrix -> matrix -> matrix -> io B)
    files r files' :
  (S <~ load "V" (IntStep (-1)) ;; U <~ load "U" (IntStep (-1)) ;;
   y <~ load "Y" (IntStep (-1)) ;; k S U y) files = (Ok r, files') ->
  exists S U y,
    k S U y (files ++ map (append path) aggregated_files)%list
      = (Ok r, files').
Proof.
  destruct load_matrix_aggregated as (-> & -> & ->). intros H.
  apply seq_read in H. destruct H as (S & _ & H).
  apply seq_read in H. destruct H as (U & _ & H).
  apply seq_read in H. destruct H as (y & _ & H).
  exists S, U, y. rewrite <- !app_assoc in H. exact H.
Qed.

(** The files one call of [load_system] reads, when it returns and was given
    no [x_init]: for the step -1 the aggregated tables, for another step of
    the loop its own tables and then the aggregated ones. *)
Lemma load_system_first system ext files r files' :
  system_of (IntStep (-1)) system None ext files = (Ok r, files') ->
  files' = (files ++ map (append path) aggregated_files)%list.
Proof.
  unfold system_of, load_system. intros H.
  apply load_aggregated_Ok in H. destruct H as (S & U & y & H).
  apply seq_Ok in H. destruct H as (numbers & f & E & H).
  apply lift_Ok in E. destruct E as [_ ->].
  cbn [step_eqb Z.eqb Pos.eqb] in H.
  apply seq_Ok in H. destruct H as (x & f & E & H).
  apply ret_Ok in E. destruct E as [_ ->].
  apply lift_Ok in H. destruct H as [_ ->]. reflexivity.
Qed.

Lemma load_system_later st folder ending system ext files r files' :
  (st, folder, ending) = (IntStep 0, "preprocess/", ".txt") \/
  (st, folder, ending) = (IntStep 1, "step1/", "end.txt") \/
  (st, folder, ending) = (StrStep "2a", "step2a/", "end.txt") \/
  (st, folder, ending) = (StrStep "2b", "step2b/", "end.txt") \/
  (st, folder, ending) = (IntStep 3, "step3/", "end.txt") ->
  system_of st system None ext files = (Ok r, files') ->
  files' = (files ++ map (append path)
                         (files_of_step folder ending ++ aggregated_files))%list.
Proof.
  intros Hst H. unfold system_of, load_system in H.
  assert (Hown : forall matrix,
            load matrix st = read loadtxt (path ++ folder ++ matrix ++ ending)).
  { intros matrix.
    destruct Hst as [E|[E|[E|[E|E]]]]; injection E as -> -> ->; reflexivity. }
  assert (Hnot : step_eqb st (IntStep (-1)) = false).
  { destruct Hst as [E|[E|[E|[E|E]]]]; injection E as -> -> ->; reflexivity. }
  unfold load in Hown. rewrite !Hown, Hnot in H.
  apply seq_read in H. destruct H as (S & _ & H).
  apply seq_read in H. destruct H as (U & _ & H).
  apply seq_read in H. destruct H as (y & _ & H).
  apply seq_Ok in H. destruct H as (numbers & f & E & H).
  apply lift_Ok in E. destruct E as [_ ->].
  apply seq_Ok in H. destruct H as (x & f & E & H).
  apply load_aggregated_Ok in E. destruct E as (S0 & U0 & y0 & E).
  apply lift_Ok in E. destruct E as [_ ->].
  apply lift_Ok in H. destruct H as [_ ->].
  rewrite map_app. unfold files_of_step. cbn [map app].
  rewrite <- !app_assoc. cbn [app]. reflexivity.
Qed.

(** The loop over the six steps. *)
Lemma load_all_steps system ext files cecilias files' :
  load_all path loadtxt linalg_inv build all_steps system None ext [] files
    = (Ok cecilias, files') ->
  map fst cecilias = all_steps /\
  files' = (files ++ map (append path) full_run_files)%list.
Proof.
  unfold all_steps. cbn [load_all]. intros H.
  apply seq_Ok in H. destruct H as ([s0 e0] & f0 & E0 & H).
  apply load_system_first in E0. subst f0.
  apply seq_Ok in H. destruct H as ([s1 e1] & f1 & E1 & H).
  eapply load_system_later in E1; [|left; reflexivity]. subst f1.
  apply seq_Ok in H. destruct H as ([s2 e2] & f2 & E2 & H).
  eapply load_system_later in E2; [|right; left; reflexivity]. subst f2.
  apply seq_Ok in H. destruct H as ([s3 e3] & f3 & E3 & H).
  eapply load_system_later in E3; [|right; right; left; reflexivity].
  subst f3.
  apply seq_Ok in H. destruct H as ([s4 e4] & f4 & E4 & H).
  eapply load_system_later in E4; [|right; right; right; left; reflexivity].
  subst f4.
  apply seq_Ok in H. destruct H as ([s5 e5] & f5 & E5 & H).
  eapply load_system_later in E5; [|right; right; right; right; reflexivity].
  subst f5.
  apply ret_Ok in H. destruct H as [H ->]. subst cecilias.
  split; [reflexivity|].
  unfold full_run_files. rewrite !map_app, <- !app_assoc. reflexivity.
Qed.

End Parser.

End CeciliaReads.

Module CeciliaFileProperties.
Import ResFacts PyStr Np Io CeciliaFiles CeciliaReads.
Local Open Scope string_scope.

Section Parser.

Variable path : string.
Variable loadtxt : string -> res matrix.
Variable extensions : Type.
Variable iosystem : Type.
Variable load_extensions : io extensions.
Variable linalg_inv : matrix -> res matrix.
Variable build :
  step -> string -> Cecilia.iosystem -> vector -> extensions ->
  res (iosystem * extensions).

Let parser :=
  cecilia_parser path loadtxt load_extensions linalg_inv build.


(** X23.  A run over all the steps that returns has read, after the files
    of the extensions, the tables V, U and Y of each step in the order of
    the loop, each step but the first followed by the three aggregated
    tables of the step -1, which are so read six times; the dict returned
    has the six steps in the order of the loop. *)
Theorem full_run_reads (system : string) files r files' :
  parser None system files = (Ok r, files') ->
  exists ext files1 cecilias,
    load_extensions files = (Ok ext, files1) /\
    r = Some cecilias /\ map fst cecilias = all_steps /\
    files' = (files1 ++ map (append path) full_run_files)%list.
Proof.
  unfold parser, cecilia_parser. intros H.
  apply seq_Ok in H. destruct H as (ext & files1 & Hext & H).
  apply seq_Ok in H. destruct H as (cecilias & f & Hall & H).
  apply ret_Ok in H. destruct H as [H ->]. subst r.
  apply load_all_steps in Hall. destruct Hall as [Hsteps ->].
  exists ext, files1, cecilias. repeat split; try assumption.
Qed.

End Parser.

(** The small run, over all the steps. *)
Lemma full_run_reads_witness :
  exists r files',
    small_run None = (Ok r, files') /\
    exists cecilias,
      r = Some cecilias /\ map fst cecilias = all_steps /\
      files' = map (append "/cecilia/") full_run_files.
Proof.
  eexists. eexists. split; [vm_compute; reflexivity|].
  match goal with
  | |- exists cecilias, ?r = _ /\ _ /\ ?f = _ =>
      destruct (@full_run_reads "/cecilia/"
                  (fun file =>
                     if endswith "Y.txt" file || endswith "Yend.txt" file
                        || endswith "mrFinalDemandAggregated.txt" file
                     then Ok [[fone]; [fone]]
                     else if endswith "U.txt" file || endswith "Uend.txt" file
                             || endswith "mrUseAggregated.txt" file
                     then Ok [[fzero; fone]; [fzero; fzero]]
                     else Ok [[fone; fzero]; [fzero; fone]])
                  unit Cecilia.iosystem (ret tt) Linalg.inv
                  (fun _ _ numbers _ ext => Ok (numbers, ext))
                  "pxp" [] r f)
        as (ext & files1 & cecilias & Hext & Hr & Hsteps & Hfiles)
  end.
  - vm_compute. reflexivity.
  - exists cecilias. injection Hext as _ <-.
    split; [exact Hr|]. split; [exact Hsteps|exact Hfiles].
Defined.

End CeciliaFileProperties.


(** ** The aggregation of sub-regions, cell by cell *)

Module OecdCellFacts.
Import NumFacts SumFacts PyStr Frame Oecd AggregateCells AggregateFrames.
Import OecdFacts OecdCells.
Local Open Scope string_scope.

Lemma key_eqb_eq a b : key_eqb a b = true <-> a = b.
Proof.
  destruct a as [a1 a2], b as [b1 b2]. unfold key_eqb. cbn [fst snd].
  rewrite andb_true_iff, !String.eqb_eq. split.
  - intros [-> ->]. reflexivity.
  - intros H. injection H as -> ->. auto.
Qed.

Lemma key_eqb_refl a : key_eqb a a = true.
Proof. now apply key_eqb_eq. Qed.

Lemma combine_fst_snd (A B : Type) (l : list (A * B)) :
  combine (map fst l) (map snd l) = l.
Proof. induction l as [|[a b] l IH]; cbn; [reflexivity|now rewrite IH]. Qed.

(** Looking up a kept label after the values are changed and some labels
    dropped. *)
Lemma lookup_filter_map (V W : Type) (p : key -> bool)
    (g : key * V -> key * W) l k :
  (forall kv, fst (g kv) = fst kv) -> p k = true ->
  lookup k (filter (fun kv => p (fst kv)) (map g l)) =
  option_map (fun v => snd (g (k, v))) (lookup k l).
Proof.
  intros Hg Hp.
  induction l as [|[k' v] l IH]; cbn [map filter lookup option_map];
    [reflexivity|].
  rewrite Hg. cbn [fst].
  destruct (key_eqb k' k) eqn:E.
  - apply key_eqb_eq in E. subst k'. rewrite Hp. cbn [option_map].
    pose proof (Hg (k, v)) as H.
    destruct (g (k, v)) as [k'' w]. cbn [fst snd] in *. subst k''.
    cbn [lookup]. rewrite key_eqb_refl. reflexivity.
  - destruct (p k'); [|exact IH].
    pose proof (Hg (k', v)) as H.
    destruct (g (k', v)) as [k'' w]. cbn [fst] in H. subst k''.
    cbn [lookup]. rewrite E. exact IH.
Qed.

Lemma lookup_map_values (V W : Type) (h : V -> W) (l : list (key * V)) k :
  lookup k (map (fun kv => (fst kv, h (snd kv))) l) =
  option_map h (lookup k l).
Proof.
  induction l as [|[k' v] l IH]; cbn [map lookup option_map fst snd];
    [reflexivity|].
  destruct (key_eqb k' k); [reflexivity|exact IH].
Qed.

Lemma lookup_In (V : Type) (l : list (key * V)) k :
  In k (map fst l) -> exists v, lookup k l = Some v /\ In (k, v) l.
Proof.
  induction l as [|[k' v] l IH]; cbn [map fst In lookup]; [contradiction|].
  intros H. destruct (key_eqb k' k) eqn:E.
  - apply key_eqb_eq in E. subst k'. exists v. auto.
  - destruct H as [->|H]; [rewrite key_eqb_refl in E; discriminate|].
    destruct (IH H) as (w & Hw & Hin). exists w. auto.
Qed.

(** With labels met once, the values of the labels that pass a test are the
    values of the entries that pass it. *)
Lemma lookup_members (V W : Type) (G : option V -> W) (q : key -> bool)
    (l : list (key * V)) :
  NoDup (map fst l) ->
  map (fun k => G (lookup k l)) (filter q (map fst l)) =
  map (fun kv => G (Some (snd kv))) (filter (fun kv => q (fst kv)) l).
Proof.
  induction l as [|[k v] l IH]; intros ND; [reflexivity|].
  cbn [map fst] in ND. inversion ND as [|? ? Hnotin ND']; subst.
  cbn [map filter fst].
  assert (Htail :
    map (fun k0 => G (lookup k0 ((k, v) :: l))) (filter q (map fst l)) =
    map (fun kv => G (Some (snd kv))) (filter (fun kv => q (fst kv)) l)).
  { rewrite <- IH by assumption. apply map_ext_in. intros k0 Hk0.
    apply filter_In in Hk0 as [Hk0 _]. cbn [lookup].
    destruct (key_eqb k k0) eqn:E; [|reflexivity].
    apply key_eqb_eq in E. subst k0. contradiction. }
  destruct (q k); cbn [map]; [|exact Htail].
  rewrite Htail. cbn [lookup snd]. now rewrite key_eqb_refl.
Qed.

(** A column label met in [cols] has a position. *)
Lemma cell_of_nth cols c :
  In c cols ->
  exists j, j < length cols /\
    forall v, length v = length cols -> cell_of cols v c = nth j v fzero.
Proof.
  induction cols as [|c0 cols IH]; intros Hin; [contradiction|].
  destruct (key_eqb c0 c) eqn:E.
  - exists 0. split; [simpl; lia|]. intros [|x v] Hv; [discriminate|].
    unfold cell_of. cbn [combine lookup]. now rewrite E.
  - destruct Hin as [->|Hin]; [rewrite key_eqb_refl in E; discriminate|].
    destruct (IH Hin) as (j & Hj & Hnth). exists (S j).
    split; [simpl; lia|]. intros [|x v] Hv; [discriminate|].
    unfold cell_of. cbn [combine lookup]. rewrite E. cbn [nth].
    apply (Hnth v). simpl in Hv. lia.
Qed.

Lemma cell_of_lookup cols row c :
  In c cols -> length row = length cols ->
  lookup c (combine cols row) = Some (cell_of cols row c).
Proof.
  intros Hin Hlen. unfold cell_of.
  destruct (@lookup_In fl (combine cols row) c) as (x & -> & _); trivial.
  rewrite combine_fst; [assumption|now symmetry].
Qed.

Lemma nth_add_cells a : forall b j,
  j < length a -> j < length b ->
  nth j (add_cells a b) fzero = fadd (nth j a fzero) (nth j b fzero).
Proof.
  unfold add_cells.
  induction a as [|x a IH]; intros [|y b] [|j] Ha Hb; simpl in *;
    try lia; [reflexivity|]. apply IH; lia.
Qed.

Lemma nth_colwise_nansum m rows j :
  j < m ->
  nth j (colwise_nansum m rows) fzero =
  nansum (map (fun r => nth j r fzero) rows).
Proof.
  intros Hj. unfold colwise_nansum.
  rewrite nth_indep
    with (d' := (fun j => nansum (map (fun r => nth j r fzero) rows)) 0)
    by now rewrite length_map, length_seq.
  rewrite map_nth
    with (f := fun j => nansum (map (fun r => nth j r fzero) rows)).
  now rewrite seq_nth.
Qed.

Lemma nth_all_NaN (row : list fl) : forall j,
  j < length row -> nth j (map (fun _ => NaN) row) fzero = NaN.
Proof.
  induction row as [|x row IH]; intros [|j] Hj; simpl in *; try lia;
    [reflexivity|]. apply IH. lia.
Qed.

(** [merged], on the values of the sub-regions. *)
Lemma merged_values co_name agg_list labels get k vals :
  map get (filter (is_member agg_list k) labels) = vals ->
  merged co_name agg_list labels get k =
  if String.eqb (region k) co_name then
    match vals with
    | [] => NaN
    | _ => fadd (get k) (nansum vals)
    end
  else get k.
Proof.
  intros <-. unfold merged.
  destruct (filter (is_member agg_list k) labels); reflexivity.
Qed.

Lemma merged_ext co_name agg_list labels get get' k :
  get k = get' k -> (forall k', In k' labels -> get k' = get' k') ->
  merged co_name agg_list labels get k =
  merged co_name agg_list labels get' k.
Proof.
  intros Hk Hl. unfold merged. rewrite Hk.
  assert (H : map get (filter (is_member agg_list k) labels) =
              map get' (filter (is_member agg_list k) labels)).
  { apply map_ext_in. intros k' Hk'. apply filter_In in Hk' as [Hk' _].
    now apply Hl. }
  destruct (filter (is_member agg_list k) labels) as [|a l];
    [reflexivity|]. now rewrite H.
Qed.

Section OneTarget.

Variables (co_name : string) (agg_list : list string).

Let keep (k : key) : bool := negb (mem (region k) agg_list).

(** *** One row, along the columns *)

Section Cells.

Variable cols : list key.
Hypothesis NDc : NoDup cols.

Let new_cell (cells : list (key * fl)) (kv : key * fl) : key * fl :=
  if String.eqb (region (fst kv)) co_name then
    (fst kv,
     match filter (fun kv' => mem (region (fst kv')) agg_list
                              && String.eqb (sector (fst kv'))
                                   (sector (fst kv))) cells with
     | [] => NaN
     | ms => fadd (snd kv) (nansum (map snd ms))
     end)
  else kv.

Lemma aggregate_cells_eq cells :
  aggregate_cells co_name agg_list cells =
  filter (fun kv => keep (fst kv)) (map (new_cell cells) cells).
Proof. reflexivity. Qed.

Lemma new_cell_key cells kv : fst (new_cell cells kv) = fst kv.
Proof. unfold new_cell. now destruct (String.eqb _ _). Qed.

Lemma aggregate_cells_labels row :
  length row = length cols ->
  map fst (aggregate_cells co_name agg_list (combine cols row)) =
  filter keep cols.
Proof.
  intros Hlen. rewrite aggregate_cells_eq.
  rewrite filter_map_fst by apply new_cell_key.
  rewrite map_fst_filter by apply new_cell_key.
  rewrite combine_fst; [reflexivity|now symmetry].
Qed.

Lemma aggregate_cells_length row :
  length row = length cols ->
  length (map snd (aggregate_cells co_name agg_list (combine cols row))) =
  length (filter keep cols).
Proof.
  intros Hlen. rewrite <- (@aggregate_cells_labels row Hlen).
  now rewrite !length_map.
Qed.

(** The cell under a kept column label, after the columns are merged. *)
Lemma aggregate_cells_cell row c :
  length row = length cols -> In c cols -> keep c = true ->
  cell_of (filter keep cols)
    (map snd (aggregate_cells co_name agg_list (combine cols row))) c =
  merged co_name agg_list cols (cell_of cols row) c.
Proof.
  intros Hlen Hin Hkeep.
  assert (Hkeys : map fst (combine cols row) = cols)
    by (apply combine_fst; now symmetry).
  unfold cell_of at 1.
  rewrite <- (@aggregate_cells_labels row Hlen), combine_fst_snd.
  rewrite aggregate_cells_eq.
  rewrite (@lookup_filter_map fl fl keep (new_cell (combine cols row)))
    by (trivial; apply new_cell_key).
  rewrite (@cell_of_lookup cols row c Hin Hlen). cbn [option_map].
  rewrite merged_values
    with (vals := map snd
                    (filter (fun kv => is_member agg_list c (fst kv))
                            (combine cols row))).
  - unfold new_cell. cbn [fst snd].
    destruct (String.eqb (region c) co_name); [|reflexivity].
    change (fun kv' : key * fl =>
              mem (region (fst kv')) agg_list
              && String.eqb (sector (fst kv')) (sector c))
      with (fun kv' : key * fl => is_member agg_list c (fst kv')).
    destruct (filter _ (combine cols row)); reflexivity.
  - assert (ND : NoDup (map fst (combine cols row))) by now rewrite Hkeys.
    pose proof (@lookup_members fl fl
                  (fun o => match o with Some x => x | None => fzero end)
                  (is_member agg_list c) (combine cols row) ND) as H.
    cbn beta iota in H. rewrite Hkeys in H. exact H.
Qed.

End Cells.

(** *** The table *)

Section Table.

Variable Z : frame key key.
Hypothesis wf : well_formed Z.
Hypothesis NDi : NoDup (index Z).
Hypothesis NDc : NoDup (columns Z).

Let rows := combine (index Z) (values Z).

Let new_row (kv : key * list fl) : key * list fl :=
  if String.eqb (region (fst kv)) co_name then
    (fst kv,
     match filter (fun kv' => mem (region (fst kv')) agg_list
                              && String.eqb (sector (fst kv'))
                                   (sector (fst kv))) rows with
     | [] => map (fun _ => NaN) (snd kv)
     | ms => add_cells (snd kv)
               (colwise_nansum (length (columns Z)) (map snd ms))
     end)
  else kv.

Let Z1 := aggregate_rows co_name agg_list Z.
Let Z2 := aggregate_cols co_name agg_list Z1.

Lemma aggregate_rows_eq :
  Z1 = {| index := filter keep (index Z);
          columns := columns Z;
          values := map snd (filter (fun kv => keep (fst kv))
                               (map new_row rows)) |}.
Proof. reflexivity. Qed.

Lemma new_row_key kv : fst (new_row kv) = fst kv.
Proof. unfold new_row. now destruct (String.eqb _ _). Qed.

Lemma table_rows_keys : map fst rows = index Z.
Proof. apply combine_fst. symmetry. apply wf. Qed.

Lemma table_row_length kv : In kv rows -> length (snd kv) = length (columns Z).
Proof.
  intros H. destruct kv as [k row]. apply in_combine_r in H. cbn [snd].
  destruct wf as [_ Hlen]. rewrite Forall_forall in Hlen. now apply Hlen.
Qed.

Lemma new_row_length kv :
  In kv rows -> length (snd (new_row kv)) = length (columns Z).
Proof.
  intros Hkv. pose proof (@table_row_length kv Hkv) as Hlen. unfold new_row.
  destruct (String.eqb _ _); [|exact Hlen]. cbn [snd].
  destruct (filter _ rows).
  - now rewrite length_map.
  - rewrite add_cells_length, colwise_nansum_length. lia.
Qed.

Lemma index_after_rows :
  index Z1 = map fst (filter (fun kv => keep (fst kv)) (map new_row rows)).
Proof.
  rewrite aggregate_rows_eq. cbn [index].
  rewrite filter_map_fst by apply new_row_key.
  rewrite map_fst_filter by apply new_row_key.
  now rewrite table_rows_keys.
Qed.

Lemma rows_after_rows :
  combine (index Z1) (values Z1) =
  filter (fun kv => keep (fst kv)) (map new_row rows).
Proof.
  rewrite index_after_rows. rewrite aggregate_rows_eq. cbn [values].
  apply combine_fst_snd.
Qed.

Lemma rows_after_rows_length row :
  In row (values Z1) -> length row = length (columns Z).
Proof.
  rewrite aggregate_rows_eq. cbn [values]. intros H.
  apply in_map_iff in H as (kv & <- & Hkv).
  apply filter_In in Hkv as [Hkv _].
  apply in_map_iff in Hkv as (kv0 & <- & Hkv0). now apply new_row_length.
Qed.

(** The cell of a row after the rows are merged. *)
Lemma new_row_cell r row c :
  lookup r rows = Some row -> In (r, row) rows -> In c (columns Z) ->
  cell_of (columns Z) (snd (new_row (r, row))) c =
  merged co_name agg_list (index Z) (fun r' => cell Z r' c) r.
Proof.
  intros Hrow Hin Hc.
  destruct (@cell_of_nth _ _ Hc) as (j & Hj & Hnth).
  pose proof (@table_row_length _ Hin) as Hlen. cbn [snd] in Hlen.
  set (ms := filter (fun kv => is_member agg_list r (fst kv)) rows).
  assert (Hms : forall kv, In kv ms -> length (snd kv) = length (columns Z)).
  { intros kv Hkv. apply filter_In in Hkv as [Hkv _].
    now apply table_row_length. }
  rewrite merged_values
    with (vals := map (fun kv => nth j (snd kv) fzero) ms).
  - rewrite (Hnth _ (@new_row_length _ Hin)).
    unfold new_row. cbn [fst snd].
    assert (Hget : cell Z r c = nth j row fzero).
    { unfold cell. fold rows. rewrite Hrow. now apply Hnth. }
    rewrite Hget.
    destruct (String.eqb (region r) co_name); [|reflexivity].
    change (fun kv' : key * list fl =>
              mem (region (fst kv')) agg_list
              && String.eqb (sector (fst kv')) (sector r))
      with (fun kv' : key * list fl => is_member agg_list r (fst kv')).
    fold ms. destruct ms as [|kv0 ms'] eqn:Ems.
    + cbn [map]. apply nth_all_NaN. lia.
    + cbn [snd]. rewrite nth_add_cells
        by (rewrite ?colwise_nansum_length; lia).
      rewrite nth_colwise_nansum by trivial.
      rewrite map_map. reflexivity.
  - rewrite <- table_rows_keys.
    assert (ND : NoDup (map fst rows)) by now rewrite table_rows_keys.
    pose proof (@lookup_members (list fl) fl
                  (fun o => match o with
                            | Some row => cell_of (columns Z) row c
                            | None => fzero
                            end)
                  (is_member agg_list r) rows ND) as H.
    cbn beta iota in H. unfold cell. fold rows. rewrite H.
    apply map_ext_in. intros kv Hkv. apply Hnth. now apply Hms.
Qed.

(** Rows, then columns: every cell left is the merged one. *)
Lemma aggregate_turn_merges : merges co_name agg_list Z Z2.
Proof.
  split; [reflexivity|]. split; [reflexivity|].
  intros r c Hr Hc.
  cbn [Z2 aggregate_cols index columns] in Hr, Hc.
  rewrite aggregate_rows_eq in Hr, Hc. cbn [index columns] in Hr, Hc.
  apply filter_In in Hr as [Hr Hkr]. apply filter_In in Hc as [Hc Hkc].
  rewrite <- table_rows_keys in Hr.
  destruct (@lookup_In _ _ _ Hr) as (row & Hrow & Hin).
  unfold cell at 1. cbn [Z2 aggregate_cols index values columns].
  rewrite combine_map_r.
  rewrite (@lookup_map_values (list fl) (list fl)
             (fun row0 => map snd (aggregate_cells co_name agg_list
                                     (combine (columns Z1) row0)))).
  rewrite rows_after_rows.
  rewrite (@lookup_filter_map (list fl) (list fl) keep new_row)
    by (trivial; apply new_row_key).
  rewrite Hrow. cbn [option_map].
  change (columns Z1) with (columns Z).
  rewrite (@aggregate_cells_cell (columns Z) NDc)
    by (trivial; now apply new_row_length).
  apply merged_ext.
  - now apply new_row_cell.
  - intros c' Hc'. now apply new_row_cell.
Qed.

Lemma aggregate_turn_well_formed : well_formed Z2.
Proof.
  split.
  - cbn [Z2 aggregate_cols index values]. rewrite length_map.
    rewrite index_after_rows. rewrite aggregate_rows_eq. cbn [values].
    now rewrite !length_map.
  - cbn [Z2 aggregate_cols columns values]. apply Forall_forall.
    intros row Hrow. apply in_map_iff in Hrow as (row1 & <- & Hrow1).
    change (columns Z1) with (columns Z).
    apply aggregate_cells_length. now apply rows_after_rows_length.
Qed.

Lemma aggregate_turn_labels :
  NoDup (index Z2) /\ NoDup (columns Z2).
Proof. split; now apply NoDup_filter. Qed.

End Table.

End OneTarget.

End OecdCellFacts.

(** ** The aggregation of the CN and MX sub-regions *)

Module OecdMerge.
Import NumFacts PyStr Frame Oecd OecdCells OecdCellFacts.
Local Open Scope string_scope.

(** One turn of the loop, on the interindustry table. *)
Lemma aggregate_region_turn names (t : tables) co agg :
  well_formed (tab_Z t) -> NoDup (index (tab_Z t)) ->
  NoDup (columns (tab_Z t)) ->
  let Z' := tab_Z (aggregate_region names t (co, agg)) in
  turn names co agg (tab_Z t) Z' /\
  well_formed Z' /\ NoDup (index Z') /\ NoDup (columns Z').
Proof.
  intros wf NDi NDc. unfold turn, aggregate_region.
  destruct (negb (mem co names) || (length agg =? 0)%nat).
  - cbv zeta. auto.
  - cbv zeta. cbn [tab_Z]. split; [|split].
    + now apply aggregate_turn_merges.
    + now apply aggregate_turn_well_formed.
    + now apply aggregate_turn_labels.
Qed.

(** C4, as the code has it.  On an interindustry table whose rows and
    columns carry labels met once (of ASCII characters), the aggregation of
    [parse_oecd] takes one target at a time, CHN with the regions CN and a
    digit, then MEX with the regions MX and a digit, a turn being skipped
    when the target is not a region of the table or has no sub-region.  In a
    turn the rows are merged before the columns: each cell of a target row
    gets the sum of the cells of the sub-region rows of the same sector
    added (NaN if no sub-region has the sector), then each cell of a target
    column of the table so obtained gets the sum of the cells of the
    sub-region columns of the same sector added, and the rows and columns of
    the sub-regions are dropped; a sector of a sub-region that the target
    does not have is dropped without being added anywhere. *)
Theorem aggregation_sums_by_sector (t : tables) :
  well_formed (tab_Z t) ->
  NoDup (index (tab_Z t)) -> NoDup (columns (tab_Z t)) ->
  forallb (fun k => is_ascii (region k)) (columns (tab_Z t)) = true ->
  let names := unique (map region (columns (tab_Z t))) in
  exists Z1,
    turn names "CHN" (filter (match_prefix_digit "CN") names) (tab_Z t) Z1 /\
    turn names "MEX" (filter (match_prefix_digit "MX") names) Z1
      (tab_Z (aggregate_subregions t)).
Proof.
  intros wf NDi NDc _ names. unfold aggregate_subregions. cbn [fold_left].
  fold names.
  set (aggCN := filter (match_prefix_digit "CN") names).
  set (aggMX := filter (match_prefix_digit "MX") names).
  destruct (@aggregate_region_turn names t "CHN" aggCN wf NDi NDc)
    as (T1 & wf1 & NDi1 & NDc1).
  set (t1 := aggregate_region names t ("CHN", aggCN)) in *.
  destruct (@aggregate_region_turn names t1 "MEX" aggMX wf1 NDi1 NDc1)
    as (T2 & _).
  exists (tab_Z t1). split; assumption.
Qed.

(** Australia, China and one Chinese sub-region, one sector each. *)
Lemma aggregation_sums_by_sector_witness :
  let n (k : nat) := Fin (Q2Qc (inject_Z (Z.of_nat k))) in
  let keys := [("AUS", "A"); ("CHN", "A"); ("CN1", "A")] in
  let Z := {| index := keys; columns := keys;
              values := [[n 11; n 9; n 10]; [n 3; n 1; n 2]; [n 7; n 5; n 6]] |} in
  let Y := {| index := keys; columns := [("AUS", "HFCE")];
              values := [[n 0]; [n 4]; [n 8]] |} in
  let F := {| index := ["VALU"]; columns := keys;
              values := [[n 1; n 1; n 1]] |} in
  let t := {| tab_Z := Z; tab_Y := Y; tab_F := F |} in
  let names := unique (map region (columns (tab_Z t))) in
  exists Z1,
    turn names "CHN" (filter (match_prefix_digit "CN") names) (tab_Z t) Z1 /\
    turn names "MEX" (filter (match_prefix_digit "MX") names) Z1
      (tab_Z (aggregate_subregions t)).
Proof.
  intros n keys Z Y F t. apply (@aggregation_sums_by_sector t).
  - split; [reflexivity | repeat constructor].
  - repeat constructor; simpl; intuition discriminate.
  - repeat constructor; simpl; intuition discriminate.
  - reflexivity.
Defined.

(** C4 as stated fails.  On a table of China with the sector A and a
    sub-region CN1 with the sectors A and B, all cells 1, the rows and
    columns carrying the same three labels: the sum of the cells is 9 before
    the aggregation and 4 after it; the cells of the sector B of CN1 are
    dropped without being added to China. *)
Lemma aggregation_loses_unmatched_sector :
  let Z := tab_Z uneven_sectors in
  (well_formed Z /\ NoDup (index Z) /\ columns Z = index Z) /\
  total Z = Fin (Q2Qc 9) /\
  index (tab_Z (aggregate_subregions uneven_sectors)) = [("CHN", "A")] /\
  values (tab_Z (aggregate_subregions uneven_sectors)) = [[Fin (Q2Qc 4)]] /\
  total (tab_Z (aggregate_subregions uneven_sectors)) = Fin (Q2Qc 4) /\
  total (tab_Z (aggregate_subregions uneven_sectors)) <> total Z.
Proof.
  intros Z. split; [|split; [|split; [|split; [|split]]]].
  - split; [split; [reflexivity | repeat constructor]|].
    split; [|reflexivity].
    repeat constructor; simpl; intuition discriminate.
  - vm_compute. f_equal; try (apply Qc_is_canon; reflexivity).
  - reflexivity.
  - vm_compute. repeat f_equal; try (apply Qc_is_canon; reflexivity).
  - vm_compute. f_equal; try (apply Qc_is_canon; reflexivity).
  - vm_compute. intros H. injection H as H. discriminate H.
Qed.

End OecdMerge.


